(** * Gym workout logger: gesture recognisers and the draft editor

    A shallow embedding of the parts of [App.tsx] (the [GymProvider] store, the
    [WorkoutEditor] component) and of [components/ui] ([useLongPress],
    [useSwipe], [SwipeableItem]) that the specification talks about.

    Conventions of the embedding.
    - A JavaScript [number] is an exact rational ([Q]); rounding of IEEE
      doubles and [NaN] are outside the model, except for the percentage of
      the session report, which is computed on doubles.  [Date.now()] is an
      integer number of milliseconds ([Z]), injected into [Q] where it is
      stored.
    - React state is the value the last render saw.  In the editor a handler
      followed by the render it causes is one transition, and the effects of
      that render run inside the transition in declaration order (cleanups
      first); every [setWorkout] counts as a change of [workout].  The
      long-press hook keeps the render apart from the handlers.
    - [window.setTimeout] puts a closure in a list of pending timers; a timer
      fires through an explicit event and only once it is due.
    - [generateId()] lives in [services/utils], which is not part of the
      sources at hand: every function that calls it takes the generated
      identifiers as arguments. *)

From Stdlib Require Import List String Bool ZArith QArith Qabs Lia PeanoNat.
Import ListNotations.
Local Open Scope string_scope.
Local Open Scope list_scope.

(** ** JavaScript numbers and truthiness *)

Module Js.

(** [x || d] on numbers: [0] is falsy. *)
Definition num_or (x d : Q) : Q := if Qeq_bool x 0 then d else x.

(** Truthiness of a [number | null]: [null] and [0] are falsy. *)
Definition truthy (o : option Q) : bool :=
  match o with
  | Some t => negb (Qeq_bool t 0)
  | None => false
  end.

(** Strict comparisons [a > b] and [a < b]. *)
Definition gt (a b : Q) : bool := negb (Qle_bool a b).
Definition lt (a b : Q) : bool := negb (Qle_bool b a).

(** [Math.max] and [Math.min]. *)
Definition max (a b : Q) : Q := if Qle_bool a b then b else a.
Definition min (a b : Q) : Q := if Qle_bool a b then a else b.

End Js.

(** ** Data model ([types.ts]) *)

Record WSet := mkSet
  { s_id : string; s_weight : Q; s_reps : Q; s_completed : bool }.

Record ExerciseInstance := mkEx
  { ex_id : string; ex_defId : string; ex_sets : list WSet }.

Record Workout := mkWorkout
  { w_id : string;
    w_date : string;
    w_title : string;
    w_note : string;
    w_exercises : list ExerciseInstance;
    w_completed : bool;
    w_elapsedSeconds : Q;
    w_startTimestamp : option Q }.

(** Object spreads [{ ...w, field: v }]. *)
Definition with_exercises (exs : list ExerciseInstance) (w : Workout) : Workout :=
  mkWorkout (w_id w) (w_date w) (w_title w) (w_note w) exs
            (w_completed w) (w_elapsedSeconds w) (w_startTimestamp w).

Definition with_completed (c : bool) (w : Workout) : Workout :=
  mkWorkout (w_id w) (w_date w) (w_title w) (w_note w) (w_exercises w)
            c (w_elapsedSeconds w) (w_startTimestamp w).

Definition with_title (t : string) (w : Workout) : Workout :=
  mkWorkout (w_id w) (w_date w) t (w_note w) (w_exercises w)
            (w_completed w) (w_elapsedSeconds w) (w_startTimestamp w).

Definition with_note (n : string) (w : Workout) : Workout :=
  mkWorkout (w_id w) (w_date w) (w_title w) n (w_exercises w)
            (w_completed w) (w_elapsedSeconds w) (w_startTimestamp w).

Definition with_timer (el : Q) (ts : option Q) (w : Workout) : Workout :=
  mkWorkout (w_id w) (w_date w) (w_title w) (w_note w) (w_exercises w)
            (w_completed w) el ts.

Definition with_sets (ss : list WSet) (ex : ExerciseInstance) : ExerciseInstance :=
  mkEx (ex_id ex) (ex_defId ex) ss.

Definition set_uncompleted (s : WSet) : WSet :=
  mkSet (s_id s) (s_weight s) (s_reps s) false.

(** The set every fresh exercise starts with:
    [{ id: generateId(), weight: 0, reps: 0, completed: false }]. *)
Definition default_set (newId : string) : WSet := mkSet newId 0 0 false.

(** ** The optimistic store ([GymProvider]) *)

Inductive StoreCall :=
| CallAdd (w : Workout)
| CallUpdate (w : Workout)
| CallDelete (id : string).

Inductive RemoteOp :=
| RemoteUpsert (w : Workout)
| RemoteDelete (id : string).

Record Provider := mkProvider
  { user : bool;                  (* a profile is signed in *)
    workouts : list Workout;      (* the [workouts] state *)
    calls : list StoreCall;       (* every mutation the store received, oldest first *)
    remote : list RemoteOp }.     (* what was sent on to the remote tables *)

Definition has_id (id : string) (w : Workout) : bool := String.eqb (w_id w) id.

Definition addWorkout (workout : Workout) (p : Provider) : Provider :=
  mkProvider (user p)
             (workouts p ++ [workout])
             (calls p ++ [CallAdd workout])
             (if user p then remote p ++ [RemoteUpsert workout] else remote p).

Definition updateWorkout (updated : Workout) (p : Provider) : Provider :=
  mkProvider (user p)
             (map (fun w => if has_id (w_id updated) w then updated else w) (workouts p))
             (calls p ++ [CallUpdate updated])
             (if user p then remote p ++ [RemoteUpsert updated] else remote p).

Definition deleteWorkout (id : string) (p : Provider) : Provider :=
  mkProvider (user p)
             (filter (fun w => negb (has_id id w)) (workouts p))
             (calls p ++ [CallDelete id])
             (if user p then remote p ++ [RemoteDelete id] else remote p).

(** The record [copyWorkout] builds from its source. *)
Definition copy_of (newId targetDate : string) (source : Workout) : Workout :=
  mkWorkout newId targetDate (w_title source) (w_note source)
            (map (fun ex => with_sets (map set_uncompleted (ex_sets ex)) ex)
                 (w_exercises source))
            false 0 None.

Definition copyWorkout (newId workoutId targetDate : string) (p : Provider) : Provider :=
  match find (has_id workoutId) (workouts p) with
  | None => p
  | Some source => addWorkout (copy_of newId targetDate source) p
  end.

(** ** Identifier generation

    [generateId()] is effectful; the model threads a supply through every
    function that calls it.  The [n]-th call returns [gen n]. *)

Record IdSupply := mkIds { gen : nat -> string; used : nat }.

Definition generateId (s : IdSupply) : string * IdSupply :=
  (gen s (used s), mkIds (gen s) (S (used s))).

(** [xs.map(f)] for a callback [f] that may call [generateId()]. *)
Fixpoint map_ids {A B : Type} (f : A -> IdSupply -> B * IdSupply)
         (xs : list A) (s : IdSupply) : list B * IdSupply :=
  match xs with
  | [] => ([], s)
  | x :: rest =>
      let '(y, s1) := f x s in
      let '(ys, s2) := map_ids f rest s1 in
      (y :: ys, s2)
  end.

(** ** Draft edits: the [updated] value each handler of [WorkoutEditor] builds *)

Inductive SetField :=
| FieldId (v : string)
| FieldWeight (v : Q)
| FieldReps (v : Q)
| FieldCompleted (v : bool).

(** [{ ...s, [field]: value }] *)
Definition set_field (f : SetField) (s : WSet) : WSet :=
  match f with
  | FieldId v => mkSet v (s_weight s) (s_reps s) (s_completed s)
  | FieldWeight v => mkSet (s_id s) v (s_reps s) (s_completed s)
  | FieldReps v => mkSet (s_id s) (s_weight s) v (s_completed s)
  | FieldCompleted v => mkSet (s_id s) (s_weight s) (s_reps s) v
  end.

Definition addExercise_updated (defId : string) (workout : Workout) (s : IdSupply)
  : Workout * IdSupply :=
  let baseWorkout :=
    if w_completed workout then with_completed false workout else workout in
  let '(exId, s1) := generateId s in
  let '(setId, s2) := generateId s1 in
  let newInstance := mkEx exId defId [default_set setId] in
  (with_exercises (w_exercises baseWorkout ++ [newInstance]) baseWorkout, s2).

Definition updateSet_updated (exId setId : string) (f : SetField) (workout : Workout)
  : Workout :=
  with_exercises
    (map (fun ex =>
            if String.eqb (ex_id ex) exId
            then with_sets
                   (map (fun s => if String.eqb (s_id s) setId then set_field f s else s)
                        (ex_sets ex)) ex
            else ex)
         (w_exercises workout))
    workout.

(** [ex.sets[ex.sets.length - 1]], [undefined] on an empty list. *)
Definition last_set (ss : list WSet) : option WSet := nth_error ss (List.length ss - 1).

(** [last?.weight || 0] and [last?.reps || 0] *)
Definition last_weight (ss : list WSet) : Q :=
  match last_set ss with Some l => Js.num_or (s_weight l) 0 | None => 0 end.
Definition last_reps (ss : list WSet) : Q :=
  match last_set ss with Some l => Js.num_or (s_reps l) 0 | None => 0 end.

Definition addSet_exercise (exId : string) (ex : ExerciseInstance) (s : IdSupply)
  : ExerciseInstance * IdSupply :=
  if negb (String.eqb (ex_id ex) exId) then (ex, s)
  else
    let '(newId, s1) := generateId s in
    (with_sets (ex_sets ex ++ [mkSet newId (last_weight (ex_sets ex))
                                     (last_reps (ex_sets ex)) false]) ex, s1).

Definition addSet_updated (exId : string) (workout : Workout) (s : IdSupply)
  : Workout * IdSupply :=
  let '(exs, s1) := map_ids (addSet_exercise exId) (w_exercises workout) s in
  (with_exercises exs workout, s1).

Definition deleteSet_exercise (exId setId : string) (ex : ExerciseInstance)
           (s : IdSupply) : ExerciseInstance * IdSupply :=
  if negb (String.eqb (ex_id ex) exId) then (ex, s)
  else
    let next := filter (fun x => negb (String.eqb (s_id x) setId)) (ex_sets ex) in
    (* Keep at least one empty set so the exercise doesn't become unusable. *)
    if (0 <? List.length next)%nat then (with_sets next ex, s)
    else
      let '(newId, s1) := generateId s in
      (with_sets [default_set newId] ex, s1).

Definition deleteSet_updated (exId setId : string) (workout : Workout) (s : IdSupply)
  : Workout * IdSupply :=
  let '(exs, s1) := map_ids (deleteSet_exercise exId setId) (w_exercises workout) s in
  (with_exercises exs workout, s1).

Definition removeExercise_updated (exId : string) (workout : Workout) : Workout :=
  with_exercises
    (filter (fun e => negb (String.eqb (ex_id e) exId)) (w_exercises workout))
    workout.

(** The seconds of the running session, [(now - startTimestamp) / 1000]. *)
Definition session_seconds (now : Z) (t : Q) : Q := (inject_Z now - t) / 1000.

(** [toggleTimer] past its [completed] guard. *)
Definition toggleTimer_updated (now : Z) (workout : Workout) : Workout :=
  match w_startTimestamp workout with
  | Some t =>
      if Js.truthy (Some t)
      then with_timer (Js.num_or (w_elapsedSeconds workout) 0 + session_seconds now t)
                      None workout
      else with_timer (w_elapsedSeconds workout) (Some (inject_Z now)) workout
  | None => with_timer (w_elapsedSeconds workout) (Some (inject_Z now)) workout
  end.

(** [handleFinish] past its empty-draft guard. *)
Definition handleFinish_updated (now : Z) (workout : Workout) : Workout :=
  let finalElapsed :=
    match w_startTimestamp workout with
    | Some t =>
        if Js.truthy (Some t)
        then Js.num_or (w_elapsedSeconds workout) 0 + session_seconds now t
        else Js.num_or (w_elapsedSeconds workout) 0
    | None => Js.num_or (w_elapsedSeconds workout) 0
    end in
  with_completed true (with_timer finalElapsed None workout).

Definition handleResume_updated (workout : Workout) : Workout :=
  with_completed false workout.

(** ** The editor instance: React state, refs, timers *)

Record Editor := mkEditor
  { workout : Workout;                      (* [useState<Workout>] *)
    loadedIdRef : option string;
    isHydratingRef : bool;
    isDirtyRef : bool;
    editSeqRef : nat;
    autosaveTimerRef : option positive }.   (* timer handles are positive, hence truthy *)

(** The closures handed to [setTimeout] by the editor. *)
Inductive TimerAction :=
| ClearHydrating
    (* [() => { isHydratingRef.current = false; }] *)
| AutosaveFlush (seq : nat) (captured : Workout) (capturedWorkouts : list Workout).
    (* the autosave closure, with the [seq], [workout] and [workouts] of the
       render that scheduled it *)

Record Timer := mkTimer { handle : positive; due : Z; action : TimerAction }.

Record World := mkWorld
  { route : option string;       (* [useParams().id] *)
    mounted : bool;
    editor : Editor;
    provider : Provider;
    timers : list Timer;         (* pending timeouts, oldest first *)
    nextHandle : positive;
    ids : IdSupply;
    formatDate : Z -> string;    (* [formatDate(new Date())] at a clock value *)
    clock : Z }.                 (* [Date.now()] *)

Definition set_editor (e : Editor) (W : World) : World :=
  mkWorld (route W) (mounted W) e (provider W) (timers W) (nextHandle W)
          (ids W) (formatDate W) (clock W).

Definition set_provider (p : Provider) (W : World) : World :=
  mkWorld (route W) (mounted W) (editor W) p (timers W) (nextHandle W)
          (ids W) (formatDate W) (clock W).

Definition set_timers (ts : list Timer) (W : World) : World :=
  mkWorld (route W) (mounted W) (editor W) (provider W) ts (nextHandle W)
          (ids W) (formatDate W) (clock W).

Definition set_ids (s : IdSupply) (W : World) : World :=
  mkWorld (route W) (mounted W) (editor W) (provider W) (timers W) (nextHandle W)
          s (formatDate W) (clock W).

Definition set_route (r : option string) (W : World) : World :=
  mkWorld r (mounted W) (editor W) (provider W) (timers W) (nextHandle W)
          (ids W) (formatDate W) (clock W).

Definition set_mounted (m : bool) (W : World) : World :=
  mkWorld (route W) m (editor W) (provider W) (timers W) (nextHandle W)
          (ids W) (formatDate W) (clock W).

Definition set_clock (t : Z) (W : World) : World :=
  mkWorld (route W) (mounted W) (editor W) (provider W) (timers W) (nextHandle W)
          (ids W) (formatDate W) t.

Definition setWorkout (w : Workout) (W : World) : World :=
  let e := editor W in
  set_editor (mkEditor w (loadedIdRef e) (isHydratingRef e) (isDirtyRef e)
                       (editSeqRef e) (autosaveTimerRef e)) W.

Definition set_loadedId (l : option string) (W : World) : World :=
  let e := editor W in
  set_editor (mkEditor (workout e) l (isHydratingRef e) (isDirtyRef e)
                       (editSeqRef e) (autosaveTimerRef e)) W.

Definition set_isHydrating (b : bool) (W : World) : World :=
  let e := editor W in
  set_editor (mkEditor (workout e) (loadedIdRef e) b (isDirtyRef e)
                       (editSeqRef e) (autosaveTimerRef e)) W.

Definition set_isDirty (b : bool) (W : World) : World :=
  let e := editor W in
  set_editor (mkEditor (workout e) (loadedIdRef e) (isHydratingRef e) b
                       (editSeqRef e) (autosaveTimerRef e)) W.

Definition set_autosaveTimer (h : option positive) (W : World) : World :=
  let e := editor W in
  set_editor (mkEditor (workout e) (loadedIdRef e) (isHydratingRef e) (isDirtyRef e)
                       (editSeqRef e) h) W.

Definition markDirty (W : World) : World :=
  let e := editor W in
  set_editor (mkEditor (workout e) (loadedIdRef e) (isHydratingRef e) true
                       (S (editSeqRef e)) (autosaveTimerRef e)) W.

(** [window.setTimeout(action, delay)]; returns the new handle. *)
Definition setTimeout (a : TimerAction) (delay : Z) (W : World) : positive * World :=
  let h := nextHandle W in
  (h, mkWorld (route W) (mounted W) (editor W) (provider W)
              (timers W ++ [mkTimer h (clock W + delay) a]) (Pos.succ h)
              (ids W) (formatDate W) (clock W)).

Definition clearTimeout (h : positive) (W : World) : World :=
  set_timers (filter (fun t => negb (Pos.eqb (handle t) h)) (timers W)) W.

(** [saveWorkoutToContext(w)], as the closure of a render whose [workouts]
    was [ws]. *)
Definition saveWorkoutToContext (ws : list Workout) (w : Workout) (W : World) : World :=
  if existsb (has_id (w_id w)) ws
  then set_provider (updateWorkout w (provider W)) W
  else set_provider (addWorkout w (provider W)) W.

(** The draft [useState] starts from and the "new" route re-creates. *)
Definition fresh_draft (newId date : string) : Workout :=
  mkWorkout newId date "New Workout" "" [] false 0 None.

(** [loadedIdRef.current === id] *)
Definition loaded_is (id : string) (e : Editor) : bool :=
  match loadedIdRef e with
  | Some l => String.eqb l id
  | None => false
  end.

(** The hydration effect (dependencies [[id, workouts]]).  [setWorkout] inside
    an effect is applied by the next render: the requested draft is returned
    beside the world.  ([setCurrentTime] only feeds the clock display.) *)
Definition hydration_effect (W : World) : World * option Workout :=
  match route W with
  | None => (W, None)
  | Some id =>
      if String.eqb id "" then (W, None)
      else if String.eqb id "new" then
        if loaded_is "new" (editor W) then (W, None)
        else
          let W1 := set_isDirty false (set_isHydrating true W) in
          let '(newId, s1) := generateId (ids W1) in
          let draft := fresh_draft newId (formatDate W (clock W)) in
          let W2 := set_loadedId (Some "new") (set_ids s1 W1) in
          let '(_, W3) := setTimeout ClearHydrating 0 W2 in
          (W3, Some draft)
      else if loaded_is id (editor W) then (W, None)
      else if isDirtyRef (editor W) then (W, None)
      else
        match find (has_id id) (workouts (provider W)) with
        | None => (W, None)
        | Some existing =>
            let W1 := set_isHydrating true W in
            let W2 := set_isDirty false (set_loadedId (Some id) W1) in
            let '(_, W3) := setTimeout ClearHydrating 0 W2 in
            (W3, Some existing)
        end
  end.

(** Cleanup of the autosave effect. *)
Definition autosave_cleanup (W : World) : World :=
  match autosaveTimerRef (editor W) with
  | Some h => clearTimeout h W
  | None => W
  end.

(** Body of the autosave effect (dependencies [[workout]]). *)
Definition autosave_effect (W : World) : World :=
  if isHydratingRef (editor W) then W
  else if negb (isDirtyRef (editor W)) then W
  else if (List.length (w_exercises (workout (editor W))) =? 0)%nat then W
  else
    let seq := editSeqRef (editor W) in
    let W1 := autosave_cleanup W in
    let '(h, W2) :=
      setTimeout (AutosaveFlush seq (workout (editor W)) (workouts (provider W)))
                 650 W1 in
    set_autosaveTimer (Some h) W2.

(** One render and the effects it runs.  [wc]: the [workout] state changed;
    [sc]: [id] or [workouts] changed.  Cleanups run before bodies, bodies in
    declaration order; a draft requested by the hydration effect is rendered
    next, which re-runs the autosave effect only. *)
Definition commit (wc sc : bool) (W : World) : World :=
  if negb (mounted W) then W
  else
    let W1 := if wc then autosave_cleanup W else W in
    let '(W2, requested) := if sc then hydration_effect W1 else (W1, None) in
    let W3 := if wc then autosave_effect W2 else W2 in
    match requested with
    | None => W3
    | Some w => autosave_effect (autosave_cleanup (setWorkout w W3))
    end.

(** Unmounting runs the autosave cleanup. *)
Definition unmount (W : World) : World :=
  if negb (mounted W) then W else set_mounted false (autosave_cleanup W).

(** ** Handlers and events of one editor instance *)

Definition is_empty_draft (w : Workout) : bool :=
  (List.length (w_exercises w) =? 0)%nat.

Definition in_store (w : Workout) (W : World) : bool :=
  existsb (has_id (w_id w)) (workouts (provider W)).

(** Handlers that only change the draft: [markDirty(); setWorkout(updated)]. *)
Inductive EditOp :=
| EditTitle (v : string)
| EditNote (v : string)
| RemoveExercise (exId : string)
| UpdateSet (exId setId : string) (f : SetField)
| AddSet (exId : string)
| DeleteSet (exId setId : string).

Definition edit_updated (op : EditOp) (w : Workout) (s : IdSupply)
  : Workout * IdSupply :=
  match op with
  | EditTitle v => (with_title v w, s)
  | EditNote v => (with_note v w, s)
  | RemoveExercise exId => (removeExercise_updated exId w, s)
  | UpdateSet exId setId f => (updateSet_updated exId setId f w, s)
  | AddSet exId => addSet_updated exId w s
  | DeleteSet exId setId => deleteSet_updated exId setId w s
  end.

Definition handleEdit (op : EditOp) (W : World) : World :=
  let '(updated, s1) := edit_updated op (workout (editor W)) (ids W) in
  commit true false (setWorkout updated (markDirty (set_ids s1 W))).

Definition addExercise (defId : string) (W : World) : World :=
  let '(updated, s1) := addExercise_updated defId (workout (editor W)) (ids W) in
  let W1 := setWorkout updated (markDirty (set_ids s1 W)) in
  commit true true (saveWorkoutToContext (workouts (provider W)) updated W1).

Definition toggleTimer (W : World) : World :=
  let w := workout (editor W) in
  if w_completed w then W
  else
    let updated := toggleTimer_updated (clock W) w in
    let W1 := setWorkout updated (markDirty W) in
    if (0 <? List.length (w_exercises updated))%nat
    then commit true true (saveWorkoutToContext (workouts (provider W)) updated W1)
    else commit true false W1.

Definition delete_if_stored (W : World) : World :=
  let w := workout (editor W) in
  if in_store w W then set_provider (deleteWorkout (w_id w) (provider W)) W else W.

Definition handleFinish (W : World) : World :=
  let w := workout (editor W) in
  if is_empty_draft w then unmount (delete_if_stored W)      (* navigate('/') *)
  else
    let updated := handleFinish_updated (clock W) w in
    commit true true
           (saveWorkoutToContext (workouts (provider W)) updated (setWorkout updated W)).

Definition handleResume (W : World) : World :=
  let updated := handleResume_updated (workout (editor W)) in
  commit true true
         (saveWorkoutToContext (workouts (provider W)) updated (setWorkout updated W)).

Definition handleSaveBack (W : World) : World :=
  let w := workout (editor W) in
  if is_empty_draft w then unmount (delete_if_stored W)
  else unmount (saveWorkoutToContext (workouts (provider W)) w W).

(** The autosave closure: flush, then clear the dirty flag when no edit came
    after the render that scheduled it. *)
Definition autosave_callback (seq : nat) (captured : Workout) (ws : list Workout)
           (W : World) : World :=
  let W1 := saveWorkoutToContext ws captured W in
  (* Only clear dirty if nothing changed since this save was scheduled. *)
  if (seq =? editSeqRef (editor W1))%nat then set_isDirty false W1 else W1.

(** The body of a timer closure, and the render its store write causes. *)
Definition run_action (a : TimerAction) (W : World) : World :=
  match a with
  | ClearHydrating => set_isHydrating false W
  | AutosaveFlush seq captured ws =>
      commit false true (autosave_callback seq captured ws W)
  end.

(** A pending timer fires once it is due; firing removes it. *)
Definition fire (h : positive) (W : World) : World :=
  match find (fun t => Pos.eqb (handle t) h) (timers W) with
  | None => W
  | Some t =>
      if (due t <=? clock W)%Z
      then run_action (action t) (clearTimeout h W)
      else W
  end.

Inductive Event :=
| Edit (op : EditOp)
| AddExercise (defId : string)
| ToggleTimer
| Finish
| Resume
| SaveBack
| Refresh (ws : list Workout)    (* [fetchData] replaces the collection *)
| Navigate (id : string)         (* the route parameter changes *)
| TimerFires (h : positive).

Definition refresh (ws : list Workout) (W : World) : World :=
  let p := provider W in
  commit false true (set_provider (mkProvider (user p) ws (calls p) (remote p)) W).

Definition navigate (id : string) (W : World) : World :=
  commit false true (set_route (Some id) W).

(** An event at clock value [t]; the clock never runs backwards.  The user
    can only reach the handlers of a mounted editor. *)
Definition step (t : Z) (ev : Event) (W : World) : World :=
  let W0 := set_clock (Z.max (clock W) t) W in
  match ev with
  | TimerFires h => fire h W0
  | Refresh ws => refresh ws W0
  | _ =>
      if negb (mounted W0) then W0
      else match ev with
           | Edit op => handleEdit op W0
           | AddExercise defId => addExercise defId W0
           | ToggleTimer => toggleTimer W0
           | Finish => handleFinish W0
           | Resume => handleResume W0
           | SaveBack => handleSaveBack W0
           | Navigate id => navigate id W0
           | _ => W0
           end
  end.

Fixpoint run (evs : list (Z * Event)) (W : World) : World :=
  match evs with
  | [] => W
  | (t, ev) :: rest => run rest (step t ev W)
  end.

(** Mounting the editor at route [id]: [useState]'s initial draft, fresh refs,
    then the first render, which runs every effect. *)
Definition mount (id : string) (p : Provider) (s : IdSupply)
           (fmt : Z -> string) (now : Z) : World :=
  let '(newId, s1) := generateId s in
  let e := mkEditor (fresh_draft newId (fmt now)) None false false 0 None in
  commit true true (mkWorld (Some id) true e p [] 1%positive s1 fmt now).

(** ** [useLongPress]

    [startLongPress] is React state: handlers read the value of the last
    render, [setStartLongPress] queues a value for the next one.  An update
    made inside a timeout is rendered in a later task, so rendering is an
    event of its own here: a handler can run between a [setState] and the
    render that publishes it. *)

Module LongPress.

Local Open Scope Q_scope.

Inductive Callback := OnLongPress | OnTap.

Record Hook := mkHook
  { startLongPress : bool;            (* as seen by the handlers of the last render *)
    queued : option bool;             (* [setStartLongPress(v)] not yet rendered *)
    timerRef : option positive;       (* [timerRef.current], [undefined] at first *)
    startPos : option (Q * Q);
    pending : list (positive * Z);    (* live timeouts: handle and due time *)
    nextHandle : positive;
    fired : list Callback }.          (* callbacks invoked so far, oldest first *)

Definition initial : Hook := mkHook false None None None [] 1%positive [].

Definition setStartLongPress (v : bool) (h : Hook) : Hook :=
  mkHook (startLongPress h) (Some v) (timerRef h) (startPos h) (pending h)
         (nextHandle h) (fired h).

Definition set_startPos (p : option (Q * Q)) (h : Hook) : Hook :=
  mkHook (startLongPress h) (queued h) (timerRef h) p (pending h)
         (nextHandle h) (fired h).

Definition invoke (c : Callback) (h : Hook) : Hook :=
  mkHook (startLongPress h) (queued h) (timerRef h) (startPos h) (pending h)
         (nextHandle h) (fired h ++ [c]).

(** [clearTimeout(timerRef.current)] *)
Definition clearTimer (h : Hook) : Hook :=
  match timerRef h with
  | None => h
  | Some k =>
      mkHook (startLongPress h) (queued h) (timerRef h) (startPos h)
             (filter (fun p => negb (Pos.eqb (fst p) k)) (pending h))
             (nextHandle h) (fired h)
  end.

(** [timerRef.current = window.setTimeout(..., ms)] *)
Definition armTimer (ms now : Z) (h : Hook) : Hook :=
  let k := nextHandle h in
  mkHook (startLongPress h) (queued h) (Some k) (startPos h)
         (pending h ++ [(k, (now + ms)%Z)]) (Pos.succ k) (fired h).

Definition cancel (h : Hook) : Hook :=
  if startLongPress h then clearTimer (setStartLongPress false h) else h.

Definition onPointerDown (x y : Q) (h : Hook) : Hook :=
  setStartLongPress true (set_startPos (Some (x, y)) h).

Definition onPointerMove (x y : Q) (h : Hook) : Hook :=
  match startPos h with
  | Some (sx, sy) =>
      if startLongPress h then
        let moveX := Qabs (x - sx) in
        let moveY := Qabs (y - sy) in
        if Js.gt moveX 10 || Js.gt moveY 10 then cancel h else h
      else h
  | None => h
  end.

Definition onPointerUp (h : Hook) : Hook :=
  let h1 :=
    if startLongPress h then
      let h2 := setStartLongPress false h in
      (* Only trigger click if the timer hasn't fired yet *)
      match timerRef h2 with
      | Some _ => invoke OnTap (clearTimer h2)
      | None => h2
      end
    else h in
  set_startPos None h1.

Definition onPointerLeave (h : Hook) : Hook := cancel h.

(** The timeout closure: [haptic(10); callback(); setStartLongPress(false)]. *)
Definition timeout_body (h : Hook) : Hook :=
  setStartLongPress false (invoke OnLongPress h).

Definition fire (k : positive) (now : Z) (h : Hook) : Hook :=
  match find (fun p => Pos.eqb (fst p) k) (pending h) with
  | Some (_, d) =>
      if (d <=? now)%Z then
        timeout_body
          (mkHook (startLongPress h) (queued h) (timerRef h) (startPos h)
                  (filter (fun p => negb (Pos.eqb (fst p) k)) (pending h))
                  (nextHandle h) (fired h))
      else h
  | None => h
  end.

(** A render publishes the queued state.  The effect (dependencies
    [[startLongPress, callback, ms]]) re-runs when the state changed or when
    the caller passed new closures ([depsChanged]): cleanup, then body. *)
Definition render (ms now : Z) (depsChanged : bool) (h : Hook) : Hook :=
  let v := match queued h with Some b => b | None => startLongPress h end in
  let h1 := mkHook v None (timerRef h) (startPos h) (pending h)
                   (nextHandle h) (fired h) in
  if negb (Bool.eqb v (startLongPress h)) || depsChanged then
    let h2 := clearTimer h1 in
    if v then armTimer ms now h2 else clearTimer h2
  else h1.

Inductive Event :=
| PointerDown (x y : Q)
| PointerMove (x y : Q)
| PointerUp
| PointerLeave
| TimerFires (k : positive)
| Render (depsChanged : bool).

Definition step (ms : Z) (now : Z) (ev : Event) (h : Hook) : Hook :=
  match ev with
  | PointerDown x y => onPointerDown x y h
  | PointerMove x y => onPointerMove x y h
  | PointerUp => onPointerUp h
  | PointerLeave => onPointerLeave h
  | TimerFires k => fire k now h
  | Render d => render ms now d h
  end.

Fixpoint run (ms : Z) (evs : list (Z * Event)) (h : Hook) : Hook :=
  match evs with
  | [] => h
  | (now, ev) :: rest => run ms rest (step ms now ev h)
  end.

End LongPress.

(** ** [useSwipe] *)

Module Swipe.

Local Open Scope Q_scope.

Inductive Direction := SwipeUp | SwipeDown | SwipeLeft | SwipeRight.

(** Which of the optional callbacks the caller supplied. *)
Record Callbacks := mkCallbacks
  { onSwipeUp : bool; onSwipeDown : bool; onSwipeLeft : bool; onSwipeRight : bool }.

Record Hook := mkHook
  { touchStart : option (Q * Q); touchEnd : option (Q * Q) }.

Definition minSwipeDistance : Q := 50.

Definition onPointerDown (x y : Q) (h : Hook) : Hook := mkHook (Some (x, y)) None.

Definition onPointerMove (x y : Q) (h : Hook) : Hook :=
  mkHook (touchStart h) (Some (x, y)).

(** The callbacks [onPointerUp] invokes, in order. *)
Definition onPointerUp (cb : Callbacks) (h : Hook) : list Direction :=
  match touchStart h, touchEnd h with
  | Some (sx, sy), Some (ex, ey) =>
      let distanceX := sx - ex in
      let distanceY := sy - ey in
      let isHorizontal := Js.gt (Qabs distanceX) (Qabs distanceY) in
      if isHorizontal then
        if Js.lt (Qabs distanceX) minSwipeDistance then []
        else (if Js.gt distanceX 0 && onSwipeLeft cb then [SwipeLeft] else [])
          ++ (if Js.lt distanceX 0 && onSwipeRight cb then [SwipeRight] else [])
      else
        if Js.lt (Qabs distanceY) minSwipeDistance then []
        else (if Js.gt distanceY 0 && onSwipeUp cb then [SwipeUp] else [])
          ++ (if Js.lt distanceY 0 && onSwipeDown cb then [SwipeDown] else [])
  | _, _ => []
  end.

Definition all_callbacks : Callbacks := mkCallbacks true true true true.

End Swipe.

(** ** [SwipeableItem] *)

Module Reveal.

Local Open Scope Q_scope.

Definition ACTION_WIDTH : Q := 128.
Definition OPEN_THRESHOLD : Q := Js.max 18 (ACTION_WIDTH * 0.18).
Definition VELOCITY_OPEN : Q := 0.55.
Definition BOOST : Q := 1.25.

Inductive Axis := AxisX | AxisY.

Record Item := mkItem
  { offsetXRef : Q;                 (* [offsetXRef.current]; [offsetX] mirrors it a frame later *)
    isDragging : bool;
    lockedAxis : option Axis;
    start : Q * Q;
    startTime : Q;                  (* [performance.now()] at pointer-down *)
    baseOffset : Q }.

Definition initial : Item := mkItem 0 false None (0, 0) 0 0.

Definition setOffset (x : Q) (it : Item) : Item :=
  let v := x in
  let v := if Js.gt v ACTION_WIDTH then ACTION_WIDTH + (v - ACTION_WIDTH) * 0.12 else v in
  let v := if Js.lt v (- ACTION_WIDTH) then - ACTION_WIDTH + (v + ACTION_WIDTH) * 0.12 else v in
  let clamped := Js.max (- ACTION_WIDTH) (Js.min ACTION_WIDTH v) in
  mkItem clamped (isDragging it) (lockedAxis it) (start it) (startTime it) (baseOffset it).

Definition close : Item -> Item := setOffset 0.
Definition openLeft : Item -> Item := setOffset (- ACTION_WIDTH).
Definition openRight : Item -> Item := setOffset ACTION_WIDTH.

Definition setLockedAxis (a : option Axis) (it : Item) : Item :=
  mkItem (offsetXRef it) (isDragging it) a (start it) (startTime it) (baseOffset it).

Definition setIsDragging (b : bool) (it : Item) : Item :=
  mkItem (offsetXRef it) b (lockedAxis it) (start it) (startTime it) (baseOffset it).

Definition handlePointerDown (x y now : Q) (it : Item) : Item :=
  mkItem (offsetXRef it) true None (x, y) now (offsetXRef it).

(** The handler reads the [lockedAxis] of the last render: the move that
    locks the axis does not drag yet. *)
Definition handlePointerMove (x y : Q) (it : Item) : Item :=
  if negb (isDragging it) then it
  else
    let dx := x - fst (start it) in
    let dy := y - snd (start it) in
    match lockedAxis it with
    | None =>
        let adx := Qabs dx in
        let ady := Qabs dy in
        if Js.lt adx 6 && Js.lt ady 6 then it
        else if Js.gt adx (ady * 1.2) then setLockedAxis (Some AxisX) it
        else setLockedAxis (Some AxisY) it
    | Some AxisX => setOffset (baseOffset it + dx * BOOST) it
    | Some AxisY => it
    end.

(** Where a released horizontal drag comes to rest: current offset [x],
    offset at pointer-down [base], [elapsed] milliseconds since pointer-down. *)
Definition settle (x base elapsed : Q) (it : Item) : Item :=
  let dt := Js.max 1 elapsed in
  let dx := x - base in
  let v := Qabs dx / dt in
  if Js.gt x OPEN_THRESHOLD || (Js.gt dx 12 && Js.gt v VELOCITY_OPEN) then openRight it
  else if Js.lt x (- OPEN_THRESHOLD) || (Js.lt dx (-12) && Js.gt v VELOCITY_OPEN)
       then openLeft it
       else close it.

Definition handlePointerUp (now : Q) (it : Item) : Item :=
  if negb (isDragging it) then it
  else
    let it1 := setIsDragging false it in
    match lockedAxis it with
    | Some AxisX =>
        setLockedAxis None
          (settle (offsetXRef it1) (baseOffset it1) (now - startTime it1) it1)
    | _ =>
        (* If an action is open, a simple tap closes it. *)
        setLockedAxis None
          (if negb (Qeq_bool (offsetXRef it1) 0) then close it1 else it1)
    end.

End Reveal.


(** The debounce timers among the pending ones. *)
Definition is_autosave (t : Timer) : bool :=
  match action t with
  | AutosaveFlush _ _ _ => true
  | ClearHydrating => false
  end.

Definition autosave_timers (W : World) : list Timer := filter is_autosave (timers W).

(** The worlds an editor instance can be in. *)
Inductive reachable : World -> Prop :=
| reach_mount (id : string) (p : Provider) (s : IdSupply) (fmt : Z -> string) (now : Z) :
    reachable (mount id p s fmt now)
| reach_step (t : Z) (ev : Event) (W : World) :
    reachable W -> reachable (step t ev W).

(** A session in which React renders after every event, before the next one
    is handled. *)
Fixpoint rendered_run (ms : Z) (evs : list (Z * LongPress.Event)) (h : LongPress.Hook)
  : LongPress.Hook :=
  match evs with
  | [] => h
  | (now, ev) :: rest =>
      rendered_run ms rest (LongPress.render ms now false (LongPress.step ms now ev h))
  end.

Definition is_pointer_down (ev : LongPress.Event) : bool :=
  match ev with
  | LongPress.PointerDown _ _ => true
  | _ => false
  end.

Definition pointer_downs (evs : list (Z * LongPress.Event)) : nat :=
  List.length (filter (fun e => is_pointer_down (snd e)) evs).
(** ** Sample data *)

Definition sample_set : WSet := mkSet "s1" 60 5 true.

Definition sample_exercise : ExerciseInstance := mkEx "e1" "1" [sample_set].

Definition sample_workout : Workout :=
  mkWorkout "w1" "2024-01-01" "Push day" "" [sample_exercise] true 120 None.

Definition sample_store : Provider := mkProvider true [sample_workout] [] [].

Definition sample_ids : IdSupply :=
  mkIds (fun n => String (Ascii.ascii_of_nat (97 + n)) "") 0.

Definition sample_format (t : Z) : string := "2024-01-02".

(** The editor opened on the stored workout, past the hydration tick. *)
Definition sample_loaded_world : World :=
  run [(1%Z, TimerFires 1%positive)]
      (mount "w1" sample_store sample_ids sample_format 0%Z).

(** The same editor after the user retitled the draft. *)
Definition sample_dirty_world : World :=
  run [(1000%Z, Edit (EditTitle "Pull day"))] sample_loaded_world.

(** What a remote refresh could deliver for the same identity. *)
Definition sample_remote_workout : Workout :=
  mkWorkout "w1" "2024-01-01" "Remote title" "synced" [sample_exercise] true 300 None.

(** An editor opened on the "new" route, past the hydration tick. *)
Definition sample_new_world : World :=
  run [(1%Z, TimerFires 1%positive)]
      (mount "new" (mkProvider true [] [] []) sample_ids sample_format 0%Z).

(** A new draft whose only exercise was added and removed again. *)
Definition sample_emptied_world : World :=
  run [(1000%Z, AddExercise "1"); (2000%Z, Edit (RemoveExercise "c"))]
      sample_new_world.


(** A draft whose timer was started at clock value 1000. *)
Definition sample_running_draft : Workout :=
  mkWorkout "w3" "2024-01-03" "Legs" "" [sample_exercise] false 0 (Some 1000%Q).

(** A row that rests open to the right, grabbed and flicked 60 px to the
    left: the first move locks the axis, the second drags the row to offset
    [128 - 60 * 1.25 = 53]. *)
Definition sample_flicked_item : Reveal.Item :=
  Reveal.handlePointerMove 140 300
    (Reveal.handlePointerMove 190 300
       (Reveal.handlePointerDown 200 300 0 (Reveal.openRight Reveal.initial))).

(** A store with a second workout, and an editor that was opened on the
    first one and then routed to the second, past both hydration ticks. *)
Definition sample_second_workout : Workout :=
  mkWorkout "w2" "2024-01-02" "Legs" "" [sample_exercise] false 0 None.

Definition sample_visited_world : World :=
  run [(1%Z, TimerFires 1%positive); (2000%Z, Navigate "w2");
       (2001%Z, TimerFires 2%positive)]
      (mount "w1" (mkProvider true [sample_workout; sample_second_workout] [] [])
             sample_ids sample_format 0%Z).

(** The mirror image: a row resting open to the left, grabbed and flicked
    60 px to the right, to offset [-128 + 60 * 1.25 = -53]. *)
Definition sample_flicked_back_item : Reveal.Item :=
  Reveal.handlePointerMove 260 300
    (Reveal.handlePointerMove 210 300
       (Reveal.handlePointerDown 200 300 0 (Reveal.openLeft Reveal.initial))).

(** A closed row nudged 10 px to the right: the move to 7 px locks the axis,
    the move to 10 px drags the row to offset [10 * 1.25 = 12.5]. *)
Definition sample_nudged_item : Reveal.Item :=
  Reveal.handlePointerMove 10 0
    (Reveal.handlePointerMove 7 0
       (Reveal.handlePointerDown 0 0 0 Reveal.initial)).

(** A press at [(x, y)] at time [t0] held for the full [ms]; the pointer goes
    up in the tick in which the timeout ran, before React rendered again. *)
Definition race_session (ms t0 : Z) (x y : Q) : list (Z * LongPress.Event) :=
  [(t0, LongPress.PointerDown x y); (t0, LongPress.Render false);
   ((t0 + ms)%Z, LongPress.TimerFires 1%positive); ((t0 + ms)%Z, LongPress.PointerUp);
   ((t0 + ms)%Z, LongPress.Render false)].

Definition sample_race : list (Z * LongPress.Event) := race_session 500 0 10 10.

(** The same press with the render between the timeout and the pointer-up. *)
Definition sample_hold : list (Z * LongPress.Event) :=
  [(0%Z, LongPress.PointerDown 10 10); (0%Z, LongPress.Render false);
   (500%Z, LongPress.TimerFires 1%positive); (500%Z, LongPress.Render false);
   (600%Z, LongPress.PointerUp); (600%Z, LongPress.Render false)].

(** The loaded editor after the collection was emptied, the draft retitled,
    and the collection refilled by a refresh before the debounce timer ran. *)
Definition sample_stale_world : World :=
  run [(500%Z, Refresh []); (1000%Z, Edit (EditTitle "Pull day"));
       (1200%Z, Refresh [sample_remote_workout])]
      sample_loaded_world.

(** ** Predicates used to state the properties *)

(** A copied set keeps identifier, weight and reps and is not completed. *)
Definition copied_set (s s' : WSet) : Prop :=
  s_id s' = s_id s /\ s_weight s' = s_weight s /\ s_reps s' = s_reps s
  /\ s_completed s' = false.

Definition copied_exercise (ex ex' : ExerciseInstance) : Prop :=
  ex_id ex' = ex_id ex /\ ex_defId ex' = ex_defId ex
  /\ Forall2 copied_set (ex_sets ex) (ex_sets ex').

Definition has_sets (ex : ExerciseInstance) : Prop := ex_sets ex <> [].

Definition draft_ok (w : Workout) : Prop := Forall has_sets (w_exercises w).

(** Handles are distinct and below [nextHandle]; a pending debounce timer
    belongs to a mounted editor and is the one [autosaveTimerRef] holds. *)
Definition TimersOk (W : World) : Prop :=
  NoDup (map handle (timers W))
  /\ Forall (fun t => (handle t < nextHandle W)%positive) (timers W)
  /\ forall t, In t (timers W) -> is_autosave t = true ->
       mounted W = true /\ autosaveTimerRef (editor W) = Some (handle t).

Definition no_autosave (W : World) : Prop :=
  forall t, In t (timers W) -> is_autosave t = false.

(** What a pending debounce timer captured is the current draft, which has
    exercises, is dirty, is not being hydrated, at the current edit sequence
    number. *)
Definition Inv (W : World) : Prop :=
  TimersOk W
  /\ forall t seq c ws, In t (timers W) -> action t = AutosaveFlush seq c ws ->
       c = workout (editor W) /\ w_exercises c <> []
       /\ isDirtyRef (editor W) = true /\ isHydratingRef (editor W) = false
       /\ seq = editSeqRef (editor W).

(** The guard of the autosave effect, as a predicate on the editor. *)
Definition autosave_guard (W : World) : bool :=
  negb (isHydratingRef (editor W)) && isDirtyRef (editor W)
  && negb (List.length (w_exercises (workout (editor W))) =? 0)%nat.

Definition timer_events (fs : list (Z * positive)) : list (Z * Event) :=
  map (fun f => (fst f, TimerFires (snd f))) fs.




(** The store call a flush of [w] makes from a render whose [workouts] was
    [ws]: update if the identity is stored, insert otherwise. *)
Definition flush_call (ws : list Workout) (w : Workout) : StoreCall :=
  if existsb (has_id (w_id w)) ws then CallUpdate w else CallAdd w.

(** Between events of such a session: nothing is queued, a live timeout is
    the one [timerRef] holds and exists only while the press is on, and the
    callbacks invoked so far, plus the press still open, are covered by the
    pointer-downs seen. *)
Definition lp_inv (n : nat) (h : LongPress.Hook) : Prop :=
  LongPress.queued h = None
  /\ (forall p, In p (LongPress.pending h) -> LongPress.timerRef h = Some (fst p))
  /\ (LongPress.startLongPress h = false -> LongPress.pending h = [])
  /\ (List.length (LongPress.fired h)
      + (if LongPress.startLongPress h then 1 else 0) <= n)%nat.



(** The condition of [SwipeableItem] for revealing the right action on
    release, from the offset [x], the offset at pointer-down [base] and the
    milliseconds [elapsed] since pointer-down; and its mirror image. *)
Definition opens_right (x base elapsed : Q) : Prop :=
  (Reveal.OPEN_THRESHOLD < x
   \/ (12 < x - base
       /\ Reveal.VELOCITY_OPEN < Qabs (x - base) / Js.max 1 elapsed))%Q.

Definition opens_left (x base elapsed : Q) : Prop :=
  (x < - Reveal.OPEN_THRESHOLD
   \/ (x - base < -12
       /\ Reveal.VELOCITY_OPEN < Qabs (x - base) / Js.max 1 elapsed))%Q.

(** * More of the code *)

From Stdlib Require Import Lqa Qround Ascii SpecFloat.

(** ** Pointer sessions on a [SwipeableItem]

    [onPointerCancel] is bound to [handlePointerUp]; the two action buttons
    behind the row call their callback and then [close]. *)

Definition onClickCapture (it : Reveal.Item) : Reveal.Item :=
  if negb (Qeq_bool (Reveal.offsetXRef it) 0) then Reveal.close it else it.

Inductive RowEvent :=
| RowDown (x y now : Q)
| RowMove (x y : Q)
| RowUp (now : Q)
| RowCancel (now : Q)
| RowClick
| RowButton.

Definition row_step (ev : RowEvent) (it : Reveal.Item) : Reveal.Item :=
  match ev with
  | RowDown x y now => Reveal.handlePointerDown x y now it
  | RowMove x y => Reveal.handlePointerMove x y it
  | RowUp now => Reveal.handlePointerUp now it
  | RowCancel now => Reveal.handlePointerUp now it
  | RowClick => onClickCapture it
  | RowButton => Reveal.close it
  end.

Definition row_run (evs : list RowEvent) (it : Reveal.Item) : Reveal.Item :=
  fold_left (fun i ev => row_step ev i) evs it.

(** The offset is within the reveal width. *)
Definition in_bounds (it : Reveal.Item) : Prop :=
  (- Reveal.ACTION_WIDTH <= Reveal.offsetXRef it
   /\ Reveal.offsetXRef it <= Reveal.ACTION_WIDTH)%Q.

(** The offset is one of the three rest positions. *)
Definition at_rest (it : Reveal.Item) : Prop :=
  (Reveal.offsetXRef it == 0)%Q
  \/ Reveal.offsetXRef it = Reveal.ACTION_WIDTH
  \/ Reveal.offsetXRef it = (- Reveal.ACTION_WIDTH)%Q.

(** ** Pointer sessions on [useLongPress] *)

(** No press is being tracked and no timeout is pending. *)
Definition idle (h : LongPress.Hook) : Prop :=
  LongPress.startLongPress h = false
  /\ LongPress.queued h = None
  /\ LongPress.pending h = [].

(** The events that abandon a press started at [(x, y)]: leaving the
    element, or moving more than 10 px away on either axis. *)
Definition abandons (x y : Q) (ev : LongPress.Event) : Prop :=
  match ev with
  | LongPress.PointerLeave => True
  | LongPress.PointerMove x' y' => (10 < Qabs (x' - x) \/ 10 < Qabs (y' - y))%Q
  | _ => False
  end.

(** Moves that stay within 10 px of [(x, y)] on both axes. *)
Definition jitter (x y : Q) (moves : list (Z * (Q * Q))) : list (Z * LongPress.Event) :=
  map (fun m => (fst m, LongPress.PointerMove (fst (snd m)) (snd (snd m)))) moves.

Definition within_tolerance (x y : Q) (m : Z * (Q * Q)) : Prop :=
  (Qabs (fst (snd m) - x) <= 10 /\ Qabs (snd (snd m) - y) <= 10)%Q.

(** ** The dashboard ([Dashboard]) *)

Module Dashboard.

Definition todaysActiveWorkouts (today : string) (workouts : list Workout)
  : list Workout :=
  filter (fun w => String.eqb (w_date w) today && negb (w_completed w)) workouts.

(** [confirmCopy]: nothing happens without a selected workout. *)
Definition confirmCopy (newId : string) (selectedWorkoutId : option string)
    (targetDate : string) (p : Provider) : Provider :=
  match selectedWorkoutId with
  | Some id => if String.eqb id "" then p else copyWorkout newId id targetDate p
  | None => p
  end.

(** The stack is given [onSwipeUp] and [onSwipeDown] only. *)
Definition stack_callbacks : Swipe.Callbacks := Swipe.mkCallbacks true true false false.

(** The two callbacks, for a stack of [n] cards; [%] is the remainder that
    takes the sign of the dividend. *)
Definition onSwipeUp (n prev : Z) : Z :=
  if (n >? 1)%Z then Z.rem (prev + 1) n else prev.

Definition onSwipeDown (n prev : Z) : Z :=
  if (n >? 1)%Z then Z.rem (prev - 1 + n) n else prev.

Definition swipe (n : Z) (d : Swipe.Direction) (topCardIndex : Z) : Z :=
  match d with
  | Swipe.SwipeUp => onSwipeUp n topCardIndex
  | Swipe.SwipeDown => onSwipeDown n topCardIndex
  | _ => topCardIndex
  end.

(** A pointer-up on the stack, with the gesture the hook has recorded. *)
Definition stack_pointer_up (today : string) (workouts : list Workout)
    (h : Swipe.Hook) (topCardIndex : Z) : Z :=
  let n := Z.of_nat (List.length (todaysActiveWorkouts today workouts)) in
  fold_left (fun i d => swipe n d i) (Swipe.onPointerUp stack_callbacks h) topCardIndex.

(** The card rendered on top: the one whose [index === topCardIndex]. *)
Definition top_card (today : string) (workouts : list Workout) (topCardIndex : Z)
  : option Workout :=
  if (topCardIndex <? 0)%Z then None
  else nth_error (todaysActiveWorkouts today workouts) (Z.to_nat topCardIndex).

End Dashboard.

(** ** Numbers whose rounding matters

    Where the result depends on how a quotient is rounded, a JavaScript number
    is the IEEE 754 binary64 value itself, with the operations of
    [SpecFloat] (round to nearest, ties to even). *)

Module Double.

Definition prec : Z := 53.
Definition emax : Z := 1024.

(** The double nearest to an integer (exact below [2 ^ 53]). *)
Definition of_Z (z : Z) : spec_float := binary_normalize prec emax z 0 false.

Definition div : spec_float -> spec_float -> spec_float := SFdiv prec emax.
Definition mul : spec_float -> spec_float -> spec_float := SFmul prec emax.

(** The exact value of a finite double. *)
Definition to_Q (s : bool) (m : positive) (e : Z) : Q :=
  let n := if s then Z.neg m else Z.pos m in
  match e with
  | Z0 => inject_Z n
  | Zpos k => inject_Z (n * 2 ^ Zpos k)
  | Zneg k => n # (2 ^ k)%positive
  end.

(** The integer a double stands for, if it stands for one. *)
Definition to_int (x : spec_float) : option Z :=
  match x with
  | S754_zero _ => Some 0%Z
  | S754_finite s m e =>
      let n := if s then Z.neg m else Z.pos m in
      match e with
      | Z0 => Some n
      | Zpos k => Some (n * 2 ^ Zpos k)%Z
      | Zneg k => if (n mod 2 ^ Zpos k =? 0)%Z then Some (n / 2 ^ Zpos k)%Z else None
      end
  | _ => None
  end.

Definition eqb (x y : spec_float) : bool :=
  match x, y with
  | S754_zero a, S754_zero b => Bool.eqb a b
  | S754_infinity a, S754_infinity b => Bool.eqb a b
  | S754_nan, S754_nan => true
  | S754_finite a m e, S754_finite b n f => Bool.eqb a b && Pos.eqb m n && Z.eqb e f
  | _, _ => false
  end.

End Double.

(** [Math.round]: the integer nearest to the exact value of [x], a tie going
    to the larger one; a result of zero keeps the sign of [x]; zeros,
    infinities and NaN are returned as they are. *)
Definition Math_round (x : spec_float) : spec_float :=
  match x with
  | S754_finite s m e =>
      let z := Qfloor (Double.to_Q s m e + (1 # 2)) in
      if (z =? 0)%Z then S754_zero s else Double.of_Z z
  | _ => x
  end.

(** ** The session report's figures ([WorkoutEditor])

    The two counts are sums of array lengths, exact as integers; the
    percentage divides, multiplies and rounds as doubles. *)

Definition totalVolume (workout : Workout) : Q :=
  fold_left
    (fun acc ex =>
       acc + fold_left (fun sAcc s => sAcc + s_weight s * s_reps s) (ex_sets ex) 0)%Q
    (w_exercises workout) 0%Q.

Definition totalSets (workout : Workout) : Z :=
  fold_left (fun acc ex => (acc + Z.of_nat (List.length (ex_sets ex)))%Z)
            (w_exercises workout) 0%Z.

Definition completedSets (workout : Workout) : Z :=
  fold_left
    (fun acc ex => (acc + Z.of_nat (List.length (filter s_completed (ex_sets ex))))%Z)
    (w_exercises workout) 0%Z.

Definition percentage (workout : Workout) : spec_float :=
  if (totalSets workout >? 0)%Z
  then Math_round
         (Double.mul (Double.div (Double.of_Z (completedSets workout))
                                 (Double.of_Z (totalSets workout)))
                     (Double.of_Z 100))
  else Double.of_Z 0.

(** The same expression on the two counts, and the check of one pair of
    counts: the result is the double of an integer between 0 and 100, which
    is 100 when the counts agree and 0 when nothing is completed. *)
Definition percentage_of (completed total : Z) : spec_float :=
  if (total >? 0)%Z
  then Math_round
         (Double.mul (Double.div (Double.of_Z completed) (Double.of_Z total))
                     (Double.of_Z 100))
  else Double.of_Z 0.

Definition cell_ok (r : spec_float) (completed total : Z) : bool :=
  match Double.to_int r with
  | Some p =>
      Double.eqb r (Double.of_Z p) && (0 <=? p)%Z && (p <=? 100)%Z
      && (if (completed =? total)%Z then (p =? 100)%Z else true)
      && (if (completed =? 0)%Z then (p =? 0)%Z else true)
  | None => false
  end.

(** Every pair of counts with [1 <= total <= n] and [completed <= total]. *)
Definition table_ok (n : nat) : bool :=
  forallb
    (fun t =>
       forallb (fun c => cell_ok (percentage_of (Z.of_nat c) (Z.of_nat t))
                                 (Z.of_nat c) (Z.of_nat t))
               (seq 0 (S t)))
    (seq 1 n).

(** ** Rows of the remote tables *)

Record WorkoutData := mkWorkoutData
  { data_exercises : list ExerciseInstance;
    data_note : string;
    data_elapsedSeconds : Q;
    data_startTimestamp : option Q }.

Record WorkoutRow := mkWorkoutRow
  { row_id : string;
    row_user_id : string;
    row_date : string;
    row_title : string;
    row_completed : bool;
    row_data : WorkoutData }.

(** The row [addWorkout] and [updateWorkout] upsert. *)
Definition workout_row (user_id : string) (workout : Workout) : WorkoutRow :=
  mkWorkoutRow (w_id workout) user_id (w_date workout) (w_title workout)
               (w_completed workout)
               (mkWorkoutData (w_exercises workout) (w_note workout)
                              (w_elapsedSeconds workout) (w_startTimestamp workout)).

(** [fetchData]: [{ id, date, title, completed, ...row.data }]. *)
Definition parse_workout (row : WorkoutRow) : Workout :=
  mkWorkout (row_id row) (row_date row) (row_title row) (data_note (row_data row))
            (data_exercises (row_data row)) (row_completed row)
            (data_elapsedSeconds (row_data row)) (data_startTimestamp (row_data row)).

(** What [fetchData] leaves in [workouts]; [wData] is null when the query
    failed. *)
Definition fetch_workouts (wData : option (list WorkoutRow)) (workouts : list Workout)
  : list Workout :=
  match wData with
  | Some rows => map parse_workout rows
  | None => workouts
  end.

Inductive MediaType := image | video.

Record ExerciseDef := mkDef
  { d_id : string;
    d_name : string;
    d_description : string;
    d_mediaUrl : option string;
    d_mediaId : option string;
    d_mediaType : option MediaType }.

(** The row [addExerciseDef] upserts; its [data] is the empty object. *)
Record DefRow := mkDefRow
  { dr_id : string;
    dr_user_id : string;
    dr_name : string;
    dr_description : string;
    dr_media_url : option string;
    dr_media_type : option MediaType }.

Definition def_row (user_id : string) (def : ExerciseDef) : DefRow :=
  mkDefRow (d_id def) user_id (d_name def) (d_description def)
           (d_mediaUrl def) (d_mediaType def).

Definition parse_def (row : DefRow) : ExerciseDef :=
  mkDef (dr_id row) (dr_name row) (dr_description row)
        (dr_media_url row) None (dr_media_type row).

(** The fetched definitions replace the local ones only when there are any. *)
Definition fetch_defs (eData : option (list DefRow)) (exerciseDefs : list ExerciseDef)
  : list ExerciseDef :=
  match eData with
  | Some (r :: rows) => map parse_def (r :: rows)
  | _ => exerciseDefs
  end.

(** ** Exercise definitions in the store *)

Inductive DefRemoteOp :=
| DefUpsert (row : DefRow)
| DefDelete (id : string).

Record DefStore := mkDefStore
  { defs_user : option string;            (* the id of the signed-in profile *)
    exerciseDefs : list ExerciseDef;
    defs_remote : list DefRemoteOp }.

Definition addExerciseDef (def : ExerciseDef) (st : DefStore) : DefStore :=
  mkDefStore (defs_user st) (exerciseDefs st ++ [def])
             (match defs_user st with
              | Some uid => defs_remote st ++ [DefUpsert (def_row uid def)]
              | None => defs_remote st
              end).

Definition deleteExerciseDef (id : string) (st : DefStore) : DefStore :=
  mkDefStore (defs_user st)
             (filter (fun d => negb (String.eqb (d_id d) id)) (exerciseDefs st))
             (match defs_user st with
              | Some _ => defs_remote st ++ [DefDelete id]
              | None => defs_remote st
              end).

(** [isUsed] in the exercise picker. *)
Definition isUsed (workouts : list Workout) (def : ExerciseDef) : bool :=
  existsb (fun w => existsb (fun ex => String.eqb (ex_defId ex) (d_id def))
                            (w_exercises w)) workouts.

(** The picker's delete button; [confirmed] is the answer to [confirm]. *)
Definition delete_button (workouts : list Workout) (def : ExerciseDef)
    (confirmed : bool) (st : DefStore) : DefStore :=
  if isUsed workouts def then st
  else if confirmed then deleteExerciseDef (d_id def) st else st.

(** The editor renders an exercise only when its definition is found. *)
Definition rendered_exercise (defs : list ExerciseDef) (ex : ExerciseInstance) : bool :=
  match find (fun d => String.eqb (d_id d) (ex_defId ex)) defs with
  | Some _ => true
  | None => false
  end.

(** ** The profile and its unit preference *)

Module Account.

Inductive Unit := kg | lbs.

Definition unit_name (u : Unit) : string :=
  match u with kg => "kg" | lbs => "lbs" end.

Record AuthUser := mkAuthUser
  { a_id : string;
    a_full_name : option string;       (* [user_metadata.full_name] *)
    a_email : option string;
    a_avatar_url : option string }.    (* [user_metadata.avatar_url] *)

Record UserProfile := mkUser
  { u_id : string;
    u_name : string;
    u_email : string;
    u_photoUrl : string;
    u_defaultUnit : Unit }.

(** [localStorage] *)
Definition Storage := list (string * string).

Definition getItem (key : string) (ls : Storage) : option string :=
  match find (fun kv => String.eqb (fst kv) key) ls with
  | Some kv => Some (snd kv)
  | None => None
  end.

Definition setItem (key value : string) (ls : Storage) : Storage :=
  (key, value) :: filter (fun kv => negb (String.eqb (fst kv) key)) ls.

(** [a || b] on strings that may be undefined. *)
Definition str_or (a : option string) (b : option string) : option string :=
  match a with
  | Some s => if String.eqb s "" then b else Some s
  | None => b
  end.

(** [s.split('@')[0]] *)
Fixpoint before_at (s : string) : string :=
  match s with
  | EmptyString => EmptyString
  | String c rest => if Ascii.eqb c "@"%char then EmptyString else String c (before_at rest)
  end.

(** A value inside a template literal. *)
Definition interpolate (o : option string) : string :=
  match o with Some s => s | None => "undefined" end.

Definition unitKey (id : string) : string := String.append "ironlog_unit_" id.

Definition mapUser (authUser : AuthUser) (ls : Storage) : UserProfile :=
  let savedUnit := getItem (unitKey (a_id authUser)) ls in
  let defaultUnit :=
    match savedUnit with
    | Some s =>
        if String.eqb s "kg" || String.eqb s "lbs"
        then (if String.eqb s "kg" then kg else lbs)
        else lbs
    | None => lbs
    end in
  mkUser (a_id authUser)
         (match str_or (str_or (a_full_name authUser)
                               (option_map before_at (a_email authUser)))
                       (Some "User") with
          | Some s => s
          | None => ""
          end)
         (match str_or (a_email authUser) (Some "") with Some s => s | None => "" end)
         (match str_or (a_avatar_url authUser)
                       (Some (String.append "https://ui-avatars.com/api/?name="
                                (String.append (interpolate (a_email authUser))
                                               "&background=0D8ABC&color=fff"))) with
          | Some s => s
          | None => ""
          end)
         defaultUnit.

Definition toggleUnit (user : option UserProfile) (ls : Storage)
  : option UserProfile * Storage :=
  match user with
  | None => (None, ls)
  | Some u =>
      let newUnit := match u_defaultUnit u with kg => lbs | lbs => kg end in
      (Some (mkUser (u_id u) (u_name u) (u_email u) (u_photoUrl u) newUnit),
       setItem (unitKey (u_id u)) (unit_name newUnit) ls)
  end.

End Account.

(** ** More sample data *)

(** Two plans for the 2nd of January that are still open, beside the
    completed workout of the day before. *)
Definition sample_plans : list Workout :=
  [mkWorkout "p1" "2024-01-02" "Legs" "" [sample_exercise] false 0 None;
   sample_workout;
   mkWorkout "p2" "2024-01-02" "Core" "" [sample_exercise] false 0 None].

(** The built-in exercise definitions, [INITIAL_EXERCISES]. *)
Definition INITIAL_EXERCISES : list ExerciseDef :=
  [mkDef "1" "Bench Press" "Barbell bench press" None None (Some image);
   mkDef "2" "Squat" "Barbell back squat" None None (Some image);
   mkDef "3" "Deadlift" "Conventional deadlift" None None (Some image)].

Definition sample_def_store : DefStore := mkDefStore (Some "u1") INITIAL_EXERCISES [].

Definition sample_auth : Account.AuthUser :=
  Account.mkAuthUser "u1" None (Some "sam@example.org") None.

Definition sample_other_auth : Account.AuthUser :=
  Account.mkAuthUser "u2" (Some "Kim") (Some "kim@example.org") None.

(** A workout of 40 sets, the first 23 of them ticked. *)
Definition sample_long_workout : Workout :=
  mkWorkout "w4" "2024-01-04" "Volume" ""
            [mkEx "e4" "1"
                  (map (fun n => mkSet (gen sample_ids n) 20 10 (n <? 23)%nat) (seq 0 40))]
            false 0 None.

(** * Properties *)

(** ** JavaScript helpers *)

Lemma js_gt_iff (a b : Q) : Js.gt a b = true <-> (b < a)%Q.
Proof.
  unfold Js.gt. rewrite negb_true_iff. split; intro H.
  - apply Qnot_le_lt. intro L. apply Qle_bool_iff in L. congruence.
  - destruct (Qle_bool a b) eqn:E; [|reflexivity].
    apply Qle_bool_iff in E. exfalso. exact (Qlt_not_le _ _ H E).
Qed.

Lemma js_lt_iff (a b : Q) : Js.lt a b = true <-> (a < b)%Q.
Proof. exact (js_gt_iff b a). Qed.

Lemma js_gt_false_iff (a b : Q) : Js.gt a b = false <-> (a <= b)%Q.
Proof. unfold Js.gt. rewrite negb_false_iff. apply Qle_bool_iff. Qed.

Lemma js_lt_false_iff (a b : Q) : Js.lt a b = false <-> (b <= a)%Q.
Proof. exact (js_gt_false_iff b a). Qed.

Lemma num_or_zero (x : Q) : (Js.num_or x 0 == x)%Q.
Proof.
  unfold Js.num_or. destruct (Qeq_bool x 0) eqn:E.
  - apply Qeq_bool_iff in E. symmetry. exact E.
  - reflexivity.
Qed.

Lemma truthy_Some (t : Q) : Js.truthy (Some t) = true <-> ~ (t == 0)%Q.
Proof.
  simpl. rewrite negb_true_iff. split; intro H.
  - intro E. apply Qeq_bool_iff in E. congruence.
  - destruct (Qeq_bool t 0) eqn:E; [|reflexivity].
    apply Qeq_bool_iff in E. contradiction.
Qed.

(** ** Copying a workout *)

Lemma copied_sets (ss : list WSet) : Forall2 copied_set ss (map set_uncompleted ss).
Proof.
  induction ss as [|s ss IH]; simpl; constructor; auto.
  repeat split.
Qed.

Lemma copied_exercises (exs : list ExerciseInstance) :
  Forall2 copied_exercise exs
          (map (fun ex => with_sets (map set_uncompleted (ex_sets ex)) ex) exs).
Proof.
  induction exs as [|ex exs IH]; simpl; constructor; auto.
  repeat split. apply copied_sets.
Qed.

Lemma find_has_id (id : string) (ws : list Workout) (w : Workout) :
  find (has_id id) ws = Some w -> In w ws /\ w_id w = id.
Proof.
  intro H. apply find_some in H. destruct H as [Hin Hid].
  split; [exact Hin|]. unfold has_id in Hid. now apply String.eqb_eq in Hid.
Qed.

Lemma find_has_id_present (id : string) (ws : list Workout) (w : Workout) :
  In w ws -> w_id w = id -> exists source, find (has_id id) ws = Some source.
Proof.
  intros Hin Hid. destruct (find (has_id id) ws) as [s|] eqn:E.
  - now exists s.
  - exfalso. pose proof (find_none _ _ E _ Hin) as H.
    unfold has_id in H. rewrite Hid, String.eqb_refl in H. discriminate.
Qed.

(** C10. [copyWorkout(workoutId, targetDate)] on a store that holds a workout
    with that identifier appends exactly one record to the collection: it
    carries the identifier [generateId()] returned, the target date, is not
    completed, has its timer reset ([elapsedSeconds = 0],
    [startTimestamp = null]) and the exercises of the source with every set
    un-completed, weights and reps kept; the stored workouts, the source among
    them, stay as they were, and the store received that one insert.  When no
    workout has the identifier the store is unchanged. *)
Theorem copyWorkout_adds_reset_copy
        (newId workoutId targetDate : string) (p : Provider) :
  (forall w, In w (workouts p) -> w_id w = workoutId ->
     exists source c,
       find (has_id workoutId) (workouts p) = Some source
       /\ In source (workouts p) /\ w_id source = workoutId
       /\ workouts (copyWorkout newId workoutId targetDate p) = workouts p ++ [c]
       /\ calls (copyWorkout newId workoutId targetDate p) = calls p ++ [CallAdd c]
       /\ w_id c = newId /\ w_date c = targetDate
       /\ w_completed c = false /\ w_elapsedSeconds c = 0%Q
       /\ w_startTimestamp c = None
       /\ w_title c = w_title source /\ w_note c = w_note source
       /\ Forall2 copied_exercise (w_exercises source) (w_exercises c))
  /\ ((forall w, In w (workouts p) -> w_id w <> workoutId) ->
      copyWorkout newId workoutId targetDate p = p).
Proof.
  split.
  - intros w Hin Hid.
    destruct (find_has_id_present _ _ _ Hin Hid) as [source Hf].
    destruct (find_has_id _ _ _ Hf) as [Hs Hsid].
    exists source, (copy_of newId targetDate source).
    unfold copyWorkout. rewrite Hf. simpl.
    repeat split; auto. apply copied_exercises.
  - intro Hnone. unfold copyWorkout.
    destruct (find (has_id workoutId) (workouts p)) as [s|] eqn:E; [|reflexivity].
    destruct (find_has_id _ _ _ E) as [Hs Hsid]. exfalso. exact (Hnone _ Hs Hsid).
Qed.

Lemma copyWorkout_witness :
  exists c,
    workouts (copyWorkout "w2" "w1" "2024-02-02" sample_store)
    = workouts sample_store ++ [c]
    /\ w_id c = "w2" /\ w_completed c = false.
Proof.
  destruct (proj1 (copyWorkout_adds_reset_copy "w2" "w1" "2024-02-02" sample_store)
                  sample_workout) as (source & c & H).
  - simpl. left. reflexivity.
  - reflexivity.
  - exists c. tauto.
Defined.

(** ** Every exercise keeps a set: the draft edits *)













Lemma toggleTimer_updated_exercises (now : Z) (w : Workout) :
  w_exercises (toggleTimer_updated now w) = w_exercises w.
Proof.
  unfold toggleTimer_updated.
  destruct (w_startTimestamp w) as [t|]; [destruct (Js.truthy (Some t))|]; reflexivity.
Qed.

Lemma handleFinish_updated_exercises (now : Z) (w : Workout) :
  w_exercises (handleFinish_updated now w) = w_exercises w.
Proof. reflexivity. Qed.

(** ** Renders and effects: what they leave alone *)

Ltac frame := cbn; repeat split; auto; congruence.

Lemma hydration_effect_frame (W : World) :
  let W' := fst (hydration_effect W) in
  provider W' = provider W /\ mounted W' = mounted W /\ route W' = route W
  /\ clock W' = clock W /\ workout (editor W') = workout (editor W)
  /\ editSeqRef (editor W') = editSeqRef (editor W)
  /\ autosaveTimerRef (editor W') = autosaveTimerRef (editor W).
Proof.
  unfold hydration_effect. destruct (route W) as [id|] eqn:Er; [|frame].
  destruct (String.eqb id ""); [frame|].
  destruct (String.eqb id "new").
  - destruct (loaded_is "new" (editor W)); unfold generateId, setTimeout; frame.
  - destruct (loaded_is id (editor W)); [frame|].
    destruct (isDirtyRef (editor W)) eqn:Ed; [frame|].
    destruct (find (has_id id) (workouts (provider W)));
      unfold setTimeout; frame.
Qed.

Lemma autosave_cleanup_frame (W : World) :
  let W' := autosave_cleanup W in
  provider W' = provider W /\ mounted W' = mounted W /\ route W' = route W
  /\ clock W' = clock W /\ editor W' = editor W /\ ids W' = ids W
  /\ nextHandle W' = nextHandle W.
Proof.
  unfold autosave_cleanup. destruct (autosaveTimerRef (editor W)) eqn:E; frame.
Qed.

Lemma autosave_effect_frame (W : World) :
  let W' := autosave_effect W in
  provider W' = provider W /\ mounted W' = mounted W /\ route W' = route W
  /\ clock W' = clock W /\ workout (editor W') = workout (editor W)
  /\ isDirtyRef (editor W') = isDirtyRef (editor W)
  /\ isHydratingRef (editor W') = isHydratingRef (editor W)
  /\ editSeqRef (editor W') = editSeqRef (editor W)
  /\ loadedIdRef (editor W') = loadedIdRef (editor W).
Proof.
  unfold autosave_effect.
  destruct (isHydratingRef (editor W)) eqn:Eh; [frame|].
  destruct (negb (isDirtyRef (editor W))) eqn:Ed; [frame|].
  destruct (List.length (w_exercises (workout (editor W))) =? 0)%nat; [frame|].
  unfold autosave_cleanup. destruct (autosaveTimerRef (editor W)) eqn:Ea; frame.
Qed.

(** Renders never write to the store. *)
Lemma commit_provider (wc sc : bool) (W : World) :
  provider (commit wc sc W) = provider W.
Proof.
  unfold commit. destruct (negb (mounted W)); [reflexivity|].
  set (W1 := if wc then autosave_cleanup W else W).
  assert (H1 : provider W1 = provider W).
  { subst W1. destruct wc; [apply autosave_cleanup_frame|reflexivity]. }
  destruct (if sc then hydration_effect W1 else (W1, None)) as [W2 req] eqn:E.
  assert (H2 : provider W2 = provider W).
  { destruct sc.
    - pose proof (hydration_effect_frame W1) as F. rewrite E in F. cbn in F.
      destruct F as [F _]. congruence.
    - inversion E; subst. exact H1. }
  set (W3 := if wc then autosave_effect W2 else W2).
  assert (H3 : provider W3 = provider W).
  { subst W3. destruct wc; [|exact H2].
    destruct (autosave_effect_frame W2) as [F _]. congruence. }
  destruct req as [w|]; [|exact H3].
  destruct (autosave_effect_frame (autosave_cleanup (setWorkout w W3))) as [F _].
  rewrite F. destruct (autosave_cleanup_frame (setWorkout w W3)) as [G _].
  rewrite G. exact H3.
Qed.

Lemma commit_mounted (wc sc : bool) (W : World) :
  mounted (commit wc sc W) = mounted W.
Proof.
  unfold commit. destruct (negb (mounted W)); [reflexivity|].
  set (W1 := if wc then autosave_cleanup W else W).
  assert (H1 : mounted W1 = mounted W).
  { subst W1. destruct wc; [apply autosave_cleanup_frame|reflexivity]. }
  destruct (if sc then hydration_effect W1 else (W1, None)) as [W2 req] eqn:E.
  assert (H2 : mounted W2 = mounted W).
  { destruct sc.
    - pose proof (hydration_effect_frame W1) as F. rewrite E in F. cbn in F.
      destruct F as (_ & F & _). congruence.
    - inversion E; subst. exact H1. }
  set (W3 := if wc then autosave_effect W2 else W2).
  assert (H3 : mounted W3 = mounted W).
  { subst W3. destruct wc; [|exact H2].
    destruct (autosave_effect_frame W2) as (_ & F & _). congruence. }
  destruct req as [w|]; [|exact H3].
  destruct (autosave_effect_frame (autosave_cleanup (setWorkout w W3))) as (_ & F & _).
  rewrite F. destruct (autosave_cleanup_frame (setWorkout w W3)) as (_ & G & _).
  rewrite G. exact H3.
Qed.

(** ** The pending timers of a reachable editor *)

Lemma no_autosave_Inv (W : World) : TimersOk W -> no_autosave W -> Inv W.
Proof.
  intros H N. split; [exact H|]. intros t seq c ws Hin Ha.
  specialize (N t Hin). unfold is_autosave in N. rewrite Ha in N. discriminate.
Qed.

Lemma NoDup_map_filter {A B : Type} (f : A -> B) (g : A -> bool) (l : list A) :
  NoDup (map f l) -> NoDup (map f (filter g l)).
Proof.
  induction l as [|x l IH]; simpl; intro H; [constructor|].
  inversion H as [|? ? Hn Hd]; subst. destruct (g x); simpl.
  - constructor; [|auto]. intro Hin. apply Hn.
    apply in_map_iff in Hin. destruct Hin as (y & Hy & Hin).
    apply filter_In in Hin. apply in_map_iff. exists y. tauto.
  - auto.
Qed.

Lemma clearTimeout_TimersOk (h : positive) (W : World) :
  TimersOk W -> TimersOk (clearTimeout h W).
Proof.
  intros (Hnd & Hfr & Htr). unfold TimersOk, clearTimeout. cbn.
  split; [now apply NoDup_map_filter|]. split.
  - apply Forall_forall. intros t Hin. apply filter_In in Hin.
    rewrite Forall_forall in Hfr. apply Hfr. tauto.
  - intros t Hin Ha. apply filter_In in Hin. apply Htr; tauto.
Qed.

Lemma autosave_cleanup_TimersOk (W : World) :
  TimersOk W -> TimersOk (autosave_cleanup W) /\ no_autosave (autosave_cleanup W).
Proof.
  intros H. unfold autosave_cleanup.
  destruct (autosaveTimerRef (editor W)) as [h|] eqn:E.
  - split; [now apply clearTimeout_TimersOk|].
    intros t Hin. unfold clearTimeout in Hin. cbn in Hin.
    apply filter_In in Hin. destruct Hin as [Hin Hne].
    destruct (is_autosave t) eqn:Ea; [|reflexivity].
    destruct H as (_ & _ & Htr). destruct (Htr t Hin Ea) as [_ Hr].
    rewrite E in Hr. inversion Hr; subst. rewrite Pos.eqb_refl in Hne. discriminate.
  - split; [exact H|]. intros t Hin.
    destruct (is_autosave t) eqn:Ea; [|reflexivity].
    destruct H as (_ & _ & Htr). destruct (Htr t Hin Ea) as [_ Hr]. congruence.
Qed.

Lemma fresh_handle_not_in (W : World) :
  Forall (fun t => (handle t < nextHandle W)%positive) (timers W) ->
  ~ In (nextHandle W) (map handle (timers W)).
Proof.
  intros Hfr Hin. apply in_map_iff in Hin. destruct Hin as (t & Ht & Hin).
  rewrite Forall_forall in Hfr. specialize (Hfr t Hin). lia.
Qed.

Lemma NoDup_snoc {A : Type} (l : list A) (x : A) :
  NoDup l -> ~ In x l -> NoDup (l ++ [x]).
Proof.
  intros Hl Hx. induction l as [|y l IH]; simpl.
  - constructor; [intros []|constructor].
  - inversion Hl as [|? ? Hn Hd]; subst. constructor.
    + intro Hin. apply in_app_or in Hin. destruct Hin as [Hin|[Hin|[]]].
      * contradiction.
      * subst. apply Hx. now left.
    + apply IH; [exact Hd|]. intro Hin. apply Hx. now right.
Qed.

(** Scheduling the hydration tick. *)
Lemma setTimeout_tick_TimersOk (W : World) :
  TimersOk W -> TimersOk (snd (setTimeout ClearHydrating 0 W)).
Proof.
  intros (Hnd & Hfr & Htr). unfold TimersOk, setTimeout. cbn.
  split; [|split].
  - rewrite map_app. cbn. apply NoDup_snoc; [exact Hnd|].
    now apply fresh_handle_not_in.
  - apply Forall_app. split.
    + eapply Forall_impl; [|exact Hfr]. cbn. intros t Ht. lia.
    + constructor; [cbn; lia|constructor].
  - intros t Hin Ha. apply in_app_or in Hin. destruct Hin as [Hin|[Hin|[]]].
    + now apply Htr.
    + subst t. discriminate.
Qed.

Lemma setTimeout_tick_no_autosave (W : World) :
  no_autosave W -> no_autosave (snd (setTimeout ClearHydrating 0 W)).
Proof.
  intros N t Hin. unfold setTimeout in Hin. cbn in Hin.
  apply in_app_or in Hin. destruct Hin as [Hin|[Hin|[]]]; [now apply N|].
  subst t. reflexivity.
Qed.

(** The hydration effect touches neither [mounted] nor [autosaveTimerRef]
    and only adds its own tick to the timers. *)
Lemma hydration_effect_timers (W : World) :
  let W' := fst (hydration_effect W) in
  (TimersOk W -> TimersOk W') /\ (no_autosave W -> no_autosave W')
  /\ (snd (hydration_effect W) = None -> W' = W)
  /\ (snd (hydration_effect W) <> None ->
      isHydratingRef (editor W') = true /\ isDirtyRef (editor W') = false).
Proof.
  unfold hydration_effect. destruct (route W) as [id|] eqn:Er; [|cbn; tauto].
  destruct (String.eqb id ""); [cbn; tauto|].
  destruct (String.eqb id "new").
  - destruct (loaded_is "new" (editor W)); [cbn; tauto|].
    unfold generateId.
    set (W2 := set_loadedId _ _).
    pose proof (setTimeout_tick_TimersOk W2) as T.
    pose proof (setTimeout_tick_no_autosave W2) as N.
    destruct (setTimeout ClearHydrating 0 W2) as [h W3] eqn:E.
    assert (E3 : W3 = snd (setTimeout ClearHydrating 0 W2)) by (rewrite E; reflexivity).
    cbn [fst snd].
    split; [intro H; apply T; exact H|].
    split; [intro H; apply N; exact H|].
    split; [discriminate|].
    intros _. rewrite E3. split; reflexivity.
  - destruct (loaded_is id (editor W)); [cbn; tauto|].
    destruct (isDirtyRef (editor W)) eqn:Ed; [cbn; tauto|].
    destruct (find (has_id id) (workouts (provider W))); [|cbn; tauto].
    set (W2 := set_isDirty _ _).
    pose proof (setTimeout_tick_TimersOk W2) as T.
    pose proof (setTimeout_tick_no_autosave W2) as N.
    destruct (setTimeout ClearHydrating 0 W2) as [h W3] eqn:E.
    assert (E3 : W3 = snd (setTimeout ClearHydrating 0 W2)) by (rewrite E; reflexivity).
    cbn [fst snd].
    split; [intro H; apply T; exact H|].
    split; [intro H; apply N; exact H|].
    split; [discriminate|].
    intros _. rewrite E3. split; reflexivity.
Qed.

Lemma no_autosave_filter (W : World) : no_autosave W <-> autosave_timers W = [].
Proof.
  unfold no_autosave, autosave_timers. split.
  - intro N. induction (timers W) as [|t ts IH]; [reflexivity|]. simpl.
    rewrite (N t (or_introl eq_refl)). apply IH. intros u Hu. apply N. now right.
  - intros E t Hin. destruct (is_autosave t) eqn:Ea; [|reflexivity].
    assert (Hf : In t (filter is_autosave (timers W))) by (apply filter_In; tauto).
    rewrite E in Hf. destruct Hf.
Qed.

Lemma autosave_effect_blocked (W : World) :
  autosave_guard W = false -> autosave_effect W = W.
Proof.
  unfold autosave_guard, autosave_effect. intro H.
  destruct (isHydratingRef (editor W)); [reflexivity|].
  destruct (isDirtyRef (editor W)); [|reflexivity].
  destruct (List.length (w_exercises (workout (editor W))) =? 0)%nat; [reflexivity|].
  discriminate.
Qed.

Lemma autosave_effect_schedules (W : World) :
  autosave_guard W = true ->
  autosave_effect W
  = set_autosaveTimer (Some (nextHandle W))
      (snd (setTimeout (AutosaveFlush (editSeqRef (editor W)) (workout (editor W))
                                      (workouts (provider W)))
                       650 (autosave_cleanup W))).
Proof.
  unfold autosave_guard, autosave_effect. intro H.
  destruct (isHydratingRef (editor W)); [discriminate|].
  destruct (isDirtyRef (editor W)); [|discriminate].
  destruct (List.length (w_exercises (workout (editor W))) =? 0)%nat; [discriminate|].
  cbn. destruct (autosave_cleanup_frame W) as (_ & _ & _ & _ & _ & _ & Hn).
  unfold setTimeout. cbn. rewrite Hn. reflexivity.
Qed.

Lemma autosave_guard_true (W : World) :
  autosave_guard W = true ->
  isHydratingRef (editor W) = false /\ isDirtyRef (editor W) = true
  /\ w_exercises (workout (editor W)) <> [].
Proof.
  unfold autosave_guard. intro H.
  apply andb_true_iff in H. destruct H as [H H3].
  apply andb_true_iff in H. destruct H as [H1 H2].
  apply negb_true_iff in H1. apply negb_true_iff in H3.
  repeat split; auto. intro E. rewrite E in H3. discriminate.
Qed.



Lemma autosave_effect_Inv (W : World) :
  TimersOk W -> no_autosave W -> mounted W = true -> Inv (autosave_effect W).
Proof.
  intros T N M. destruct (autosave_guard W) eqn:G.
  2:{ rewrite (autosave_effect_blocked W G). now apply no_autosave_Inv. }
  rewrite (autosave_effect_schedules W G).
  destruct (autosave_guard_true W G) as (Gh & Gd & Ge).
  destruct (autosave_cleanup_TimersOk W T) as [(Hnd & Hfr & Htr) Nc].
  destruct (autosave_cleanup_frame W) as (_ & Hm & _ & _ & He & _ & Hn).
  cbn in Hm, He, Hn.
  set (Wc := autosave_cleanup W) in *.
  assert (Hold : forall t, In t (timers Wc) -> is_autosave t = true -> False).
  { intros t Hin Ha. rewrite (Nc t Hin) in Ha. discriminate. }
  split.
  - unfold TimersOk, setTimeout. cbn. split; [|split].
    + rewrite map_app. cbn. apply NoDup_snoc; [exact Hnd|].
      now apply fresh_handle_not_in.
    + apply Forall_app. split.
      * eapply Forall_impl; [|exact Hfr]. cbn. intros t Ht. lia.
      * constructor; [cbn; lia|constructor].
    + intros t Hin Ha. apply in_app_or in Hin. destruct Hin as [Hin|[Hin|[]]].
      * exfalso. eauto.
      * subst t. cbn. rewrite Hm, Hn. split; [exact M|reflexivity].
  - intros t seq c ws Hin Ha. unfold setTimeout in Hin. cbn in Hin.
    apply in_app_or in Hin. destruct Hin as [Hin|[Hin|[]]].
    + exfalso. apply (Hold t Hin). unfold is_autosave. now rewrite Ha.
    + subst t. cbn in Ha. inversion Ha; subst. cbn. rewrite He.
      repeat split; auto.
Qed.

Lemma setWorkout_TimersOk (w : Workout) (W : World) :
  TimersOk W -> TimersOk (setWorkout w W).
Proof. intro H. exact H. Qed.

(** A render that re-runs the autosave effect re-establishes the invariant
    from well-formed timers alone. *)
Lemma commit_true_Inv (sc : bool) (W : World) :
  TimersOk W -> Inv (commit true sc W).
Proof.
  intro T. unfold commit. destruct (mounted W) eqn:M; cbn [negb].
  2:{ apply no_autosave_Inv; [exact T|]. intros t Hin.
      destruct (is_autosave t) eqn:Ea; [|reflexivity].
      destruct T as (_ & _ & Htr). destruct (Htr t Hin Ea) as [Hm _]. congruence. }
  destruct (autosave_cleanup_TimersOk W T) as [T1 N1].
  destruct (autosave_cleanup_frame W) as (_ & M1 & _). cbn in M1.
  set (W1 := autosave_cleanup W) in *.
  destruct (hydration_effect_timers W1) as (HT & HN & _).
  destruct (hydration_effect_frame W1) as (_ & M2 & _). cbn in HT, HN, M2.
  assert (E : exists W2 req,
             (if sc then hydration_effect W1 else (W1, None)) = (W2, req)
             /\ TimersOk W2 /\ no_autosave W2 /\ mounted W2 = true).
  { destruct sc.
    - destruct (hydration_effect W1) as [W2 req]. exists W2, req. cbn in *.
      split; [reflexivity|]. split; [auto|]. split; [auto|]. congruence.
    - exists W1, None.
      split; [reflexivity|]. split; [auto|]. split; [auto|]. congruence. }
  destruct E as (W2 & req & E & T2 & N2 & M2'). rewrite E.
  pose proof (autosave_effect_Inv W2 T2 N2 M2') as I3.
  destruct req as [w|]; [|exact I3].
  destruct (autosave_effect_frame W2) as (_ & M3 & _). cbn in M3.
  set (W3 := autosave_effect W2) in *.
  destruct I3 as [T3 _].
  destruct (autosave_cleanup_TimersOk (setWorkout w W3) (setWorkout_TimersOk w W3 T3))
    as [T4 N4].
  apply autosave_effect_Inv; auto.
  destruct (autosave_cleanup_frame (setWorkout w W3)) as (_ & M4 & _). cbn in M4.
  rewrite M4. congruence.
Qed.

(** A render caused by [id] or [workouts] alone keeps the invariant. *)
Lemma commit_false_Inv (sc : bool) (W : World) :
  Inv W -> Inv (commit false sc W).
Proof.
  intro I. unfold commit. destruct (mounted W) eqn:M; cbn [negb]; [|exact I].
  destruct sc; [|exact I].
  destruct (hydration_effect_timers W) as (HT & _ & Hnone & _).
  destruct (hydration_effect_frame W) as (_ & M2 & _). cbn in HT, Hnone, M2.
  destruct (hydration_effect W) as [W2 req]. cbn in *.
  destruct req as [w|].
  - destruct I as [T _].
    destruct (autosave_cleanup_TimersOk (setWorkout w W2) (setWorkout_TimersOk w W2 (HT T)))
      as [T4 N4].
    apply autosave_effect_Inv; auto.
    destruct (autosave_cleanup_frame (setWorkout w W2)) as (_ & M4 & _). cbn in M4.
    rewrite M4. congruence.
  - rewrite (Hnone eq_refl). exact I.
Qed.

Lemma unmounted_no_autosave (W : World) :
  TimersOk W -> mounted W = false -> no_autosave W.
Proof.
  intros (_ & _ & Htr) M t Hin. destruct (is_autosave t) eqn:Ea; [|reflexivity].
  destruct (Htr t Hin Ea) as [Hm _]. congruence.
Qed.

Lemma unmount_no_autosave (W : World) :
  TimersOk W -> TimersOk (unmount W) /\ no_autosave (unmount W)
                /\ mounted (unmount W) = false.
Proof.
  intro T. unfold unmount. destruct (mounted W) eqn:M; cbn [negb].
  - destruct (autosave_cleanup_TimersOk W T) as [(Hnd & Hfr & Htr) N].
    split; [|split; [exact N|reflexivity]].
    split; [exact Hnd|]. split; [exact Hfr|].
    intros t Hin Ha. cbn in Hin. rewrite (N t Hin) in Ha. discriminate.
  - split; [exact T|]. split; [|exact M]. now apply unmounted_no_autosave.
Qed.

Lemma unmount_Inv (W : World) : TimersOk W -> Inv (unmount W).
Proof.
  intro T. destruct (unmount_no_autosave W T) as (T' & N & _).
  now apply no_autosave_Inv.
Qed.

Lemma saveWorkoutToContext_TimersOk (ws : list Workout) (w : Workout) (W : World) :
  TimersOk W -> TimersOk (saveWorkoutToContext ws w W).
Proof.
  intro T. unfold saveWorkoutToContext. destruct (existsb _ ws); exact T.
Qed.

Lemma delete_if_stored_TimersOk (W : World) :
  TimersOk W -> TimersOk (delete_if_stored W).
Proof.
  intro T. unfold delete_if_stored. destruct (in_store _ W); exact T.
Qed.

Lemma clearTimeout_Inv (h : positive) (W : World) : Inv W -> Inv (clearTimeout h W).
Proof.
  intros [T I]. split; [now apply clearTimeout_TimersOk|].
  intros t seq c ws Hin Ha. unfold clearTimeout in Hin. cbn in Hin.
  apply filter_In in Hin. destruct Hin as [Hin _]. exact (I t seq c ws Hin Ha).
Qed.

Lemma find_handle (h : positive) (ts : list Timer) (t : Timer) :
  find (fun x => Pos.eqb (handle x) h) ts = Some t -> In t ts /\ handle t = h.
Proof.
  intro H. apply find_some in H. destruct H as [Hin He].
  split; [exact Hin|]. now apply Pos.eqb_eq.
Qed.

(** Once the debounce timer is taken out, no debounce timer is left. *)
Lemma clearTimeout_autosave_gone (t : Timer) (W : World) :
  TimersOk W -> In t (timers W) -> is_autosave t = true ->
  no_autosave (clearTimeout (handle t) W).
Proof.
  intros (_ & _ & Htr) Hin Ha u Hu. unfold clearTimeout in Hu. cbn in Hu.
  apply filter_In in Hu. destruct Hu as [Hu Hne].
  destruct (is_autosave u) eqn:Eu; [|reflexivity].
  destruct (Htr t Hin Ha) as [_ R1]. destruct (Htr u Hu Eu) as [_ R2].
  rewrite R1 in R2. inversion R2 as [R]. rewrite R, Pos.eqb_refl in Hne. discriminate.
Qed.

Lemma autosave_callback_TimersOk (seq : nat) (c : Workout) (ws : list Workout)
      (W : World) :
  TimersOk W -> TimersOk (autosave_callback seq c ws W).
Proof.
  intro T. unfold autosave_callback.
  pose proof (saveWorkoutToContext_TimersOk ws c W T) as T1.
  destruct (seq =? _)%nat; exact T1.
Qed.

Lemma autosave_callback_timers (seq : nat) (c : Workout) (ws : list Workout)
      (W : World) :
  timers (autosave_callback seq c ws W) = timers W.
Proof.
  unfold autosave_callback, saveWorkoutToContext.
  destruct (existsb _ ws); destruct (seq =? _)%nat; reflexivity.
Qed.

Lemma fire_Inv (h : positive) (W : World) : Inv W -> Inv (fire h W).
Proof.
  intro I. unfold fire.
  destruct (find _ (timers W)) as [t|] eqn:F; [|exact I].
  destruct (due t <=? clock W)%Z; [|exact I].
  destruct (find_handle h _ t F) as [Hin Hh].
  destruct (action t) as [|seq c ws] eqn:A; cbn [run_action].
  - destruct (clearTimeout_Inv h W I) as [T1 I1]. split; [exact T1|].
    intros u seq c ws Hu Ha. destruct (I1 u seq c ws Hu Ha) as (? & ? & ? & ? & ?).
    cbn. repeat split; auto.
  - apply commit_false_Inv. apply no_autosave_Inv.
    + apply autosave_callback_TimersOk. apply clearTimeout_TimersOk. apply I.
    + intros u Hu. rewrite autosave_callback_timers in Hu. subst h.
      apply (clearTimeout_autosave_gone t W); auto; [apply I|].
      unfold is_autosave. now rewrite A.
Qed.

Lemma step_Inv (t : Z) (ev : Event) (W : World) : Inv W -> Inv (step t ev W).
Proof.
  intro I.
  assert (I0 : Inv (set_clock (Z.max (clock W) t) W)) by exact I.
  unfold step. set (W0 := set_clock (Z.max (clock W) t) W) in *.
  assert (T0 : TimersOk W0) by apply I0.
  destruct ev as [op|defId| | | | |ws|id|h];
    try (destruct (mounted W0) eqn:M; cbn [negb]; [|exact I0]).
  - unfold handleEdit. destruct (edit_updated op _ _) as [u s1].
    apply commit_true_Inv. exact T0.
  - unfold addExercise. destruct (addExercise_updated defId _ _) as [u s1].
    apply commit_true_Inv. apply saveWorkoutToContext_TimersOk. exact T0.
  - unfold toggleTimer. destruct (w_completed _); [exact I0|].
    destruct (0 <? _)%nat; apply commit_true_Inv;
      [apply saveWorkoutToContext_TimersOk|]; exact T0.
  - unfold handleFinish. destruct (is_empty_draft _).
    + apply unmount_Inv. now apply delete_if_stored_TimersOk.
    + apply commit_true_Inv. apply saveWorkoutToContext_TimersOk. exact T0.
  - unfold handleResume. apply commit_true_Inv.
    apply saveWorkoutToContext_TimersOk. exact T0.
  - unfold handleSaveBack. destruct (is_empty_draft _); apply unmount_Inv.
    + now apply delete_if_stored_TimersOk.
    + now apply saveWorkoutToContext_TimersOk.
  - unfold refresh. apply commit_false_Inv. exact I0.
  - unfold navigate. apply commit_false_Inv. exact I0.
  - now apply fire_Inv.
Qed.

Lemma mount_Inv (id : string) (p : Provider) (s : IdSupply) (fmt : Z -> string)
      (now : Z) : Inv (mount id p s fmt now).
Proof.
  unfold mount, generateId. apply commit_true_Inv.
  split; [constructor|]. split; [constructor|]. intros t [].
Qed.

Theorem reachable_Inv (W : World) : reachable W -> Inv W.
Proof.
  induction 1 as [id p s fmt now|t ev W _ IH].
  - apply mount_Inv.
  - now apply step_Inv.
Qed.

(** ** Hydration never overwrites a dirty draft *)

Lemma hydration_skips_dirty (W : World) (id : string) :
  route W = Some id -> isDirtyRef (editor W) = true ->
  loaded_is id (editor W) = true \/ id <> "new" ->
  hydration_effect W = (W, None).
Proof.
  intros Hr Hd Hl. unfold hydration_effect. rewrite Hr.
  destruct (String.eqb id ""); [reflexivity|].
  destruct (String.eqb id "new") eqn:En.
  - apply String.eqb_eq in En. subst id.
    destruct Hl as [Hl|Hl]; [|congruence]. now rewrite Hl.
  - destruct (loaded_is id (editor W)); [reflexivity|]. now rewrite Hd.
Qed.

Lemma hydration_skips_loaded (W : World) (id : string) :
  route W = Some id -> loaded_is id (editor W) = true ->
  hydration_effect W = (W, None).
Proof.
  intros Hr Hl. unfold hydration_effect. rewrite Hr.
  destruct (String.eqb id ""); [reflexivity|].
  destruct (String.eqb id "new") eqn:En.
  - apply String.eqb_eq in En. subst id. now rewrite Hl.
  - now rewrite Hl.
Qed.

Lemma hydration_existing_only_when (W W' : World) (id : string) (w : Workout) :
  route W = Some id -> id <> "new" -> hydration_effect W = (W', Some w) ->
  loaded_is id (editor W) = false /\ isDirtyRef (editor W) = false
  /\ find (has_id id) (workouts (provider W)) = Some w
  /\ loaded_is id (editor W') = true /\ isDirtyRef (editor W') = false.
Proof.
  intros Hr Hn. unfold hydration_effect. rewrite Hr.
  destruct (String.eqb id ""); [discriminate|].
  destruct (String.eqb id "new") eqn:En.
  { apply String.eqb_eq in En. contradiction. }
  destruct (loaded_is id (editor W)); [discriminate|].
  destruct (isDirtyRef (editor W)); [discriminate|].
  destruct (find (has_id id) (workouts (provider W))) as [e|]; [|discriminate].
  unfold setTimeout. cbn. intro H. inversion H; subst. cbn.
  unfold loaded_is. cbn. rewrite String.eqb_refl. repeat split.
Qed.

Lemma refresh_without_hydration (ws : list Workout) (W : World) :
  let W1 := set_provider (mkProvider (user (provider W)) ws (calls (provider W))
                                     (remote (provider W))) W in
  hydration_effect W1 = (W1, None) -> refresh ws W = W1.
Proof.
  intros W1 H. unfold refresh, commit. fold W1.
  destruct (negb (mounted W1)); [reflexivity|]. rewrite H. reflexivity.
Qed.

(** C1, as the code has it.  In an editor whose draft is dirty, a refresh of
    the workouts collection, whatever payload it delivers, leaves the editor
    (working copy, lifecycle tags) and its timers as they were when the
    route's identity is the loaded one, and for every existing identity.
    When the hydration effect does load an existing identity, that identity
    was not the one [loadedIdRef] holds, [isDirty] was false, and the draft it
    loads is the stored record; and whenever a stored identity is not the one
    [loadedIdRef] holds and [isDirty] is false, the effect loads it.
    [loadedIdRef] holds one identity, the last one loaded. *)
Theorem dirty_wins_over_hydration (W : World) (id : string) :
  route W = Some id ->
  (isDirtyRef (editor W) = true ->
   loaded_is id (editor W) = true \/ id <> "new" ->
   forall ws, editor (refresh ws W) = editor W
              /\ timers (refresh ws W) = timers W
              /\ workouts (provider (refresh ws W)) = ws
              /\ forall t, editor (step t (Refresh ws) W) = editor W)
  /\ (id <> "new" ->
      forall W' w, hydration_effect W = (W', Some w) ->
        loaded_is id (editor W) = false /\ isDirtyRef (editor W) = false
        /\ find (has_id id) (workouts (provider W)) = Some w)
  /\ (id <> "new" -> id <> "" ->
      forall w, loaded_is id (editor W) = false -> isDirtyRef (editor W) = false ->
        find (has_id id) (workouts (provider W)) = Some w ->
        snd (hydration_effect W) = Some w
        /\ loaded_is id (editor (fst (hydration_effect W))) = true).
Proof.
  intro Hr. split; [|split].
  - intros Hd Hl ws.
    rewrite refresh_without_hydration.
    + repeat split. intro t. unfold step.
      rewrite refresh_without_hydration; [reflexivity|].
      apply hydration_skips_dirty with (id := id); auto.
    + apply hydration_skips_dirty with (id := id); auto.
  - intros Hn W' w H.
    destruct (hydration_existing_only_when W W' id w Hr Hn H) as (A & B & C & _).
    auto.
  - intros Hn He w Hl Hd Hf. unfold hydration_effect. rewrite Hr.
    rewrite (proj2 (String.eqb_neq id "") He).
    rewrite (proj2 (String.eqb_neq id "new") Hn).
    rewrite Hl, Hd, Hf. cbn. unfold loaded_is. cbn.
    rewrite String.eqb_refl. split; reflexivity.
Qed.

Lemma dirty_wins_witness :
  workout (editor (refresh [sample_remote_workout] sample_dirty_world))
  = workout (editor sample_dirty_world)
  /\ w_title (workout (editor sample_dirty_world)) = "Pull day".
Proof.
  destruct (dirty_wins_over_hydration sample_dirty_world "w1" eq_refl) as [H _].
  destruct (H eq_refl (or_introl eq_refl) [sample_remote_workout]) as [E _].
  rewrite E. split; reflexivity.
Defined.

(** C1 as stated fails on the code.  An editor instance opened on ["w1"]
    loads it; routed to ["w2"] it loads that one; routed back to ["w1"], with
    a clean draft, the hydration effect loads ["w1"] a second time, although
    that identity has been loaded in this instance before. *)
Lemma hydration_again_counterexample :
  let W1 := run [(1%Z, TimerFires 1%positive)]
                (mount "w1" (mkProvider true [sample_workout; sample_second_workout] [] [])
                       sample_ids sample_format 0%Z) in
  loaded_is "w1" (editor W1) = true
  /\ workout (editor W1) = sample_workout
  /\ sample_visited_world
     = run [(2000%Z, Navigate "w2"); (2001%Z, TimerFires 2%positive)] W1
  /\ workout (editor sample_visited_world) = sample_second_workout
  /\ isDirtyRef (editor sample_visited_world) = false
  /\ snd (hydration_effect (set_route (Some "w1") sample_visited_world))
     = Some sample_workout
  /\ workout (editor (step 3000 (Navigate "w1") sample_visited_world)) = sample_workout.
Proof. vm_compute. repeat split. Qed.

(** ** The autosave guard *)

Lemma guard_false_cases (W : World) :
  isHydratingRef (editor W) = true \/ isDirtyRef (editor W) = false
  \/ w_exercises (workout (editor W)) = [] ->
  autosave_guard W = false.
Proof.
  unfold autosave_guard. intros [H|[H|H]]; rewrite H; cbn.
  - reflexivity.
  - now rewrite andb_false_r.
  - now rewrite andb_false_r.
Qed.

Lemma Inv_guard_false_no_autosave (W : World) :
  Inv W -> autosave_guard W = false -> no_autosave W.
Proof.
  intros [_ I] G t Hin. destruct (is_autosave t) eqn:Ea; [|reflexivity].
  unfold is_autosave in Ea. destruct (action t) as [|seq c ws] eqn:A; [discriminate|].
  destruct (I t seq c ws Hin A) as (Hc & He & Hd & Hh & _).
  unfold autosave_guard in G. rewrite Hh, Hd in G. cbn in G. subst c.
  destruct (w_exercises (workout (editor W))); [contradiction|discriminate].
Qed.

(** A timer that is not a debounce timer does not write to the store. *)
Lemma fire_no_autosave (h : positive) (W : World) :
  no_autosave W ->
  provider (fire h W) = provider W
  /\ isDirtyRef (editor (fire h W)) = isDirtyRef (editor W)
  /\ workout (editor (fire h W)) = workout (editor W)
  /\ mounted (fire h W) = mounted W
  /\ no_autosave (fire h W).
Proof.
  intro N. unfold fire.
  destruct (find _ (timers W)) as [t|] eqn:F; [|repeat split; auto].
  destruct (due t <=? clock W)%Z; [|repeat split; auto].
  destruct (find_handle h _ t F) as [Hin _].
  pose proof (N t Hin) as Ha. unfold is_autosave in Ha.
  destruct (action t); [|discriminate]. cbn.
  repeat split. intros u Hu. cbn in Hu. apply filter_In in Hu. apply N. tauto.
Qed.

Lemma step_fire (t : Z) (h : positive) (W : World) :
  step t (TimerFires h) W = fire h (set_clock (Z.max (clock W) t) W).
Proof. reflexivity. Qed.

(** With a clean draft, timers alone never reach the store. *)
Lemma clean_timers_no_write (fs : list (Z * positive)) (W : World) :
  Inv W -> isDirtyRef (editor W) = false ->
  provider (run (timer_events fs) W) = provider W.
Proof.
  revert W. induction fs as [|[t h] fs IH]; intros W I D; [reflexivity|].
  cbn [timer_events map run fst snd]. fold (timer_events fs).
  rewrite step_fire.
  set (W0 := set_clock (Z.max (clock W) t) W).
  assert (I0 : Inv W0) by exact I.
  assert (N0 : no_autosave W0).
  { apply Inv_guard_false_no_autosave; [exact I0|].
    apply guard_false_cases. right. left. exact D. }
  destruct (fire_no_autosave h W0 N0) as (Hp & Hd & _).
  rewrite IH.
  - exact Hp.
  - now apply fire_Inv.
  - rewrite Hd. exact D.
Qed.

Lemma hydration_effect_tick (W W' : World) (w : Workout) :
  hydration_effect W = (W', Some w) ->
  isHydratingRef (editor W') = true /\ isDirtyRef (editor W') = false
  /\ provider W' = provider W
  /\ timers W' = timers W ++ [mkTimer (nextHandle W) (clock W + 0) ClearHydrating].
Proof.
  unfold hydration_effect. destruct (route W) as [id|]; [|discriminate].
  destruct (String.eqb id ""); [discriminate|].
  destruct (String.eqb id "new").
  - destruct (loaded_is "new" (editor W)); [discriminate|].
    unfold generateId, setTimeout. cbn. intro H. inversion H; subst. cbn.
    repeat split.
  - destruct (loaded_is id (editor W)); [discriminate|].
    destruct (isDirtyRef (editor W)); [discriminate|].
    destruct (find (has_id id) (workouts (provider W))); [|discriminate].
    unfold setTimeout. cbn. intro H. inversion H; subst. cbn. repeat split.
Qed.

(** C3. The autosave effect does nothing (no timer, no store write) while
    [isHydrating] is true, [isDirty] is false or the draft has no exercises;
    in every reachable world in which one of these holds no debounce timer is
    pending and no timer that fires writes to the store.  A hydration sets
    [isHydrating] and clears [isDirty] without touching the store and leaves
    the reset of [isHydrating] to a zero-delay timer; no render writes to the
    store; and from a reachable world with a clean draft, as hydration
    leaves it, timers alone never reach the store. *)
Theorem autosave_trigger_guard :
  (forall W,
      isHydratingRef (editor W) = true \/ isDirtyRef (editor W) = false
      \/ w_exercises (workout (editor W)) = [] ->
      autosave_effect W = W)
  /\ (forall W,
         reachable W ->
         isHydratingRef (editor W) = true \/ isDirtyRef (editor W) = false
         \/ w_exercises (workout (editor W)) = [] ->
         autosave_timers W = []
         /\ forall h, provider (fire h W) = provider W)
  /\ (forall W W' w,
         hydration_effect W = (W', Some w) ->
         isHydratingRef (editor W') = true /\ isDirtyRef (editor W') = false
         /\ provider W' = provider W
         /\ timers W'
            = timers W ++ [mkTimer (nextHandle W) (clock W + 0) ClearHydrating]
         /\ autosave_effect W' = W')
  /\ (forall wc sc W, provider (commit wc sc W) = provider W)
  /\ (forall W fs,
         reachable W -> isDirtyRef (editor W) = false ->
         provider (run (timer_events fs) W) = provider W).
Proof.
  split; [|split; [|split; [|split]]].
  - intros W H. apply autosave_effect_blocked. now apply guard_false_cases.
  - intros W R H. pose proof (reachable_Inv W R) as I.
    pose proof (Inv_guard_false_no_autosave W I (guard_false_cases W H)) as N.
    split; [now apply no_autosave_filter|].
    intro h. now apply fire_no_autosave.
  - intros W W' w H.
    destruct (hydration_effect_tick W W' w H) as (A & B & C & D).
    repeat split; auto.
    apply autosave_effect_blocked, guard_false_cases. now left.
  - apply commit_provider.
  - intros W fs R D. apply clean_timers_no_write; [now apply reachable_Inv|exact D].
Qed.

Lemma autosave_trigger_guard_witness :
  autosave_timers sample_loaded_world = []
  /\ forall h, provider (fire h sample_loaded_world) = provider sample_loaded_world.
Proof.
  destruct autosave_trigger_guard as (_ & H & _).
  apply (H sample_loaded_world).
  - unfold sample_loaded_world. cbn [run]. apply reach_step. apply reach_mount.
  - right. left. reflexivity.
Defined.

(** ** Leaving with an empty draft *)

Lemma existsb_filter_out (id : string) (ws : list Workout) :
  existsb (has_id id) (filter (fun w => negb (has_id id w)) ws) = false.
Proof.
  induction ws as [|w ws IH]; [reflexivity|]. simpl.
  destruct (has_id id w) eqn:E; simpl; [exact IH|]. now rewrite E.
Qed.

Lemma unmount_provider (W : World) : provider (unmount W) = provider W.
Proof.
  unfold unmount. destruct (negb (mounted W)); [reflexivity|]. cbn.
  apply autosave_cleanup_frame.
Qed.

(** What [handleFinish] and [handleSaveBack] do with a draft without
    exercises. *)
Lemma leave_empty (W : World) :
  TimersOk W -> mounted W = true -> w_exercises (workout (editor W)) = [] ->
  handleFinish W = unmount (delete_if_stored W)
  /\ handleSaveBack W = unmount (delete_if_stored W)
  /\ calls (provider (unmount (delete_if_stored W)))
     = calls (provider W)
         ++ (if in_store (workout (editor W)) W
             then [CallDelete (w_id (workout (editor W)))] else [])
  /\ existsb (has_id (w_id (workout (editor W))))
             (workouts (provider (unmount (delete_if_stored W)))) = false
  /\ mounted (unmount (delete_if_stored W)) = false
  /\ TimersOk (unmount (delete_if_stored W))
  /\ no_autosave (unmount (delete_if_stored W)).
Proof.
  intros T M E.
  assert (Em : is_empty_draft (workout (editor W)) = true).
  { unfold is_empty_draft. now rewrite E. }
  split; [unfold handleFinish; now rewrite Em|].
  split; [unfold handleSaveBack; now rewrite Em|].
  destruct (unmount_no_autosave _ (delete_if_stored_TimersOk W T)) as (T' & N' & M').
  rewrite unmount_provider.
  split; [|split; [|tauto]].
  - unfold delete_if_stored. destruct (in_store _ W); cbn; [reflexivity|].
    now rewrite app_nil_r.
  - unfold delete_if_stored. destruct (in_store _ W) eqn:S; cbn.
    + apply existsb_filter_out.
    + exact S.
Qed.

(** Once the editor is gone and no debounce timer is pending, nothing the
    instance can still do reaches the store. *)
Lemma unmounted_step (t : Z) (ev : Event) (W : World) :
  TimersOk W -> mounted W = false ->
  calls (provider (step t ev W)) = calls (provider W)
  /\ TimersOk (step t ev W) /\ mounted (step t ev W) = false.
Proof.
  intros T M. unfold step.
  set (W0 := set_clock (Z.max (clock W) t) W).
  assert (T0 : TimersOk W0) by exact T.
  assert (M0 : mounted W0 = false) by exact M.
  destruct ev as [op|defId| | | | |ws|id|h]; try (rewrite M0; cbn; auto).
  - unfold refresh, commit. cbn. rewrite M. cbn. auto.
  - pose proof (unmounted_no_autosave W0 T0 M0) as N.
    destruct (fire_no_autosave h W0 N) as (Hp & _ & _ & Hm & _).
    rewrite Hp, Hm. split; [reflexivity|]. split; [|exact M0].
    apply (fire_Inv h W0). now apply no_autosave_Inv.
Qed.

Lemma unmounted_run (evs : list (Z * Event)) (W : World) :
  TimersOk W -> mounted W = false ->
  calls (provider (run evs W)) = calls (provider W).
Proof.
  revert W. induction evs as [|[t ev] evs IH]; intros W T M; [reflexivity|].
  cbn [run]. destruct (unmounted_step t ev W T M) as (Hc & T' & M').
  rewrite IH; auto.
Qed.

(** C4. When the user finishes, or leaves with save, while the draft has no
    exercises: the store receives a delete for the draft's identifier if a
    record with it is stored and nothing otherwise, in particular no insert
    or update; afterwards no stored record has that identifier, the editor is
    unmounted, and nothing that happens later (timers included) adds a store
    call. *)
Theorem empty_draft_is_deleted_not_saved (W : World) (t : Z) (ev : Event) :
  reachable W -> mounted W = true ->
  w_exercises (workout (editor W)) = [] ->
  ev = Finish \/ ev = SaveBack ->
  let id := w_id (workout (editor W)) in
  let W' := step t ev W in
  calls (provider W')
  = calls (provider W)
      ++ (if existsb (has_id id) (workouts (provider W)) then [CallDelete id] else [])
  /\ existsb (has_id id) (workouts (provider W')) = false
  /\ (existsb (has_id id) (workouts (provider W)) = false ->
      workouts (provider W') = workouts (provider W))
  /\ mounted W' = false
  /\ forall evs, calls (provider (run evs W')) = calls (provider W').
Proof.
  intros R M E Hev id W'.
  pose proof (reachable_Inv W R) as [T _].
  set (W0 := set_clock (Z.max (clock W) t) W).
  assert (T0 : TimersOk W0) by exact T.
  assert (M0 : mounted W0 = true) by exact M.
  assert (E0 : w_exercises (workout (editor W0)) = []) by exact E.
  destruct (leave_empty W0 T0 M0 E0) as (HF & HS & Hc & Hx & Hm & HT & HN).
  assert (HW : W' = unmount (delete_if_stored W0)).
  { subst W'. unfold step. fold W0. rewrite M0. cbn [negb].
    destruct Hev; subst ev; assumption. }
  rewrite HW. split; [exact Hc|]. split; [exact Hx|]. split; [|split; [exact Hm|]].
  - intro S. rewrite unmount_provider. unfold delete_if_stored.
    unfold in_store. cbn. subst id. rewrite S. reflexivity.
  - intro evs. now apply unmounted_run.
Qed.


Lemma empty_draft_witness :
  let W' := step 3000 SaveBack sample_emptied_world in
  calls (provider W') = calls (provider sample_emptied_world) ++ [CallDelete "b"]
  /\ existsb (has_id "b") (workouts (provider W')) = false.
Proof.
  destruct (empty_draft_is_deleted_not_saved sample_emptied_world 3000 SaveBack)
    as (A & B & _).
  - unfold sample_emptied_world, sample_new_world. cbn [run].
    repeat apply reach_step. apply reach_mount.
  - reflexivity.
  - reflexivity.
  - right. reflexivity.
  - split; [exact A|exact B].
Defined.

(** ** Autosave coalescing *)



Lemma find_unique_handle (ts : list Timer) (t : Timer) :
  NoDup (map handle ts) -> In t ts ->
  find (fun x => Pos.eqb (handle x) (handle t)) ts = Some t.
Proof.
  induction ts as [|a ts IH]; intros Hnd Hin; [destruct Hin|].
  inversion Hnd as [|? ? Hn Hd]; subst. cbn.
  destruct Hin as [Hin|Hin].
  - subst a. now rewrite Pos.eqb_refl.
  - destruct (Pos.eqb (handle a) (handle t)) eqn:E.
    + apply Pos.eqb_eq in E. exfalso. apply Hn. rewrite E. now apply in_map.
    + now apply IH.
Qed.




Lemma saveWorkoutToContext_calls (ws : list Workout) (w : Workout) (W : World) :
  calls (provider (saveWorkoutToContext ws w W))
  = calls (provider W) ++ [flush_call ws w].
Proof.
  unfold saveWorkoutToContext, flush_call. destruct (existsb _ ws); reflexivity.
Qed.





(** The store call of the handlers that save at once. *)
Lemma immediate_saves (W : World) :
  (forall defId,
      calls (provider (addExercise defId W))
      = calls (provider W)
          ++ [flush_call (workouts (provider W))
                         (fst (addExercise_updated defId (workout (editor W)) (ids W)))])
  /\ (w_completed (workout (editor W)) = false ->
      w_exercises (workout (editor W)) <> [] ->
      calls (provider (toggleTimer W))
      = calls (provider W)
          ++ [flush_call (workouts (provider W))
                         (toggleTimer_updated (clock W) (workout (editor W)))]).
Proof.
  split.
  - intro defId. unfold addExercise.
    destruct (addExercise_updated defId _ _) as [u s1]. cbn [fst].
    rewrite commit_provider, saveWorkoutToContext_calls. reflexivity.
  - intros Hc Hne. unfold toggleTimer. rewrite Hc.
    rewrite toggleTimer_updated_exercises.
    destruct (w_exercises (workout (editor W))) as [|e es]; [contradiction|].
    cbn [List.length Nat.ltb Nat.leb].
    rewrite commit_provider, saveWorkoutToContext_calls. reflexivity.
Qed.

Lemma saveWorkoutToContext_frame (ws : list Workout) (w : Workout) (W : World) :
  editor (saveWorkoutToContext ws w W) = editor W
  /\ route (saveWorkoutToContext ws w W) = route W
  /\ mounted (saveWorkoutToContext ws w W) = mounted W
  /\ timers (saveWorkoutToContext ws w W) = timers W.
Proof. unfold saveWorkoutToContext. destruct (existsb _ ws); repeat split. Qed.









(** ** The workout timer *)

Lemma commit_loaded_workout (wc sc : bool) (W : World) (id : string) :
  route W = Some id -> loaded_is id (editor W) = true ->
  workout (editor (commit wc sc W)) = workout (editor W).
Proof.
  intros Hr Hl. unfold commit. destruct (negb (mounted W)); [reflexivity|].
  set (W1 := if wc then autosave_cleanup W else W).
  assert (F1 : route W1 = route W /\ editor W1 = editor W).
  { subst W1. destruct wc; [|tauto].
    destruct (autosave_cleanup_frame W) as (_ & _ & R & _ & E & _). auto. }
  destruct F1 as [R1 E1].
  assert (H : (if sc then hydration_effect W1 else (W1, None)) = (W1, None)).
  { destruct sc; [|reflexivity]. apply hydration_skips_loaded with (id := id).
    - congruence.
    - rewrite E1. exact Hl. }
  rewrite H. destruct wc.
  - destruct (autosave_effect_frame W1) as (_ & _ & _ & _ & E & _). cbn in E.
    rewrite E, E1. reflexivity.
  - now rewrite E1.
Qed.

(** The draft a handler sets and saves is the working copy after the render,
    when the route's identity is the loaded one. *)
Lemma saved_draft_is_working_copy (wc sc : bool) (ws : list Workout) (u : Workout)
      (W : World) (id : string) :
  route W = Some id -> loaded_is id (editor W) = true ->
  workout (editor (commit wc sc (saveWorkoutToContext ws u (setWorkout u W)))) = u.
Proof.
  intros Hr Hl.
  destruct (saveWorkoutToContext_frame ws u (setWorkout u W)) as (E & R & _).
  rewrite commit_loaded_workout with (id := id).
  - now rewrite E.
  - now rewrite R.
  - unfold loaded_is. rewrite E. exact Hl.
Qed.

Lemma toggleTimer_updated_running (now : Z) (w : Workout) (t : Q) :
  w_startTimestamp w = Some t -> ~ (t == 0)%Q ->
  w_startTimestamp (toggleTimer_updated now w) = None
  /\ (w_elapsedSeconds (toggleTimer_updated now w)
      == w_elapsedSeconds w + (inject_Z now - t) / 1000)%Q.
Proof.
  intros Hs Ht. unfold toggleTimer_updated. rewrite Hs.
  rewrite (proj2 (truthy_Some t) Ht). cbn. split; [reflexivity|].
  unfold session_seconds. rewrite num_or_zero. reflexivity.
Qed.

Lemma toggleTimer_updated_paused (now : Z) (w : Workout) :
  w_startTimestamp w = None ->
  toggleTimer_updated now w = with_timer (w_elapsedSeconds w) (Some (inject_Z now)) w.
Proof. intro Hs. unfold toggleTimer_updated. now rewrite Hs. Qed.

Lemma handleFinish_updated_elapsed (now : Z) (w : Workout) :
  (forall t, w_startTimestamp w = Some t -> ~ (t == 0)%Q ->
     (w_elapsedSeconds (handleFinish_updated now w)
      == w_elapsedSeconds w + (inject_Z now - t) / 1000)%Q)
  /\ (w_startTimestamp w = None ->
      (w_elapsedSeconds (handleFinish_updated now w) == w_elapsedSeconds w)%Q).
Proof.
  unfold handleFinish_updated. split.
  - intros t Hs Ht. rewrite Hs. rewrite (proj2 (truthy_Some t) Ht). cbn.
    unfold session_seconds. rewrite num_or_zero. reflexivity.
  - intro Hs. rewrite Hs. cbn. apply num_or_zero.
Qed.

(** C5, as the code has it.  The draft a handler builds, sets as working copy
    and saves:
    - [toggleTimer] does nothing on a completed draft; on a draft that is not
      completed and runs (a non-zero [startTimestamp]) it adds the seconds
      since [startTimestamp] to [elapsedSeconds] and sets [startTimestamp] to
      null; on one that is paused it sets [startTimestamp] to now and leaves
      [elapsedSeconds] alone;
    - [handleFinish] on a draft with exercises folds a running session into
      [elapsedSeconds], sets [startTimestamp] to null and [completed] to true;
    - [handleResume] sets [completed] to false and leaves [startTimestamp]
      and [elapsedSeconds] as they are, so a null [startTimestamp] stays null.
    When the draft is the loaded identity, that draft is the working copy
    after the handler, and a draft with exercises is flushed to the store. *)
Theorem timer_semantics :
  (forall W, w_completed (workout (editor W)) = true -> toggleTimer W = W)
  /\ (forall now w t,
         w_startTimestamp w = Some t -> ~ (t == 0)%Q ->
         let u := toggleTimer_updated now w in
         w_startTimestamp u = None
         /\ (w_elapsedSeconds u == w_elapsedSeconds w + (inject_Z now - t) / 1000)%Q
         /\ w_completed u = w_completed w)
  /\ (forall now w,
         w_startTimestamp w = None ->
         let u := toggleTimer_updated now w in
         w_startTimestamp u = Some (inject_Z now)
         /\ w_elapsedSeconds u = w_elapsedSeconds w
         /\ w_completed u = w_completed w)
  /\ (forall now w,
         let u := handleFinish_updated now w in
         w_completed u = true /\ w_startTimestamp u = None
         /\ (forall t, w_startTimestamp w = Some t -> ~ (t == 0)%Q ->
               (w_elapsedSeconds u
                == w_elapsedSeconds w + (inject_Z now - t) / 1000)%Q)
         /\ (w_startTimestamp w = None ->
             (w_elapsedSeconds u == w_elapsedSeconds w)%Q))
  /\ (forall w,
         let u := handleResume_updated w in
         w_completed u = false
         /\ w_startTimestamp u = w_startTimestamp w
         /\ w_elapsedSeconds u = w_elapsedSeconds w)
  /\ (forall W id,
         route W = Some id -> loaded_is id (editor W) = true ->
         let w := workout (editor W) in
         let ws := workouts (provider W) in
         (w_completed w = false ->
          workout (editor (toggleTimer W)) = toggleTimer_updated (clock W) w)
         /\ (w_exercises w <> [] ->
             workout (editor (handleFinish W)) = handleFinish_updated (clock W) w
             /\ calls (provider (handleFinish W))
                = calls (provider W)
                    ++ [flush_call ws (handleFinish_updated (clock W) w)])
         /\ workout (editor (handleResume W)) = handleResume_updated w
         /\ calls (provider (handleResume W))
            = calls (provider W) ++ [flush_call ws (handleResume_updated w)]).
Proof.
  split; [|split; [|split; [|split; [|split]]]].
  - intros W H. unfold toggleTimer. now rewrite H.
  - intros now w t Hs Ht u.
    destruct (toggleTimer_updated_running now w t Hs Ht) as [A B].
    split; [exact A|]. split; [exact B|].
    subst u. unfold toggleTimer_updated. rewrite Hs.
    destruct (Js.truthy (Some t)); reflexivity.
  - intros now w Hs u. subst u. rewrite (toggleTimer_updated_paused now w Hs).
    repeat split.
  - intros now w u. split; [reflexivity|]. split; [reflexivity|].
    apply handleFinish_updated_elapsed.
  - intros w u. repeat split.
  - intros W id Hr Hl w ws. split; [|split; [|split]].
    + intro Hc. unfold toggleTimer. fold w. rewrite Hc.
      destruct (0 <? _)%nat.
      * apply saved_draft_is_working_copy with (W := markDirty W) (id := id);
          assumption.
      * rewrite commit_loaded_workout with (id := id); [reflexivity| |]; assumption.
    + intro Hne. unfold handleFinish. fold w.
      assert (E : is_empty_draft w = false).
      { unfold is_empty_draft. destruct (w_exercises w); [contradiction|reflexivity]. }
      rewrite E. split.
      * apply saved_draft_is_working_copy with (id := id); assumption.
      * rewrite commit_provider, saveWorkoutToContext_calls. reflexivity.
    + unfold handleResume. fold w.
      apply saved_draft_is_working_copy with (id := id); assumption.
    + unfold handleResume. fold w.
      rewrite commit_provider, saveWorkoutToContext_calls. reflexivity.
Qed.

Lemma timer_semantics_witness :
  w_startTimestamp (toggleTimer_updated 6000 sample_running_draft) = None
  /\ (w_elapsedSeconds (toggleTimer_updated 6000 sample_running_draft) == 5)%Q.
Proof.
  destruct timer_semantics as (_ & H & _).
  destruct (H 6000%Z sample_running_draft 1000%Q eq_refl) as (A & B & _).
  - intro E. discriminate E.
  - split; [exact A|]. rewrite B. reflexivity.
Defined.

(** C5 as stated fails on the code.  Toggling the timer of a paused draft
    that is completed leaves [startTimestamp] null instead of setting it to
    now; finishing a draft without exercises does not set [completed]. *)
Lemma timer_semantics_counterexample :
  w_completed (workout (editor sample_loaded_world)) = true
  /\ w_startTimestamp (workout (editor sample_loaded_world)) = None
  /\ w_startTimestamp (workout (editor (step 5000 ToggleTimer sample_loaded_world)))
     = None
  /\ w_exercises (workout (editor sample_new_world)) = []
  /\ w_completed (workout (editor (step 5000 Finish sample_new_world))) = false.
Proof. vm_compute. repeat split. Qed.

(** ** Swipe detection *)

Lemma swipe_horizontal (cb : Swipe.Callbacks) (sx sy ex ey : Q) :
  (Qabs (sy - ey) < Qabs (sx - ex))%Q ->
  Swipe.onPointerUp cb (Swipe.mkHook (Some (sx, sy)) (Some (ex, ey)))
  = if Js.lt (Qabs (sx - ex)) 50 then []
    else (if Js.gt (sx - ex) 0 && Swipe.onSwipeLeft cb then [Swipe.SwipeLeft] else [])
           ++ (if Js.lt (sx - ex) 0 && Swipe.onSwipeRight cb
               then [Swipe.SwipeRight] else []).
Proof.
  intro H. unfold Swipe.onPointerUp. cbn [Swipe.touchStart Swipe.touchEnd].
  rewrite (proj2 (js_gt_iff _ _) H). reflexivity.
Qed.

Lemma swipe_vertical (cb : Swipe.Callbacks) (sx sy ex ey : Q) :
  (Qabs (sx - ex) <= Qabs (sy - ey))%Q ->
  Swipe.onPointerUp cb (Swipe.mkHook (Some (sx, sy)) (Some (ex, ey)))
  = if Js.lt (Qabs (sy - ey)) 50 then []
    else (if Js.gt (sy - ey) 0 && Swipe.onSwipeUp cb then [Swipe.SwipeUp] else [])
           ++ (if Js.lt (sy - ey) 0 && Swipe.onSwipeDown cb
               then [Swipe.SwipeDown] else []).
Proof.
  intro H. unfold Swipe.onPointerUp. cbn [Swipe.touchStart Swipe.touchEnd].
  rewrite (proj2 (js_gt_false_iff _ _) H). reflexivity.
Qed.

(** At or beyond the minimum distance the displacement has a sign. *)
Lemma far_is_signed (d : Q) :
  Js.lt (Qabs d) 50 = false ->
  (Js.gt d 0 = true /\ Js.lt d 0 = false) \/ (Js.gt d 0 = false /\ Js.lt d 0 = true).
Proof.
  intro H. apply js_lt_false_iff in H.
  destruct (Qlt_le_dec 0 d) as [P|N].
  - left. split; [now apply js_gt_iff|]. apply js_lt_false_iff.
    now apply Qlt_le_weak.
  - right. split; [now apply js_gt_false_iff|]. apply js_lt_iff.
    apply Qnot_le_lt. intro G.
    assert (Z0 : (d == 0)%Q) by (apply Qle_antisym; assumption).
    rewrite Z0 in H. cbn in H. revert H. apply Qlt_not_le. reflexivity.
Qed.

(** C7. For a pointer session that goes down at [(sx, sy)] and last moved to
    [(ex, ey)], with [dx = sx - ex] and [dy = sy - ey]: the gesture is
    horizontal iff [|dx| > |dy|]; below 50 px on the dominant axis no
    callback is invoked; otherwise, the four callbacks being supplied, exactly
    one is invoked: swipe-left for positive and swipe-right for negative [dx]
    when horizontal, swipe-up for positive and swipe-down for negative [dy]
    when vertical.  With any set of callbacks at most one is invoked, and none
    when the pointer never moved.  A drag with [dx = -80], [dy = 5] invokes
    swipe-right and nothing else. *)
Theorem swipe_classification (sx sy ex ey : Q) (h : Swipe.Hook) :
  let dx := (sx - ex)%Q in
  let dy := (sy - ey)%Q in
  let released := Swipe.onPointerMove ex ey (Swipe.onPointerDown sx sy h) in
  let fired := Swipe.onPointerUp Swipe.all_callbacks released in
  ((Qabs dy < Qabs dx)%Q ->
     ((Qabs dx < 50)%Q -> fired = [])
     /\ ((50 <= Qabs dx)%Q -> (0 < dx)%Q -> fired = [Swipe.SwipeLeft])
     /\ ((50 <= Qabs dx)%Q -> (dx < 0)%Q -> fired = [Swipe.SwipeRight]))
  /\ ((Qabs dx <= Qabs dy)%Q ->
     ((Qabs dy < 50)%Q -> fired = [])
     /\ ((50 <= Qabs dy)%Q -> (0 < dy)%Q -> fired = [Swipe.SwipeUp])
     /\ ((50 <= Qabs dy)%Q -> (dy < 0)%Q -> fired = [Swipe.SwipeDown]))
  /\ (List.length fired <= 1)%nat
  /\ (forall cb, List.length (Swipe.onPointerUp cb released) <= 1)%nat
  /\ (forall cb, Swipe.onPointerUp cb (Swipe.onPointerDown sx sy h) = [])
  /\ ((dx == -80)%Q -> (dy == 5)%Q -> fired = [Swipe.SwipeRight]).
Proof.
  intros dx dy released fired.
  assert (HH : (Qabs dy < Qabs dx)%Q ->
     ((Qabs dx < 50)%Q -> fired = [])
     /\ ((50 <= Qabs dx)%Q -> (0 < dx)%Q -> fired = [Swipe.SwipeLeft])
     /\ ((50 <= Qabs dx)%Q -> (dx < 0)%Q -> fired = [Swipe.SwipeRight])).
  { intro H. subst fired released. unfold Swipe.onPointerMove, Swipe.onPointerDown.
    cbn [Swipe.touchStart]. rewrite (swipe_horizontal _ sx sy ex ey H). fold dx.
    split; [|split].
    - intro L. now rewrite (proj2 (js_lt_iff _ _) L).
    - intros L P. rewrite (proj2 (js_lt_false_iff _ _) L).
      rewrite (proj2 (js_gt_iff _ _) P).
      rewrite (proj2 (js_lt_false_iff _ _) (Qlt_le_weak _ _ P)). reflexivity.
    - intros L N. rewrite (proj2 (js_lt_false_iff _ _) L).
      rewrite (proj2 (js_lt_iff _ _) N).
      rewrite (proj2 (js_gt_false_iff _ _) (Qlt_le_weak _ _ N)). reflexivity. }
  assert (HV : (Qabs dx <= Qabs dy)%Q ->
     ((Qabs dy < 50)%Q -> fired = [])
     /\ ((50 <= Qabs dy)%Q -> (0 < dy)%Q -> fired = [Swipe.SwipeUp])
     /\ ((50 <= Qabs dy)%Q -> (dy < 0)%Q -> fired = [Swipe.SwipeDown])).
  { intro H. subst fired released. unfold Swipe.onPointerMove, Swipe.onPointerDown.
    cbn [Swipe.touchStart]. rewrite (swipe_vertical _ sx sy ex ey H). fold dy.
    split; [|split].
    - intro L. now rewrite (proj2 (js_lt_iff _ _) L).
    - intros L P. rewrite (proj2 (js_lt_false_iff _ _) L).
      rewrite (proj2 (js_gt_iff _ _) P).
      rewrite (proj2 (js_lt_false_iff _ _) (Qlt_le_weak _ _ P)). reflexivity.
    - intros L N. rewrite (proj2 (js_lt_false_iff _ _) L).
      rewrite (proj2 (js_lt_iff _ _) N).
      rewrite (proj2 (js_gt_false_iff _ _) (Qlt_le_weak _ _ N)). reflexivity. }
  assert (HL : forall cb, (List.length (Swipe.onPointerUp cb released) <= 1)%nat).
  { intro cb. subst released. unfold Swipe.onPointerMove, Swipe.onPointerDown.
    cbn [Swipe.touchStart].
    destruct (Qlt_le_dec (Qabs dy) (Qabs dx)) as [H|H].
    - rewrite (swipe_horizontal cb sx sy ex ey H). fold dx.
      destruct (Js.lt (Qabs dx) 50) eqn:F; [cbn; lia|].
      destruct (far_is_signed dx F) as [[A B]|[A B]]; rewrite A, B; cbn.
      + destruct (Swipe.onSwipeLeft cb); cbn; lia.
      + destruct (Swipe.onSwipeRight cb); cbn; lia.
    - rewrite (swipe_vertical cb sx sy ex ey H). fold dy.
      destruct (Js.lt (Qabs dy) 50) eqn:F; [cbn; lia|].
      destruct (far_is_signed dy F) as [[A B]|[A B]]; rewrite A, B; cbn.
      + destruct (Swipe.onSwipeUp cb); cbn; lia.
      + destruct (Swipe.onSwipeDown cb); cbn; lia. }
  split; [exact HH|]. split; [exact HV|]. split; [apply HL|]. split; [exact HL|].
  split; [reflexivity|].
  intros Ex Ey.
  assert (H : (Qabs dy < Qabs dx)%Q) by (rewrite Ex, Ey; reflexivity).
  destruct (HH H) as (_ & _ & R). apply R.
  - rewrite Ex. discriminate.
  - rewrite Ex. reflexivity.
Qed.

Lemma swipe_classification_witness :
  Swipe.onPointerUp Swipe.all_callbacks
    (Swipe.onPointerMove 180 195 (Swipe.onPointerDown 100 200 (Swipe.mkHook None None)))
  = [Swipe.SwipeRight].
Proof.
  destruct (swipe_classification 100 200 180 195 (Swipe.mkHook None None))
    as (_ & _ & _ & _ & _ & H).
  apply H; reflexivity.
Defined.

(** ** Where a released row comes to rest *)

Section Settle.

Local Open Scope Q_scope.

Variables x base elapsed : Q.

Let dx : Q := x - base.
Let v : Q := Qabs dx / Js.max 1 elapsed.

Lemma opens_right_iff :
  Js.gt x Reveal.OPEN_THRESHOLD || (Js.gt dx 12 && Js.gt v Reveal.VELOCITY_OPEN) = true
  <-> opens_right x base elapsed.
Proof.
  unfold opens_right, v, dx. rewrite orb_true_iff, andb_true_iff, !js_gt_iff. tauto.
Qed.

Lemma opens_left_iff :
  Js.lt x (- Reveal.OPEN_THRESHOLD)
  || (Js.lt dx (-12) && Js.gt v Reveal.VELOCITY_OPEN) = true
  <-> opens_left x base elapsed.
Proof.
  unfold opens_left, v, dx.
  rewrite orb_true_iff, andb_true_iff, !js_lt_iff, js_gt_iff. tauto.
Qed.

Lemma settle_cases (it : Reveal.Item) :
  (opens_right x base elapsed ->
     Reveal.offsetXRef (Reveal.settle x base elapsed it) = Reveal.ACTION_WIDTH)
  /\ (~ opens_right x base elapsed -> opens_left x base elapsed ->
      Reveal.offsetXRef (Reveal.settle x base elapsed it) = - Reveal.ACTION_WIDTH)
  /\ (~ opens_right x base elapsed -> ~ opens_left x base elapsed ->
      Reveal.offsetXRef (Reveal.settle x base elapsed it) = 0).
Proof.
  unfold Reveal.settle. fold dx. fold v.
  destruct (Js.gt x Reveal.OPEN_THRESHOLD
            || (Js.gt dx 12 && Js.gt v Reveal.VELOCITY_OPEN)) eqn:R.
  - apply opens_right_iff in R. split; [|split]; intros; try contradiction; reflexivity.
  - assert (NR : ~ opens_right x base elapsed).
    { intro H. apply opens_right_iff in H. congruence. }
    destruct (Js.lt x (- Reveal.OPEN_THRESHOLD)
              || (Js.lt dx (-12) && Js.gt v Reveal.VELOCITY_OPEN)) eqn:L.
    + apply opens_left_iff in L. split; [|split]; intros; try contradiction; reflexivity.
    + assert (NL : ~ opens_left x base elapsed).
      { intro H. apply opens_left_iff in H. congruence. }
      split; [|split]; intros; try contradiction; reflexivity.
Qed.

Lemma opens_right_dec : opens_right x base elapsed \/ ~ opens_right x base elapsed.
Proof.
  destruct (Js.gt x Reveal.OPEN_THRESHOLD
            || (Js.gt dx 12 && Js.gt v Reveal.VELOCITY_OPEN)) eqn:B.
  - left. now apply opens_right_iff.
  - right. intro H. apply opens_right_iff in H. congruence.
Qed.

Lemma opens_left_dec : opens_left x base elapsed \/ ~ opens_left x base elapsed.
Proof.
  destruct (Js.lt x (- Reveal.OPEN_THRESHOLD)
            || (Js.lt dx (-12) && Js.gt v Reveal.VELOCITY_OPEN)) eqn:B.
  - left. now apply opens_left_iff.
  - right. intro H. apply opens_left_iff in H. congruence.
Qed.

End Settle.

Lemma open_threshold_value : (Reveal.OPEN_THRESHOLD == 23.04)%Q.
Proof. reflexivity. Qed.

Lemma setOffset_within (v : Q) (it : Reveal.Item) :
  (- Reveal.ACTION_WIDTH <= v)%Q -> (v <= Reveal.ACTION_WIDTH)%Q ->
  (Reveal.offsetXRef (Reveal.setOffset v it) == v)%Q.
Proof.
  intros Lo Hi. unfold Reveal.setOffset. cbn [Reveal.offsetXRef].
  rewrite (proj2 (js_gt_false_iff _ _) Hi).
  rewrite (proj2 (js_lt_false_iff _ _) Lo).
  unfold Js.max, Js.min.
  destruct (Qle_bool Reveal.ACTION_WIDTH v) eqn:E1.
  - apply Qle_bool_iff in E1. cbn. apply Qle_antisym; assumption.
  - destruct (Qle_bool (- Reveal.ACTION_WIDTH) v) eqn:E2; [reflexivity|].
    exfalso. apply Qle_bool_iff in Lo. congruence.
Qed.

(** C8, as the code has it.  On release of a horizontally locked drag, with
    [x] the offset, [dx] its change since pointer-down and [v = |dx| / dt]:
    the opening condition is [x > OPEN_THRESHOLD] or ([dx > 12] and
    [v > VELOCITY_OPEN]), the symmetric condition its mirror image.  Unless
    both hold, the offset settles to [+ACTION_WIDTH] iff the opening
    condition holds and to [-ACTION_WIDTH] iff the symmetric one holds; it
    settles to [0] iff neither holds.
    [OPEN_THRESHOLD = max(18, ACTION_WIDTH * 0.18) = 23.04]; released at
    [OPEN_THRESHOLD + 1] the row snaps to [+ACTION_WIDTH], released at
    [OPEN_THRESHOLD - 1] with velocity at most [VELOCITY_OPEN] it snaps to
    [0].  While the drag lasts, a move puts the offset at the offset of
    pointer-down plus 1.25 times the pointer's net horizontal drag, where
    that is within the reveal width. *)
Theorem reveal_snap_thresholds (it : Reveal.Item) (now : Q) :
  Reveal.isDragging it = true -> Reveal.lockedAxis it = Some Reveal.AxisX ->
  let x := Reveal.offsetXRef it in
  let base := Reveal.baseOffset it in
  let elapsed := (now - Reveal.startTime it)%Q in
  let v := (Qabs (x - base) / Js.max 1 elapsed)%Q in
  let x' := Reveal.offsetXRef (Reveal.handlePointerUp now it) in
  (~ (opens_right x base elapsed /\ opens_left x base elapsed) ->
   (x' = Reveal.ACTION_WIDTH <-> opens_right x base elapsed)
   /\ (x' = (- Reveal.ACTION_WIDTH)%Q <-> opens_left x base elapsed))
  /\ (x' = 0%Q <-> ~ opens_right x base elapsed /\ ~ opens_left x base elapsed)
  /\ (Reveal.OPEN_THRESHOLD == Js.max 18 (Reveal.ACTION_WIDTH * 0.18))%Q
  /\ ((x == Reveal.OPEN_THRESHOLD + 1)%Q -> x' = Reveal.ACTION_WIDTH)
  /\ ((x == Reveal.OPEN_THRESHOLD - 1)%Q -> (v <= Reveal.VELOCITY_OPEN)%Q -> x' = 0%Q)
  /\ (forall px py : Q,
        (- Reveal.ACTION_WIDTH <= base + (px - fst (Reveal.start it)) * 1.25)%Q ->
        (base + (px - fst (Reveal.start it)) * 1.25 <= Reveal.ACTION_WIDTH)%Q ->
        (Reveal.offsetXRef (Reveal.handlePointerMove px py it)
         == base + (px - fst (Reveal.start it)) * 1.25)%Q).
Proof.
  intros Hd Hl x base elapsed v x'.
  assert (E : x' = Reveal.offsetXRef
                     (Reveal.settle x base elapsed (Reveal.setIsDragging false it))).
  { subst x'. unfold Reveal.handlePointerUp. rewrite Hd, Hl. reflexivity. }
  destruct (settle_cases x base elapsed (Reveal.setIsDragging false it))
    as (HR & HL & HC).
  rewrite <- E in HR, HL, HC. clear E.
  pose proof (opens_right_dec x base elapsed) as DR.
  pose proof (opens_left_dec x base elapsed) as DL.
  split; [|split; [|split; [|split; [|split]]]].
  - intro NB. split.
    + split; [|exact HR]. intro H.
      destruct DR as [R|NR]; [exact R|]. exfalso.
      destruct DL as [L|NL].
      * rewrite (HL NR L) in H. vm_compute in H. discriminate H.
      * rewrite (HC NR NL) in H. vm_compute in H. discriminate H.
    + split.
      * intro H. destruct DR as [R|NR].
        { exfalso. rewrite (HR R) in H. vm_compute in H. discriminate H. }
        destruct DL as [L|NL]; [exact L|]. exfalso.
        rewrite (HC NR NL) in H. vm_compute in H. discriminate H.
      * intro L. apply HL; [|exact L]. intro R. apply NB. split; assumption.
  - split; [|intros [NR NL]; exact (HC NR NL)]. intro H.
    destruct DR as [R|NR].
    { exfalso. rewrite (HR R) in H. vm_compute in H. discriminate H. }
    split; [exact NR|]. intro L. rewrite (HL NR L) in H.
    vm_compute in H. discriminate H.
  - reflexivity.
  - intro Hx. apply HR. left. rewrite Hx. reflexivity.
  - intros Hx Hv. apply HC.
    + intros [R|[_ R]].
      * rewrite Hx in R. vm_compute in R. discriminate R.
      * exact (Qlt_not_le _ _ R Hv).
    + intros [L|[_ L]].
      * rewrite Hx in L. vm_compute in L. discriminate L.
      * exact (Qlt_not_le _ _ L Hv).
  - intros px py Lo Hi. unfold Reveal.handlePointerMove.
    rewrite Hd, Hl. cbn [negb]. unfold Reveal.BOOST.
    apply setOffset_within; assumption.
Qed.

Lemma reveal_snap_witness :
  Reveal.offsetXRef
    (Reveal.handlePointerUp 400
       (Reveal.mkItem 24.04 true (Some Reveal.AxisX) (0, 0) 0 0))
  = Reveal.ACTION_WIDTH.
Proof.
  destruct (reveal_snap_thresholds
              (Reveal.mkItem 24.04 true (Some Reveal.AxisX) (0, 0) 0 0) 400
              eq_refl eq_refl) as (_ & _ & _ & H & _).
  apply H. reflexivity.
Defined.

(** C8 as stated fails on the code, in two ways.  (1) A closed row whose
    pointer has moved 10 px (not more than 12) in 20 ms (0.5 px/ms, not above
    0.55) stands at offset 12.5 (not above [OPEN_THRESHOLD]) and settles to
    [+ACTION_WIDTH]: the code measures the change of the offset, which runs
    at 1.25 times the pointer.  (2) A row resting open to the right
    ([baseOffset = 128]) is flicked to the left: released at offset 53 after
    100 ms, the offset has changed by -75 (below -12) at 0.75 px/ms (above
    0.55), so the mirror-image condition holds; the row still settles to
    [+ACTION_WIDTH], because the offset is above [OPEN_THRESHOLD].  The
    mirrored flick, from -128 to -53, meets the mirror-image condition by its
    offset and settles to [+ACTION_WIDTH] as well. *)
Lemma reveal_snap_counterexample :
  (Reveal.isDragging sample_nudged_item = true
   /\ Reveal.lockedAxis sample_nudged_item = Some Reveal.AxisX
   /\ Reveal.start sample_nudged_item = (0, 0)%Q
   /\ (Reveal.offsetXRef sample_nudged_item == 12.5)%Q
   /\ ~ (Reveal.OPEN_THRESHOLD < Reveal.offsetXRef sample_nudged_item)%Q
   /\ ~ (12 < 10 - fst (Reveal.start sample_nudged_item))%Q
   /\ Reveal.offsetXRef (Reveal.handlePointerUp 20 sample_nudged_item)
      = Reveal.ACTION_WIDTH)
  /\ (Reveal.isDragging sample_flicked_item = true
      /\ Reveal.lockedAxis sample_flicked_item = Some Reveal.AxisX
      /\ (Reveal.offsetXRef sample_flicked_item == 53)%Q
      /\ opens_left (Reveal.offsetXRef sample_flicked_item)
                    (Reveal.baseOffset sample_flicked_item)
                    (100 - Reveal.startTime sample_flicked_item)
      /\ Reveal.offsetXRef (Reveal.handlePointerUp 100 sample_flicked_item)
         = Reveal.ACTION_WIDTH)
  /\ (Reveal.isDragging sample_flicked_back_item = true
      /\ Reveal.lockedAxis sample_flicked_back_item = Some Reveal.AxisX
      /\ (Reveal.offsetXRef sample_flicked_back_item == -53)%Q
      /\ opens_left (Reveal.offsetXRef sample_flicked_back_item)
                    (Reveal.baseOffset sample_flicked_back_item)
                    (100 - Reveal.startTime sample_flicked_back_item)
      /\ Reveal.offsetXRef (Reveal.handlePointerUp 100 sample_flicked_back_item)
         = Reveal.ACTION_WIDTH).
Proof.
  split; [|split].
  - split; [reflexivity|]. split; [reflexivity|]. split; [reflexivity|].
    split; [reflexivity|]. split; [vm_compute; intro H; discriminate H|].
    split; [vm_compute; intro H; discriminate H|reflexivity].
  - split; [reflexivity|]. split; [reflexivity|]. split; [reflexivity|].
    split; [|reflexivity]. right. split; reflexivity.
  - split; [reflexivity|]. split; [reflexivity|]. split; [reflexivity|].
    split; [|reflexivity]. left. reflexivity.
Qed.

(** ** Long press against tap *)

(** C6. The code at the race the claim names, for every hold duration and
    position: the pointer is held for [ms], the timeout runs and invokes the
    long-press callback, and the pointer-up is handled before React renders
    again.  Its handler still sees [startLongPress = true], and
    [timerRef.current] still holds the handle of the timeout that ran, so the
    tap callback is invoked as well. *)
Theorem long_press_race_fires_both (ms t0 : Z) (x y : Q) :
  LongPress.fired (LongPress.run ms (race_session ms t0 x y) LongPress.initial)
  = [LongPress.OnLongPress; LongPress.OnTap].
Proof.
  unfold race_session. cbn. unfold LongPress.fire. cbn.
  rewrite Z.leb_refl. reflexivity.
Qed.

Lemma sample_race_fires_both :
  LongPress.fired (LongPress.run 500 sample_race LongPress.initial)
  = [LongPress.OnLongPress; LongPress.OnTap].
Proof. reflexivity. Qed.

(** With the render between the timeout and the pointer-up, the hold fires
    the long press alone. *)
Lemma long_press_hold_fires_once :
  LongPress.fired (LongPress.run 500 sample_hold LongPress.initial)
  = [LongPress.OnLongPress].
Proof. reflexivity. Qed.

(** ** Long press: sessions rendered in step *)

Lemma filter_all_out {A : Type} (f : A -> bool) (l : list A) :
  (forall x, In x l -> f x = false) -> filter f l = [].
Proof.
  induction l as [|a l IH]; intro H; [reflexivity|]. cbn.
  rewrite (H a (or_introl eq_refl)). apply IH. intros x Hx. apply H. now right.
Qed.

Lemma tracked_filter_empty (k : option positive) (q : positive)
      (ps : list (positive * Z)) :
  (forall p, In p ps -> k = Some (fst p)) -> k = Some q ->
  filter (fun p => negb (Pos.eqb (fst p) q)) ps = [].
Proof.
  intros H E. apply filter_all_out. intros p Hp.
  specialize (H p Hp). rewrite E in H. inversion H; subst.
  now rewrite Pos.eqb_refl.
Qed.

Lemma tracked_none_empty (ps : list (positive * Z)) :
  (forall p, In p ps -> @None positive = Some (fst p)) -> ps = [].
Proof.
  destruct ps as [|p ps]; [reflexivity|]. intro H.
  specialize (H p (or_introl eq_refl)). discriminate.
Qed.

Ltac lp_close :=
  repeat split; auto; try discriminate; try lia;
  try (intros ? [Hp|[]]; subst; reflexivity); try (intros ? []).

Lemma lp_step (ms now : Z) (ev : LongPress.Event) (n : nat) (h : LongPress.Hook) :
  lp_inv n h ->
  lp_inv (n + (if is_pointer_down ev then 1 else 0))
         (LongPress.render ms now false (LongPress.step ms now ev h)).
Proof.
  destruct h as [st q tr sp ps nh fr]. unfold lp_inv. cbn.
  intros (Hq & Htr & Hps & Hn). subst q.
  destruct ev as [x y|x y| | |k|d].
  - (* pointer-down *)
    cbn. destruct st; cbn.
    + lp_close.
    + rewrite (Hps eq_refl) in *. destruct tr as [t|]; cbn.
      * lp_close.
      * lp_close.
  - (* pointer-move *)
    unfold LongPress.step, LongPress.onPointerMove.
    cbn [LongPress.startPos LongPress.startLongPress].
    destruct sp as [[sx sy]|].
    2:{ cbn. destruct st; cbn; lp_close. }
    destruct st.
    2:{ cbn. lp_close. }
    destruct (Js.gt (Qabs (x - sx)) 10 || Js.gt (Qabs (y - sy)) 10); cbn.
    + destruct tr as [t|]; cbn.
      * rewrite (tracked_filter_empty (Some t) t ps Htr eq_refl). cbn.
        lp_close.
      * rewrite (tracked_none_empty ps Htr). cbn.
        lp_close.
    + lp_close.
  - (* pointer-up *)
    cbn. unfold LongPress.onPointerUp. cbn. destruct st; cbn.
    2:{ lp_close. }
    destruct tr as [t|]; cbn.
    + rewrite (tracked_filter_empty (Some t) t ps Htr eq_refl). cbn.
      rewrite length_app. cbn. lp_close.
    + rewrite (tracked_none_empty ps Htr). cbn.
      lp_close.
  - (* pointer-leave *)
    cbn. unfold LongPress.onPointerLeave, LongPress.cancel. cbn. destruct st; cbn.
    2:{ lp_close. }
    destruct tr as [t|]; cbn.
    + rewrite (tracked_filter_empty (Some t) t ps Htr eq_refl). cbn.
      lp_close.
    + rewrite (tracked_none_empty ps Htr). cbn.
      lp_close.
  - (* the timeout *)
    cbn. unfold LongPress.fire. cbn.
    destruct (find (fun p => Pos.eqb (fst p) k) ps) as [[k' due]|] eqn:F; cbn.
    2:{ destruct st; cbn; lp_close. }
    destruct (due <=? now)%Z; cbn.
    2:{ destruct st; cbn; lp_close. }
    apply find_some in F. destruct F as [Hin Hk]. cbn in Hk.
    apply Pos.eqb_eq in Hk. subst k'.
    pose proof (Htr _ Hin) as Et. cbn in Et.
    destruct st; [|rewrite (Hps eq_refl) in Hin; destruct Hin]. cbn.
    rewrite Et. cbn.
    assert (E1 : filter (fun p => negb (Pos.eqb (fst p) k)) ps = []).
    { apply (tracked_filter_empty tr k ps Htr Et). }
    rewrite E1. cbn. rewrite length_app. cbn.
    lp_close.
  - (* an extra render *)
    cbn. destruct d; cbn.
    + destruct st; cbn.
      * destruct tr as [t|]; cbn.
        -- rewrite (tracked_filter_empty (Some t) t ps Htr eq_refl). cbn.
           lp_close.
        -- rewrite (tracked_none_empty ps Htr). cbn.
           lp_close.
      * rewrite (Hps eq_refl). destruct tr as [t|]; cbn; lp_close.
    + destruct st; cbn; lp_close.
Qed.

(** X18. When React renders after every event, a pointer session invokes at most
    one of the two callbacks: the callbacks invoked never outnumber the
    pointer-downs. *)
Lemma rendered_sessions_fire_at_most_once (ms : Z)
      (evs : list (Z * LongPress.Event)) :
  (List.length (LongPress.fired (rendered_run ms evs LongPress.initial))
   <= pointer_downs evs)%nat.
Proof.
  assert (G : forall evs n h, lp_inv n h ->
                lp_inv (n + pointer_downs evs) (rendered_run ms evs h)).
  { clear evs. induction evs as [|[now ev] evs IH]; intros n h H.
    - cbn. rewrite Nat.add_0_r. exact H.
    - cbn [rendered_run]. pose proof (lp_step ms now ev n h H) as H1.
      specialize (IH _ _ H1). unfold pointer_downs in *. cbn [filter snd].
      destruct (is_pointer_down ev); cbn [List.length] in *.
      + replace (n + S (List.length (filter (fun e => is_pointer_down (snd e)) evs)))%nat
          with (n + 1 + List.length (filter (fun e => is_pointer_down (snd e)) evs))%nat
          by lia.
        exact IH.
      + rewrite Nat.add_0_r in IH. exact IH. }
  specialize (G evs 0%nat LongPress.initial).
  destruct G as (_ & _ & _ & G).
  - repeat split; auto. intros p [].
  - cbn in G. lia.
Qed.

(** A press held for [ms] or longer without moving, rendered in step: the
    long press fires when the timeout runs and the later pointer-up does not
    tap. *)
Lemma hold_fires_long_press_only (ms t0 t1 : Z) (x y : Q) :
  (t0 + ms <= t1)%Z ->
  LongPress.fired
    (rendered_run ms [(t0, LongPress.PointerDown x y);
                      ((t0 + ms)%Z, LongPress.TimerFires 1%positive);
                      (t1, LongPress.PointerUp)]
                  LongPress.initial)
  = [LongPress.OnLongPress].
Proof.
  intro H. cbn. unfold LongPress.fire. cbn. rewrite Z.leb_refl. reflexivity.
Qed.

(** A render that hands the hook new callback closures while the press is on
    re-runs the effect: the running timeout is cleared and a new one armed
    for the full [ms].  A press of 600 ms with such a render at 400 ms ends in
    a tap. *)
Lemma rerender_restarts_hold :
  LongPress.fired
    (LongPress.run 500
       [(0%Z, LongPress.PointerDown 10 10); (0%Z, LongPress.Render false);
        (400%Z, LongPress.Render true); (500%Z, LongPress.TimerFires 1%positive);
        (500%Z, LongPress.TimerFires 2%positive); (600%Z, LongPress.PointerUp);
        (600%Z, LongPress.Render false)]
       LongPress.initial)
  = [LongPress.OnTap].
Proof. reflexivity. Qed.

(** ** Every exercise keeps a set: the editor *)




















(** * Further properties of the code *)

(** ** The store: lookups, deletions, identifiers *)

Lemma filter_out_absent (id : string) (ws : list Workout) :
  existsb (has_id id) ws = false -> filter (fun w => negb (has_id id w)) ws = ws.
Proof.
  induction ws as [|w ws IH]; intro H; [reflexivity|]. cbn in *.
  apply orb_false_iff in H. destruct H as [H1 H2]. rewrite H1. cbn.
  now rewrite IH.
Qed.

Lemma has_id_self (w : Workout) : has_id (w_id w) w = true.
Proof. unfold has_id. apply String.eqb_refl. Qed.

(** X1. [deleteWorkout] removes every record with the identifier and nothing
    else, and undoes an [addWorkout] of a workout whose identifier was not
    stored. *)
Theorem deleteWorkout_removes_exactly (id : string) (p : Provider) :
  existsb (has_id id) (workouts (deleteWorkout id p)) = false
  /\ (forall w, In w (workouts (deleteWorkout id p))
                <-> In w (workouts p) /\ w_id w <> id)
  /\ workouts (deleteWorkout id (deleteWorkout id p)) = workouts (deleteWorkout id p)
  /\ (forall w, w_id w = id -> existsb (has_id id) (workouts p) = false ->
        workouts (deleteWorkout id (addWorkout w p)) = workouts p).
Proof.
  split; [apply existsb_filter_out|]. split; [|split].
  - intro w. cbn. rewrite filter_In. unfold has_id.
    rewrite negb_true_iff, String.eqb_neq. tauto.
  - cbn. apply filter_out_absent, existsb_filter_out.
  - intros w Hw Habs. cbn. rewrite filter_app. cbn.
    rewrite <- Hw at 1. rewrite has_id_self. cbn.
    rewrite app_nil_r. now apply filter_out_absent.
Qed.

Lemma deleteWorkout_witness :
  workouts (deleteWorkout "w9" (addWorkout (mkWorkout "w9" "2024-03-01" "Arms" ""
                                               [] false 0 None) sample_store))
  = workouts sample_store.
Proof.
  destruct (deleteWorkout_removes_exactly "w9" sample_store) as (_ & _ & _ & H).
  apply H; reflexivity.
Defined.

Lemma update_absent (u : Workout) (ws : list Workout) :
  existsb (has_id (w_id u)) ws = false ->
  map (fun w => if has_id (w_id u) w then u else w) ws = ws.
Proof.
  induction ws as [|w ws IH]; intro H; [reflexivity|]. cbn in *.
  apply orb_false_iff in H. destruct H as [H1 H2]. rewrite H1. now rewrite IH.
Qed.

Lemma update_ids (u : Workout) (ws : list Workout) :
  map w_id (map (fun w => if has_id (w_id u) w then u else w) ws) = map w_id ws.
Proof.
  induction ws as [|w ws IH]; [reflexivity|]. cbn. rewrite IH.
  destruct (has_id (w_id u) w) eqn:E; [|reflexivity].
  unfold has_id in E. apply String.eqb_eq in E. now rewrite E.
Qed.

Lemma find_update_present (u : Workout) (ws : list Workout) :
  existsb (has_id (w_id u)) ws = true ->
  find (has_id (w_id u)) (map (fun w => if has_id (w_id u) w then u else w) ws)
  = Some u.
Proof.
  induction ws as [|w ws IH]; intro H; [discriminate|]. cbn in *.
  destruct (has_id (w_id u) w) eqn:E.
  - now rewrite has_id_self.
  - rewrite E. cbn in H. now apply IH.
Qed.

(** X2. [updateWorkout] keeps the identifiers of the collection, in order.  For a
    stored identifier a lookup then returns the updated workout.  For an
    identifier that is not stored the collection is unchanged, while the
    call is still recorded and, when signed in, the upsert is still sent. *)
Theorem updateWorkout_keeps_ids (u : Workout) (p : Provider) :
  map w_id (workouts (updateWorkout u p)) = map w_id (workouts p)
  /\ (existsb (has_id (w_id u)) (workouts p) = true ->
      find (has_id (w_id u)) (workouts (updateWorkout u p)) = Some u)
  /\ (existsb (has_id (w_id u)) (workouts p) = false ->
      workouts (updateWorkout u p) = workouts p
      /\ calls (updateWorkout u p) = calls p ++ [CallUpdate u]
      /\ (user p = true -> remote (updateWorkout u p) = remote p ++ [RemoteUpsert u])).
Proof.
  split; [apply update_ids|]. split.
  - apply find_update_present.
  - intro H. split; [now apply update_absent|]. split; [reflexivity|].
    intro U. cbn. now rewrite U.
Qed.

Lemma updateWorkout_witness :
  workouts (updateWorkout (mkWorkout "w9" "2024-03-01" "Arms" "" [] false 0 None)
                          sample_store)
  = workouts sample_store.
Proof.
  destruct (updateWorkout_keeps_ids (mkWorkout "w9" "2024-03-01" "Arms" "" [] false 0 None)
                                    sample_store) as (_ & _ & H).
  destruct H as [H _]; [reflexivity|exact H].
Defined.

Lemma find_app_absent (id : string) (ws : list Workout) (w : Workout) :
  existsb (has_id id) ws = false -> w_id w = id ->
  find (has_id id) (ws ++ [w]) = Some w.
Proof.
  intros H E. induction ws as [|a ws IH]; cbn in *.
  - subst id. now rewrite has_id_self.
  - apply orb_false_iff in H. destruct H as [H1 H2]. rewrite H1. now apply IH.
Qed.

Lemma existsb_has_id_In (id : string) (ws : list Workout) :
  existsb (has_id id) ws = false <-> ~ In id (map w_id ws).
Proof.
  induction ws as [|w ws IH]; cbn; [tauto|].
  rewrite orb_false_iff, IH. unfold has_id.
  rewrite String.eqb_neq. tauto.
Qed.

(** X3. [saveWorkoutToContext], deciding against the current collection: a
    lookup by the draft's identifier then returns the draft, and identifiers
    that were distinct stay distinct. *)
Theorem save_then_lookup (w : Workout) (W : World) :
  let W' := saveWorkoutToContext (workouts (provider W)) w W in
  find (has_id (w_id w)) (workouts (provider W')) = Some w
  /\ (NoDup (map w_id (workouts (provider W))) ->
      NoDup (map w_id (workouts (provider W')))).
Proof.
  unfold saveWorkoutToContext.
  destruct (existsb (has_id (w_id w)) (workouts (provider W))) eqn:E; cbn.
  - split; [now apply find_update_present|]. now rewrite update_ids.
  - split; [now apply find_app_absent|].
    intro N. rewrite map_app. cbn. apply NoDup_snoc; [exact N|].
    now apply existsb_has_id_In.
Qed.

Lemma save_then_lookup_witness :
  NoDup (map w_id (workouts (provider
           (saveWorkoutToContext (workouts (provider sample_loaded_world))
                                 sample_remote_workout sample_loaded_world)))).
Proof.
  destruct (save_then_lookup sample_remote_workout sample_loaded_world) as [_ H].
  apply H. cbn. constructor; [intros []|constructor].
Defined.

(** ** Draft edits that address nothing *)

Lemma with_exercises_same (w : Workout) : with_exercises (w_exercises w) w = w.
Proof. destruct w; reflexivity. Qed.

Lemma with_sets_same (ex : ExerciseInstance) : with_sets (ex_sets ex) ex = ex.
Proof. destruct ex; reflexivity. Qed.

Lemma map_same {A : Type} (f : A -> A) (l : list A) :
  (forall x, In x l -> f x = x) -> map f l = l.
Proof.
  induction l as [|a l IH]; intro H; [reflexivity|]. cbn.
  rewrite (H a (or_introl eq_refl)), IH; [reflexivity|].
  intros x Hx. apply H. now right.
Qed.

Lemma map_ids_same {A : Type} (f : A -> IdSupply -> A * IdSupply) (l : list A)
      (s : IdSupply) :
  (forall x s0, In x l -> f x s0 = (x, s0)) -> map_ids f l s = (l, s).
Proof.
  revert s. induction l as [|a l IH]; intros s H; [reflexivity|]. cbn.
  rewrite (H a s (or_introl eq_refl)), IH; [reflexivity|].
  intros x s0 Hx. apply H. now right.
Qed.

Lemma filter_same {A : Type} (f : A -> bool) (l : list A) :
  (forall x, In x l -> f x = true) -> filter f l = l.
Proof.
  induction l as [|a l IH]; intro H; [reflexivity|]. cbn.
  rewrite (H a (or_introl eq_refl)), IH; [reflexivity|].
  intros x Hx. apply H. now right.
Qed.

(** X5. The set handlers and the remove button, given an exercise identifier the
    draft does not have: the draft is returned as it was and no identifier is
    generated.  The same holds for [updateSet] and [deleteSet] given a set
    identifier no set has (for [deleteSet], in a draft whose exercises all
    have sets). *)
Theorem edits_on_unknown_ids (exId setId : string) (f : SetField) (w : Workout)
        (s : IdSupply) :
  ((forall ex, In ex (w_exercises w) -> ex_id ex <> exId) ->
     updateSet_updated exId setId f w = w
     /\ addSet_updated exId w s = (w, s)
     /\ deleteSet_updated exId setId w s = (w, s)
     /\ removeExercise_updated exId w = w)
  /\ ((forall ex x, In ex (w_exercises w) -> In x (ex_sets ex) -> s_id x <> setId) ->
      updateSet_updated exId setId f w = w
      /\ (draft_ok w -> deleteSet_updated exId setId w s = (w, s))).
Proof.
  split.
  - intro H.
    assert (E : forall ex, In ex (w_exercises w) -> String.eqb (ex_id ex) exId = false).
    { intros ex Hin. apply String.eqb_neq. now apply H. }
    split; [|split; [|split]].
    + unfold updateSet_updated. rewrite map_same; [apply with_exercises_same|].
      intros ex Hin. now rewrite (E ex Hin).
    + unfold addSet_updated. rewrite map_ids_same; [now rewrite with_exercises_same|].
      intros ex s0 Hin. unfold addSet_exercise. now rewrite (E ex Hin).
    + unfold deleteSet_updated. rewrite map_ids_same; [now rewrite with_exercises_same|].
      intros ex s0 Hin. unfold deleteSet_exercise. now rewrite (E ex Hin).
    + unfold removeExercise_updated. rewrite filter_same; [apply with_exercises_same|].
      intros ex Hin. now rewrite (E ex Hin).
  - intro H.
    assert (E : forall ex x, In ex (w_exercises w) -> In x (ex_sets ex) ->
                             String.eqb (s_id x) setId = false).
    { intros ex x Hin Hx. apply String.eqb_neq. now apply (H ex x). }
    split.
    + unfold updateSet_updated. rewrite map_same; [apply with_exercises_same|].
      intros ex Hin. destruct (String.eqb (ex_id ex) exId); [|reflexivity].
      rewrite map_same; [apply with_sets_same|].
      intros x Hx. now rewrite (E ex x Hin Hx).
    + intro Hok. unfold deleteSet_updated.
      rewrite map_ids_same; [now rewrite with_exercises_same|].
      intros ex s0 Hin. unfold deleteSet_exercise.
      destruct (negb (String.eqb (ex_id ex) exId)); [reflexivity|].
      rewrite filter_same.
      * unfold draft_ok in Hok. rewrite Forall_forall in Hok.
        specialize (Hok ex Hin). unfold has_sets in Hok.
        destruct (ex_sets ex) eqn:Es; [contradiction|]. cbn.
        rewrite <- Es. now rewrite with_sets_same.
      * intros x Hx. now rewrite (E ex x Hin Hx).
Qed.

Lemma edits_on_unknown_ids_witness :
  addSet_updated "nope" sample_workout sample_ids = (sample_workout, sample_ids).
Proof.
  destruct (edits_on_unknown_ids "nope" "s1" (FieldReps 1) sample_workout sample_ids)
    as [H _].
  apply H. intros ex [Hex|[]]. subst ex. discriminate.
Defined.

(** ** Adding a set *)

Lemma last_set_snoc (ss : list WSet) (l : WSet) : last_set (ss ++ [l]) = Some l.
Proof.
  unfold last_set. rewrite length_app. cbn.
  replace (List.length ss + 1 - 1)%nat with (List.length ss) by lia.
  rewrite nth_error_app2 by lia. now rewrite Nat.sub_diag.
Qed.

(** X6. What [addSet] does to one exercise: the addressed exercise gets one more
    set, last, with a generated identifier, not completed, with the weight
    and reps of the set that was last (0 and 0 if it had no set); every other
    exercise is returned as it is and uses no identifier. *)
Theorem addSet_copies_last_set (exId : string) (ex : ExerciseInstance) (s : IdSupply) :
  (ex_id ex <> exId -> addSet_exercise exId ex s = (ex, s))
  /\ (ex_id ex = exId ->
      exists n,
        fst (addSet_exercise exId ex s) = with_sets (ex_sets ex ++ [n]) ex
        /\ snd (addSet_exercise exId ex s) = mkIds (gen s) (S (used s))
        /\ s_id n = gen s (used s) /\ s_completed n = false
        /\ (ex_sets ex = [] -> s_weight n = 0%Q /\ s_reps n = 0%Q)
        /\ (forall ss l, ex_sets ex = ss ++ [l] ->
              (s_weight n == s_weight l)%Q /\ (s_reps n == s_reps l)%Q)).
Proof.
  unfold addSet_exercise. split.
  - intro H. apply String.eqb_neq in H. now rewrite H.
  - intro H. rewrite H, String.eqb_refl. cbn.
    eexists. split; [reflexivity|]. split; [reflexivity|]. cbn.
    split; [reflexivity|]. split; [reflexivity|]. split.
    + intro E. unfold last_weight, last_reps. rewrite E. cbn. split; reflexivity.
    + intros ss l E. unfold last_weight, last_reps.
      rewrite E, last_set_snoc. split; apply num_or_zero.
Qed.

Lemma addSet_copies_last_set_witness :
  exists n, fst (addSet_exercise "e1" sample_exercise sample_ids)
            = with_sets (ex_sets sample_exercise ++ [n]) sample_exercise
            /\ (s_weight n == 60)%Q.
Proof.
  destruct (addSet_copies_last_set "e1" sample_exercise sample_ids) as [_ H].
  destruct H as (n & A & _ & _ & _ & _ & B); [reflexivity|].
  exists n. split; [exact A|].
  destruct (B [] sample_set eq_refl) as [Bw _]. exact Bw.
Defined.

(** ** The timer over a session *)

Lemma inject_Z_nonzero (t : Z) : t <> 0%Z -> ~ (inject_Z t == 0)%Q.
Proof.
  intros H E. apply H. unfold Qeq in E. cbn in E. lia.
Qed.

(** X7. Starting a paused, uncompleted timer at [t0] and stopping it at [t1] adds
    [(t1 - t0) / 1000] seconds; starting it again at [t2] and finishing at
    [t3] adds [(t3 - t2) / 1000] more and leaves the draft completed and
    paused.  (Clock values are non-zero: a zero [startTimestamp] reads as
    paused.) *)
Theorem timer_round_trip (w : Workout) (t0 t1 t2 t3 : Z) :
  w_startTimestamp w = None -> t0 <> 0%Z -> t2 <> 0%Z ->
  let a := toggleTimer_updated t1 (toggleTimer_updated t0 w) in
  let b := handleFinish_updated t3 (toggleTimer_updated t2 a) in
  w_startTimestamp a = None
  /\ (w_elapsedSeconds a == w_elapsedSeconds w + inject_Z (t1 - t0) / 1000)%Q
  /\ w_startTimestamp b = None /\ w_completed b = true
  /\ (w_elapsedSeconds b
      == w_elapsedSeconds w + inject_Z (t1 - t0) / 1000 + inject_Z (t3 - t2) / 1000)%Q
  /\ w_exercises b = w_exercises w.
Proof.
  intros Hp H0 H2 a b.
  assert (Ea : w_startTimestamp (toggleTimer_updated t0 w) = Some (inject_Z t0)
               /\ w_elapsedSeconds (toggleTimer_updated t0 w) = w_elapsedSeconds w).
  { rewrite (toggleTimer_updated_paused t0 w Hp). split; reflexivity. }
  destruct Ea as [Ea1 Ea2].
  destruct (toggleTimer_updated_running t1 _ _ Ea1 (inject_Z_nonzero t0 H0)) as [A1 A2].
  fold a in A1, A2. rewrite Ea2 in A2.
  assert (Eb : w_startTimestamp (toggleTimer_updated t2 a) = Some (inject_Z t2)
               /\ w_elapsedSeconds (toggleTimer_updated t2 a) = w_elapsedSeconds a).
  { rewrite (toggleTimer_updated_paused t2 a A1). split; reflexivity. }
  destruct Eb as [Eb1 Eb2].
  destruct (handleFinish_updated_elapsed t3 (toggleTimer_updated t2 a)) as [B _].
  specialize (B _ Eb1 (inject_Z_nonzero t2 H2)). fold b in B. rewrite Eb2 in B.
  split; [exact A1|]. split.
  { rewrite A2. unfold Zminus. rewrite inject_Z_plus, inject_Z_opp. reflexivity. }
  split; [reflexivity|]. split; [reflexivity|]. split.
  { rewrite B, A2. unfold Zminus. rewrite !inject_Z_plus, !inject_Z_opp. reflexivity. }
  subst b a. rewrite handleFinish_updated_exercises.
  now rewrite !toggleTimer_updated_exercises.
Qed.

Lemma timer_round_trip_witness :
  let w := mkWorkout "w3" "2024-01-03" "Legs" "" [sample_exercise] false 0 None in
  let a := toggleTimer_updated 6000 (toggleTimer_updated 1000 w) in
  let b := handleFinish_updated 9000 (toggleTimer_updated 6000 a) in
  (w_elapsedSeconds a == 5)%Q /\ (w_elapsedSeconds b == 8)%Q /\ w_completed b = true.
Proof.
  intros w a b.
  destruct (timer_round_trip w 1000 6000 6000 9000 eq_refl) as (_ & A & _ & C & B & _).
  - discriminate.
  - discriminate.
  - split; [eapply Qeq_trans; [exact A|reflexivity]|].
    split; [eapply Qeq_trans; [exact B|reflexivity]|exact C].
Defined.

(** ** The edit sequence number *)

Lemma commit_editSeq (wc sc : bool) (W : World) :
  editSeqRef (editor (commit wc sc W)) = editSeqRef (editor W).
Proof.
  unfold commit. destruct (negb (mounted W)); [reflexivity|].
  set (W1 := if wc then autosave_cleanup W else W).
  assert (H1 : editSeqRef (editor W1) = editSeqRef (editor W)).
  { subst W1. destruct wc; [|reflexivity].
    destruct (autosave_cleanup_frame W) as (_ & _ & _ & _ & E & _). cbn in E.
    now rewrite E. }
  assert (H2 : editSeqRef (editor (fst (if sc then hydration_effect W1 else (W1, None))))
               = editSeqRef (editor W)).
  { destruct sc; [|exact H1].
    destruct (hydration_effect_frame W1) as (_ & _ & _ & _ & _ & E & _). cbn in E.
    congruence. }
  destruct (if sc then hydration_effect W1 else (W1, None)) as [W2 req]. cbn in H2.
  set (W3 := if wc then autosave_effect W2 else W2).
  assert (H3 : editSeqRef (editor W3) = editSeqRef (editor W)).
  { subst W3. destruct wc; [|exact H2].
    destruct (autosave_effect_frame W2) as (_ & _ & _ & _ & _ & _ & _ & E & _).
    cbn in E. congruence. }
  destruct req as [w|]; [|exact H3].
  destruct (autosave_effect_frame (autosave_cleanup (setWorkout w W3)))
    as (_ & _ & _ & _ & _ & _ & _ & E & _). cbn in E. rewrite E.
  destruct (autosave_cleanup_frame (setWorkout w W3)) as (_ & _ & _ & _ & E' & _).
  cbn in E'. rewrite E'. exact H3.
Qed.

Lemma unmount_editSeq (W : World) :
  editSeqRef (editor (unmount W)) = editSeqRef (editor W).
Proof.
  unfold unmount. destruct (negb (mounted W)); [reflexivity|]. cbn.
  destruct (autosave_cleanup_frame W) as (_ & _ & _ & _ & E & _). cbn in E.
  now rewrite E.
Qed.

Lemma fire_editSeq (h : positive) (W : World) :
  editSeqRef (editor (fire h W)) = editSeqRef (editor W).
Proof.
  unfold fire. destruct (find _ (timers W)) as [t|]; [|reflexivity].
  destruct (due t <=? clock W)%Z; [|reflexivity].
  destruct (action t) as [|seq c ws]; cbn [run_action]; [reflexivity|].
  rewrite commit_editSeq. unfold autosave_callback, saveWorkoutToContext.
  destruct (existsb _ ws); destruct (seq =? _)%nat; reflexivity.
Qed.

(** X8. The edit sequence number moves by the local edits alone: a draft edit,
    an added exercise and a timer toggle on an uncompleted draft raise it by
    one; finishing, resuming, leaving, refreshes, route changes, timers, and
    a timer toggle on a completed draft leave it as it is.  It never
    decreases. *)
Theorem edit_sequence_counts_edits (t : Z) (ev : Event) (W : World) :
  editSeqRef (editor (step t ev W))
  = if mounted W
    then match ev with
         | Edit _ | AddExercise _ => S (editSeqRef (editor W))
         | ToggleTimer =>
             if w_completed (workout (editor W)) then editSeqRef (editor W)
             else S (editSeqRef (editor W))
         | _ => editSeqRef (editor W)
         end
    else editSeqRef (editor W).
Proof.
  unfold step. set (W0 := set_clock (Z.max (clock W) t) W).
  change (mounted W) with (mounted W0).
  change (editSeqRef (editor W)) with (editSeqRef (editor W0)).
  change (workout (editor W)) with (workout (editor W0)).
  assert (Save : forall ws u X,
             editSeqRef (editor (saveWorkoutToContext ws u X)) = editSeqRef (editor X)).
  { intros ws u X. unfold saveWorkoutToContext. destruct (existsb _ ws); reflexivity. }
  assert (Del : editSeqRef (editor (delete_if_stored W0)) = editSeqRef (editor W0)).
  { unfold delete_if_stored. destruct (in_store _ W0); reflexivity. }
  destruct ev as [op|defId| | | | |ws|id|h].
  - destruct (mounted W0); cbn [negb]; [|reflexivity].
    unfold handleEdit. destruct (edit_updated op _ _) as [u s1].
    now rewrite commit_editSeq.
  - destruct (mounted W0); cbn [negb]; [|reflexivity].
    unfold addExercise. destruct (addExercise_updated defId _ _) as [u s1].
    now rewrite commit_editSeq, Save.
  - destruct (mounted W0); cbn [negb]; [|reflexivity].
    unfold toggleTimer. destruct (w_completed _); [reflexivity|].
    destruct (0 <? _)%nat; rewrite commit_editSeq; [now rewrite Save|reflexivity].
  - destruct (mounted W0); cbn [negb]; [|reflexivity].
    unfold handleFinish. destruct (is_empty_draft _).
    + now rewrite unmount_editSeq.
    + now rewrite commit_editSeq, Save.
  - destruct (mounted W0); cbn [negb]; [|reflexivity].
    unfold handleResume. now rewrite commit_editSeq, Save.
  - destruct (mounted W0); cbn [negb]; [|reflexivity].
    unfold handleSaveBack. destruct (is_empty_draft _); rewrite unmount_editSeq.
    + exact Del.
    + apply Save.
  - unfold refresh. rewrite commit_editSeq. destruct (mounted W0); reflexivity.
  - destruct (mounted W0); cbn [negb]; [|reflexivity].
    unfold navigate. now rewrite commit_editSeq.
  - rewrite fire_editSeq. destruct (mounted W0); reflexivity.
Qed.

(** ** A loaded editor and the collection *)

(** X9. Once the route's identity is the loaded one, a refresh of the collection
    (or any number of them) never changes the editor, whether the draft is
    dirty or clean: changes made to the record elsewhere do not reach an open
    editor. *)
Theorem loaded_editor_ignores_refreshes (W : World) (id : string)
        (rs : list (Z * list Workout)) :
  route W = Some id -> loaded_is id (editor W) = true ->
  let W' := run (map (fun r => (fst r, Refresh (snd r))) rs) W in
  editor W' = editor W /\ timers W' = timers W /\ route W' = route W.
Proof.
  revert W. induction rs as [|[t ws] rs IH]; intros W Hr Hl; [repeat split|].
  cbn [map run fst snd].
  assert (E : step t (Refresh ws) W
              = set_provider (mkProvider (user (provider W)) ws (calls (provider W))
                                         (remote (provider W)))
                             (set_clock (Z.max (clock W) t) W)).
  { unfold step.
    apply (refresh_without_hydration ws (set_clock (Z.max (clock W) t) W)).
    apply hydration_skips_loaded with (id := id); assumption. }
  rewrite E.
  set (W1 := set_provider _ _).
  destruct (IH W1 Hr Hl) as (A & B & C).
  cbn zeta. rewrite A, B, C. repeat split.
Qed.

Lemma loaded_editor_ignores_refreshes_witness :
  workout (editor (run [(2000%Z, Refresh [sample_remote_workout])] sample_loaded_world))
  = sample_workout.
Proof.
  destruct (loaded_editor_ignores_refreshes sample_loaded_world "w1"
              [(2000%Z, [sample_remote_workout])] eq_refl eq_refl) as [E _].
  cbn [map fst snd] in E. rewrite E. reflexivity.
Defined.

(** ** Leaving with a draft that has exercises *)

Lemma saved_lookup (w : Workout) (W : World) :
  find (has_id (w_id w))
       (workouts (provider (saveWorkoutToContext (workouts (provider W)) w W)))
  = Some w.
Proof.
  unfold saveWorkoutToContext.
  destruct (existsb (has_id (w_id w)) (workouts (provider W))) eqn:E; cbn.
  - now apply find_update_present.
  - now apply find_app_absent.
Qed.

(** X10. The back button on a draft with exercises: the store receives exactly
    one write of the working copy (an update if its identifier is stored, an
    insert otherwise) and a lookup returns it; the editor unmounts and the
    pending debounce timer is cancelled. *)
Theorem save_back_flushes_once (W : World) (t : Z) :
  reachable W -> mounted W = true -> w_exercises (workout (editor W)) <> [] ->
  let w := workout (editor W) in
  let W' := step t SaveBack W in
  calls (provider W') = calls (provider W) ++ [flush_call (workouts (provider W)) w]
  /\ find (has_id (w_id w)) (workouts (provider W')) = Some w
  /\ mounted W' = false /\ autosave_timers W' = [].
Proof.
  intros R M Hne w W'.
  pose proof (reachable_Inv W R) as [T _].
  set (W0 := set_clock (Z.max (clock W) t) W).
  assert (E : is_empty_draft (workout (editor W0)) = false).
  { unfold is_empty_draft. change (workout (editor W0)) with (workout (editor W)).
    destruct (w_exercises (workout (editor W))); [contradiction|reflexivity]. }
  assert (HW : W' = unmount (saveWorkoutToContext (workouts (provider W0)) w W0)).
  { subst W'. unfold step. fold W0.
    assert (M0 : mounted W0 = true) by exact M. rewrite M0. cbn [negb].
    unfold handleSaveBack. now rewrite E. }
  assert (T1 : TimersOk (saveWorkoutToContext (workouts (provider W0)) w W0)).
  { apply saveWorkoutToContext_TimersOk. exact T. }
  destruct (unmount_no_autosave _ T1) as (T' & N' & M').
  rewrite HW. rewrite unmount_provider.
  split; [apply (saveWorkoutToContext_calls (workouts (provider W0)) w W0)|].
  split; [apply (saved_lookup w W0)|].
  split; [exact M'|]. now apply no_autosave_filter.
Qed.

Lemma save_back_flushes_once_witness :
  List.length (calls (provider (step 2000 SaveBack sample_dirty_world))) = 1%nat
  /\ autosave_timers (step 2000 SaveBack sample_dirty_world) = [].
Proof.
  destruct (save_back_flushes_once sample_dirty_world 2000) as (A & _ & _ & B).
  - unfold sample_dirty_world, sample_loaded_world. cbn [run].
    repeat apply reach_step. apply reach_mount.
  - reflexivity.
  - discriminate.
  - split; [rewrite A; reflexivity|exact B].
Defined.

(** ** The debounced flush and a collection that changed meanwhile *)

Lemma filter_has_id_absent (id : string) (ws : list Workout) :
  existsb (has_id id) ws = false -> filter (has_id id) ws = [].
Proof.
  induction ws as [|w ws IH]; intro H; [reflexivity|]. cbn in *.
  apply orb_false_iff in H. destruct H as [H1 H2]. rewrite H1. now apply IH.
Qed.

(** X11. The debounced flush chooses between insert and update by the collection
    of the render that scheduled the timer, not by the collection at the
    time it fires: the store ends as [saveWorkoutToContext] with the captured
    collection leaves it.  If that collection lacked the draft's identifier,
    the draft is appended even when a refresh has meanwhile stored a record
    with the identifier, which then occurs once more. *)
Theorem flush_decides_on_captured_collection
        (W : World) (t : Z) (tm : Timer) (seq : nat) (c : Workout) (ws : list Workout) :
  reachable W -> In tm (timers W) -> action tm = AutosaveFlush seq c ws ->
  (due tm <= t)%Z ->
  let W' := step t (TimerFires (handle tm)) W in
  provider W' = provider (saveWorkoutToContext ws c W)
  /\ (existsb (has_id (w_id c)) ws = false ->
      workouts (provider W') = workouts (provider W) ++ [c]
      /\ List.length (filter (has_id (w_id c)) (workouts (provider W')))
         = S (List.length (filter (has_id (w_id c)) (workouts (provider W)))))
  /\ (existsb (has_id (w_id c)) ws = true ->
      existsb (has_id (w_id c)) (workouts (provider W)) = false ->
      workouts (provider W') = workouts (provider W)).
Proof.
  intros R Hin Ha Hd W'.
  pose proof (reachable_Inv W R) as [T _].
  assert (P : provider W' = provider (saveWorkoutToContext ws c W)).
  { subst W'. rewrite step_fire. unfold fire. cbn [timers set_clock].
    rewrite (find_unique_handle (timers W) tm (proj1 T) Hin).
    cbn [clock set_clock].
    assert (L : (due tm <=? Z.max (clock W) t)%Z = true) by (apply Z.leb_le; lia).
    rewrite L, Ha. cbn [run_action]. rewrite commit_provider.
    unfold autosave_callback, saveWorkoutToContext.
    destruct (existsb _ ws); destruct (seq =? _)%nat; reflexivity. }
  split; [exact P|]. rewrite P. unfold saveWorkoutToContext. split.
  - intro E. rewrite E. cbn. split; [reflexivity|].
    rewrite filter_app, length_app. cbn. rewrite has_id_self. cbn. lia.
  - intros E Habs. rewrite E. cbn. now apply update_absent.
Qed.

Lemma flush_decides_on_captured_collection_witness :
  map w_id (workouts (provider (step 1650 (TimerFires 2%positive) sample_stale_world)))
  = ["w1"; "w1"].
Proof.
  destruct (flush_decides_on_captured_collection sample_stale_world 1650
              (mkTimer 2%positive 1650
                       (AutosaveFlush 1 (with_title "Pull day" sample_workout) []))
              1 (with_title "Pull day" sample_workout) []) as (_ & H & _).
  - unfold sample_stale_world, sample_loaded_world. cbn [run].
    repeat apply reach_step. apply reach_mount.
  - vm_compute. left. reflexivity.
  - reflexivity.
  - cbn. lia.
  - destruct H as [H _]; [reflexivity|].
    cbn [handle] in H. rewrite H. reflexivity.
Defined.

(** ** The offset of a swipeable row *)

Lemma js_max_le (a b : Q) : (a <= Js.max a b /\ b <= Js.max a b)%Q.
Proof.
  unfold Js.max. destruct (Qle_bool a b) eqn:E.
  - apply Qle_bool_iff in E. split; [exact E|apply Qle_refl].
  - split; [apply Qle_refl|]. apply Qlt_le_weak. apply Qnot_le_lt.
    intro H. apply Qle_bool_iff in H. congruence.
Qed.

Lemma js_min_le (a b : Q) : (Js.min a b <= a /\ Js.min a b <= b)%Q.
Proof.
  unfold Js.min. destruct (Qle_bool a b) eqn:E.
  - apply Qle_bool_iff in E. split; [apply Qle_refl|exact E].
  - split; [|apply Qle_refl]. apply Qlt_le_weak. apply Qnot_le_lt.
    intro H. apply Qle_bool_iff in H. congruence.
Qed.

Lemma clamp_bounds (v : Q) :
  (- Reveal.ACTION_WIDTH <= Js.max (- Reveal.ACTION_WIDTH) (Js.min Reveal.ACTION_WIDTH v)
   /\ Js.max (- Reveal.ACTION_WIDTH) (Js.min Reveal.ACTION_WIDTH v)
      <= Reveal.ACTION_WIDTH)%Q.
Proof.
  split; [apply js_max_le|].
  unfold Js.max.
  destruct (Qle_bool (- Reveal.ACTION_WIDTH) (Js.min Reveal.ACTION_WIDTH v)).
  - apply js_min_le.
  - discriminate.
Qed.

(** X12. [setOffset] keeps the offset within [[-ACTION_WIDTH, ACTION_WIDTH]] for
    every requested value, returns a value within the bounds unchanged, and
    returns exactly the bound for a value beyond it: the rubber-band term is
    clamped away. *)
Theorem setOffset_stays_in_bounds (x : Q) (it : Reveal.Item) :
  in_bounds (Reveal.setOffset x it)
  /\ ((- Reveal.ACTION_WIDTH <= x)%Q -> (x <= Reveal.ACTION_WIDTH)%Q ->
      (Reveal.offsetXRef (Reveal.setOffset x it) == x)%Q)
  /\ ((Reveal.ACTION_WIDTH < x)%Q ->
      Reveal.offsetXRef (Reveal.setOffset x it) = Reveal.ACTION_WIDTH)
  /\ ((x < - Reveal.ACTION_WIDTH)%Q ->
      Reveal.offsetXRef (Reveal.setOffset x it) = (- Reveal.ACTION_WIDTH)%Q).
Proof.
  split; [apply clamp_bounds|]. unfold Reveal.setOffset. cbn [Reveal.offsetXRef].
  split; [|split].
  - intros Lo Hi.
    rewrite (proj2 (js_gt_false_iff _ _) Hi).
    rewrite (proj2 (js_lt_false_iff _ _) Lo).
    unfold Js.max, Js.min.
    destruct (Qle_bool Reveal.ACTION_WIDTH x) eqn:E1.
    + apply Qle_bool_iff in E1. cbn. apply Qle_antisym; assumption.
    + destruct (Qle_bool (- Reveal.ACTION_WIDTH) x) eqn:E2; [reflexivity|].
      exfalso. apply Qle_bool_iff in Lo. congruence.
  - intro Hi. rewrite (proj2 (js_gt_iff _ _) Hi).
    set (v := (Reveal.ACTION_WIDTH + (x - Reveal.ACTION_WIDTH) * 0.12)%Q).
    assert (Hv : (Reveal.ACTION_WIDTH < v)%Q).
    { subst v. unfold Reveal.ACTION_WIDTH in *. lra. }
    assert (L : Js.lt v (- Reveal.ACTION_WIDTH) = false).
    { apply js_lt_false_iff. apply Qlt_le_weak.
      eapply Qlt_trans; [|exact Hv]. reflexivity. }
    rewrite L. unfold Js.min.
    rewrite (proj2 (Qle_bool_iff _ _) (Qlt_le_weak _ _ Hv)). reflexivity.
  - intro Lo.
    assert (G : Js.gt x Reveal.ACTION_WIDTH = false).
    { apply js_gt_false_iff. apply Qlt_le_weak.
      eapply Qlt_trans; [exact Lo|]. reflexivity. }
    rewrite G. rewrite (proj2 (js_lt_iff _ _) Lo).
    set (v := (- Reveal.ACTION_WIDTH + (x + Reveal.ACTION_WIDTH) * 0.12)%Q).
    assert (Hv : (v < - Reveal.ACTION_WIDTH)%Q).
    { subst v. unfold Reveal.ACTION_WIDTH in *. lra. }
    unfold Js.min, Js.max.
    assert (E1 : Qle_bool Reveal.ACTION_WIDTH v = false).
    { destruct (Qle_bool Reveal.ACTION_WIDTH v) eqn:E; [|reflexivity].
      apply Qle_bool_iff in E. exfalso.
      apply (Qlt_irrefl v). eapply Qlt_le_trans; [exact Hv|].
      eapply Qle_trans; [|exact E]. discriminate. }
    rewrite E1.
    destruct (Qle_bool (- Reveal.ACTION_WIDTH) v) eqn:E2; [|reflexivity].
    apply Qle_bool_iff in E2. exfalso. exact (Qlt_not_le _ _ Hv E2).
Qed.

Lemma setOffset_stays_in_bounds_witness :
  Reveal.offsetXRef (Reveal.setOffset 200 Reveal.initial) = Reveal.ACTION_WIDTH.
Proof.
  apply (setOffset_stays_in_bounds 200 Reveal.initial). reflexivity.
Defined.

Lemma row_step_in_bounds (ev : RowEvent) (it : Reveal.Item) :
  in_bounds it -> in_bounds (row_step ev it).
Proof.
  intro H. destruct ev as [x y now|x y|now|now| |]; cbn [row_step].
  - exact H.
  - unfold Reveal.handlePointerMove.
    destruct (negb (Reveal.isDragging it)); [exact H|].
    destruct (Reveal.lockedAxis it) as [[|]|].
    + apply clamp_bounds.
    + exact H.
    + destruct (_ && _); [exact H|]. destruct (Js.gt _ _); exact H.
  - unfold Reveal.handlePointerUp.
    destruct (negb (Reveal.isDragging it)); [exact H|].
    destruct (Reveal.lockedAxis it) as [[|]|].
    + unfold Reveal.settle. destruct (_ || _); [apply clamp_bounds|].
      destruct (_ || _); apply clamp_bounds.
    + destruct (negb _); [apply clamp_bounds|exact H].
    + destruct (negb _); [apply clamp_bounds|exact H].
  - unfold Reveal.handlePointerUp.
    destruct (negb (Reveal.isDragging it)); [exact H|].
    destruct (Reveal.lockedAxis it) as [[|]|].
    + unfold Reveal.settle. destruct (_ || _); [apply clamp_bounds|].
      destruct (_ || _); apply clamp_bounds.
    + destruct (negb _); [apply clamp_bounds|exact H].
    + destruct (negb _); [apply clamp_bounds|exact H].
  - unfold onClickCapture. destruct (negb _); [apply clamp_bounds|exact H].
  - apply clamp_bounds.
Qed.

(** X13. Whatever pointer events, clicks and button presses a row receives, its
    offset never leaves [[-ACTION_WIDTH, ACTION_WIDTH]]. *)
Theorem row_offset_never_leaves_bounds (evs : list RowEvent) (it : Reveal.Item) :
  in_bounds it -> in_bounds (row_run evs it).
Proof.
  revert it. induction evs as [|ev evs IH]; intros it H; [exact H|].
  cbn [row_run fold_left]. apply IH. apply row_step_in_bounds. exact H.
Qed.

Lemma row_offset_never_leaves_bounds_witness :
  in_bounds (row_run [RowDown 0 0 0; RowMove 300 0; RowMove 900 0; RowUp 40]
                     Reveal.initial).
Proof.
  apply (row_offset_never_leaves_bounds
           [RowDown 0 0 0; RowMove 300 0; RowMove 900 0; RowUp 40] Reveal.initial).
  split; discriminate.
Defined.

Lemma handlePointerUp_rests (now : Q) (it : Reveal.Item) :
  Reveal.isDragging it = true ->
  at_rest (Reveal.handlePointerUp now it)
  /\ Reveal.isDragging (Reveal.handlePointerUp now it) = false
  /\ Reveal.lockedAxis (Reveal.handlePointerUp now it) = None.
Proof.
  intro D. unfold Reveal.handlePointerUp. rewrite D. cbn [negb].
  assert (X : at_rest (Reveal.settle (Reveal.offsetXRef it) (Reveal.baseOffset it)
                         (now - Reveal.startTime it) (Reveal.setIsDragging false it))).
  { unfold Reveal.settle. destruct (_ || _).
    - right. left. reflexivity.
    - destruct (_ || _).
      + right. right. reflexivity.
      + left. reflexivity. }
  assert (T : at_rest (if negb (Qeq_bool (Reveal.offsetXRef it) 0)
                       then Reveal.close (Reveal.setIsDragging false it)
                       else Reveal.setIsDragging false it)).
  { destruct (Qeq_bool (Reveal.offsetXRef it) 0) eqn:E; cbn [negb].
    - left. apply Qeq_bool_iff in E. exact E.
    - left. reflexivity. }
  assert (XD : forall x b e, Reveal.isDragging
            (Reveal.settle x b e (Reveal.setIsDragging false it)) = false).
  { intros x b e. unfold Reveal.settle. destruct (_ || _); [reflexivity|].
    destruct (_ || _); reflexivity. }
  destruct (Reveal.lockedAxis it) as [[|]|]; cbn [Reveal.setLockedAxis at_rest
    Reveal.offsetXRef Reveal.isDragging Reveal.lockedAxis Reveal.setIsDragging].
  - split; [exact X|]. split; [apply XD|reflexivity].
  - split; [exact T|]. split; [|reflexivity]. destruct (negb _); reflexivity.
  - split; [exact T|]. split; [|reflexivity]. destruct (negb _); reflexivity.
Qed.

Lemma row_step_rests (ev : RowEvent) (it : Reveal.Item) :
  (Reveal.isDragging it = false -> at_rest it) ->
  Reveal.isDragging (row_step ev it) = false -> at_rest (row_step ev it).
Proof.
  intros H. destruct ev as [x y now|x y|now|now| |]; cbn [row_step].
  - cbn. discriminate.
  - unfold Reveal.handlePointerMove.
    destruct (Reveal.isDragging it) eqn:D; cbn [negb]; [|intros _; apply H; reflexivity].
    destruct (Reveal.lockedAxis it) as [[|]|].
    + cbn. congruence.
    + congruence.
    + destruct (_ && _); [congruence|]. destruct (Js.gt _ _); cbn; congruence.
  - destruct (Reveal.isDragging it) eqn:D.
    + intros _. apply handlePointerUp_rests. exact D.
    + unfold Reveal.handlePointerUp. rewrite D. cbn [negb]. intros _. apply H. reflexivity.
  - destruct (Reveal.isDragging it) eqn:D.
    + intros _. apply handlePointerUp_rests. exact D.
    + unfold Reveal.handlePointerUp. rewrite D. cbn [negb]. intros _. apply H. reflexivity.
  - unfold onClickCapture.
    destruct (Qeq_bool (Reveal.offsetXRef it) 0) eqn:E; cbn [negb].
    + intros _. left. apply Qeq_bool_iff in E. exact E.
    + intros _. left. reflexivity.
  - intros _. left. reflexivity.
Qed.

(** X14. A row that is not being dragged is always at one of its three rest
    positions: closed, opened by exactly [ACTION_WIDTH] to the right, or by
    exactly [ACTION_WIDTH] to the left.  This holds after any sequence of
    pointer events, clicks and button presses. *)
Theorem released_row_is_at_rest (evs : list RowEvent) (it : Reveal.Item) :
  (Reveal.isDragging it = false -> at_rest it) ->
  Reveal.isDragging (row_run evs it) = false ->
  at_rest (row_run evs it).
Proof.
  revert it. induction evs as [|ev evs IH]; intros it H; [exact H|].
  cbn [row_run fold_left]. apply IH. apply row_step_rests. exact H.
Qed.

Lemma released_row_is_at_rest_witness :
  at_rest (row_run [RowDown 0 0 0; RowMove 10 0; RowMove 40 0; RowUp 40] Reveal.initial).
Proof.
  apply (released_row_is_at_rest
           [RowDown 0 0 0; RowMove 10 0; RowMove 40 0; RowUp 40] Reveal.initial).
  - intros _. left. reflexivity.
  - reflexivity.
Defined.

(** X15. Once the axis of a drag is locked to vertical, no later movement of the
    same gesture drags the row, however far it goes sideways. *)
Theorem vertical_drag_never_moves_row (it : Reveal.Item) (x0 y0 t0 x1 y1 : Q)
      (moves : list (Q * Q)) :
  (6 <= Qabs (x1 - x0) \/ 6 <= Qabs (y1 - y0))%Q ->
  (Qabs (x1 - x0) <= Qabs (y1 - y0) * 1.2)%Q ->
  let it' := row_run (RowDown x0 y0 t0 :: RowMove x1 y1
                      :: map (fun p => RowMove (fst p) (snd p)) moves) it in
  Reveal.offsetXRef it' = Reveal.offsetXRef it
  /\ Reveal.lockedAxis it' = Some Reveal.AxisY.
Proof.
  intros Far Steep. cbn zeta.
  assert (L : row_run [RowDown x0 y0 t0; RowMove x1 y1] it
              = Reveal.setLockedAxis (Some Reveal.AxisY)
                  (Reveal.handlePointerDown x0 y0 t0 it)).
  { cbn [row_run fold_left row_step]. unfold Reveal.handlePointerMove.
    cbn [Reveal.handlePointerDown Reveal.isDragging Reveal.lockedAxis Reveal.start
         negb fst snd].
    assert (N : Js.lt (Qabs (x1 - x0)) 6 && Js.lt (Qabs (y1 - y0)) 6 = false).
    { destruct Far as [F|F].
      - rewrite (proj2 (js_lt_false_iff _ _) F). reflexivity.
      - rewrite (proj2 (js_lt_false_iff _ _) F). apply andb_false_r. }
    rewrite N. rewrite (proj2 (js_gt_false_iff _ _) Steep). reflexivity. }
  change (RowDown x0 y0 t0 :: RowMove x1 y1 :: map (fun p => RowMove (fst p) (snd p)) moves)
    with ([RowDown x0 y0 t0; RowMove x1 y1] ++ map (fun p => RowMove (fst p) (snd p)) moves).
  unfold row_run in *. rewrite fold_left_app. rewrite L.
  set (j := Reveal.setLockedAxis (Some Reveal.AxisY) (Reveal.handlePointerDown x0 y0 t0 it)).
  assert (K : forall ms, fold_left (fun i ev => row_step ev i)
                (map (fun p => RowMove (fst p) (snd p)) ms) j = j).
  { induction ms as [|m ms IH]; [reflexivity|]. cbn [map fold_left row_step].
    replace (Reveal.handlePointerMove (fst m) (snd m) j) with j by reflexivity.
    exact IH. }
  rewrite K. split; reflexivity.
Qed.

Lemma vertical_drag_never_moves_row_witness :
  Reveal.offsetXRef
    (row_run (RowDown 0 0 0 :: RowMove 2 30
              :: map (fun p => RowMove (fst p) (snd p)) [(200, 31); (-300, 40)])
             Reveal.initial) = 0%Q.
Proof.
  apply (vertical_drag_never_moves_row Reveal.initial 0 0 0 2 30 [(200, 31); (-300, 40)]%Q).
  - right. discriminate.
  - discriminate.
Defined.

(** ** Long press: presses that are abandoned, and taps *)

Lemma idle_step (ms now : Z) (ev : LongPress.Event) (h : LongPress.Hook) :
  idle h -> is_pointer_down ev = false ->
  idle (LongPress.render ms now false (LongPress.step ms now ev h))
  /\ LongPress.fired (LongPress.render ms now false (LongPress.step ms now ev h))
     = LongPress.fired h.
Proof.
  destruct h as [st q tr sp ps nh fr]. unfold idle. cbn.
  intros (-> & -> & ->) D.
  destruct ev as [x y|x y| | |k|d]; try discriminate; cbn.
  - destruct sp as [[sx sy]|]; cbn; auto.
  - auto.
  - auto.
  - auto.
  - destruct d; cbn; [|auto]. destruct tr; cbn; auto.
Qed.

Lemma idle_run (ms : Z) (evs : list (Z * LongPress.Event)) (h : LongPress.Hook) :
  idle h -> pointer_downs evs = 0%nat ->
  LongPress.fired (rendered_run ms evs h) = LongPress.fired h.
Proof.
  revert h. induction evs as [|[now ev] evs IH]; intros h I P; [reflexivity|].
  cbn [rendered_run]. unfold pointer_downs in P. cbn [filter snd] in P.
  destruct (is_pointer_down ev) eqn:D; [discriminate|].
  destruct (idle_step ms now ev h I D) as [I' F].
  rewrite (IH _ I' P). exact F.
Qed.

Lemma down_from_idle (ms t0 : Z) (x y : Q) (h : LongPress.Hook) :
  idle h ->
  LongPress.render ms t0 false (LongPress.onPointerDown x y h)
  = LongPress.mkHook true None (Some (LongPress.nextHandle h)) (Some (x, y))
      [(LongPress.nextHandle h, (t0 + ms)%Z)]
      (Pos.succ (LongPress.nextHandle h)) (LongPress.fired h).
Proof.
  destruct h as [st q tr sp ps nh fr]. unfold idle. cbn.
  intros (-> & -> & ->). destruct tr; reflexivity.
Qed.

Lemma abandon_to_idle (ms t1 : Z) (x y : Q) (ev : LongPress.Event)
      (k n : positive) (d : Z) (fr : list LongPress.Callback) :
  abandons x y ev ->
  let h := LongPress.mkHook true None (Some k) (Some (x, y)) [(k, d)] n fr in
  idle (LongPress.render ms t1 false (LongPress.step ms t1 ev h))
  /\ LongPress.fired (LongPress.render ms t1 false (LongPress.step ms t1 ev h)) = fr.
Proof.
  intros A h. subst h.
  destruct ev as [x' y'|x' y'| | |k'|b]; cbn [abandons] in A; try contradiction.
  - assert (G : Js.gt (Qabs (x' - x)) 10 || Js.gt (Qabs (y' - y)) 10 = true).
    { destruct A as [A|A].
      - rewrite (proj2 (js_gt_iff _ _) A). reflexivity.
      - rewrite (proj2 (js_gt_iff _ _) A). apply orb_true_r. }
    cbn [LongPress.step LongPress.onPointerMove LongPress.startPos
         LongPress.startLongPress].
    rewrite G. unfold idle. cbn. rewrite Pos.eqb_refl. cbn. auto.
  - unfold idle. cbn. rewrite Pos.eqb_refl. cbn. auto.
Qed.

(** X16. A press that is abandoned, by leaving the element or by moving more than
    10 px away, invokes neither callback: not then, not when the timeout
    would have run, and not at the pointer-up that follows. *)
Theorem abandoned_press_fires_nothing (ms t0 t1 : Z) (x y : Q)
      (ev : LongPress.Event) (evs : list (Z * LongPress.Event))
      (h : LongPress.Hook) :
  idle h -> abandons x y ev -> pointer_downs evs = 0%nat ->
  LongPress.fired
    (rendered_run ms ((t0, LongPress.PointerDown x y) :: (t1, ev) :: evs) h)
  = LongPress.fired h.
Proof.
  intros I A P. cbn [rendered_run LongPress.step].
  rewrite (down_from_idle ms t0 x y h I).
  destruct (abandon_to_idle ms t1 x y ev (LongPress.nextHandle h)
              (Pos.succ (LongPress.nextHandle h)) (t0 + ms)%Z (LongPress.fired h) A)
    as [I' F].
  rewrite (idle_run ms evs _ I' P). exact F.
Qed.

Lemma abandoned_press_fires_nothing_witness :
  LongPress.fired
    (rendered_run 500 [(0%Z, LongPress.PointerDown 5 5);
                       (100%Z, LongPress.PointerMove 5 20);
                       (500%Z, LongPress.TimerFires 1%positive);
                       (900%Z, LongPress.PointerUp)]
                  LongPress.initial) = [].
Proof.
  apply (abandoned_press_fires_nothing 500 0 100 5 5 (LongPress.PointerMove 5 20)
           [(500%Z, LongPress.TimerFires 1%positive); (900%Z, LongPress.PointerUp)]
           LongPress.initial).
  - repeat split.
  - right. reflexivity.
  - reflexivity.
Defined.

Lemma jitter_keeps_press (ms : Z) (x y : Q) (moves : list (Z * (Q * Q)))
      (k n : positive) (d : Z) (fr : list LongPress.Callback) :
  Forall (within_tolerance x y) moves ->
  let h := LongPress.mkHook true None (Some k) (Some (x, y)) [(k, d)] n fr in
  forall rest, rendered_run ms (jitter x y moves ++ rest) h = rendered_run ms rest h.
Proof.
  intros F h rest. induction F as [|[t [mx my]] moves [Hx Hy] F IH]; [reflexivity|].
  cbn [jitter map app rendered_run fst snd]. cbn [fst snd] in Hx, Hy.
  replace (LongPress.render ms t false (LongPress.step ms t (LongPress.PointerMove mx my) h))
    with h; [exact IH|].
  subst h. cbn [LongPress.step LongPress.onPointerMove LongPress.startPos
                LongPress.startLongPress].
  rewrite (proj2 (js_gt_false_iff _ _) Hx), (proj2 (js_gt_false_iff _ _) Hy).
  reflexivity.
Qed.

(** X17. A press released before its timeout runs invokes the tap callback and
    nothing else, also when the pointer trembled within 10 px in between; the
    timeout is cleared and never invokes the long-press callback later. *)
Theorem released_press_taps_once (ms t0 t1 : Z) (x y : Q)
      (moves : list (Z * (Q * Q))) (evs : list (Z * LongPress.Event))
      (h : LongPress.Hook) :
  idle h -> Forall (within_tolerance x y) moves -> pointer_downs evs = 0%nat ->
  LongPress.fired
    (rendered_run ms ((t0, LongPress.PointerDown x y)
                      :: jitter x y moves ++ (t1, LongPress.PointerUp) :: evs) h)
  = LongPress.fired h ++ [LongPress.OnTap].
Proof.
  intros I J P. cbn [rendered_run LongPress.step].
  rewrite (down_from_idle ms t0 x y h I).
  rewrite (jitter_keeps_press ms x y moves _ _ _ _ J).
  cbn [rendered_run]. rewrite idle_run; [| |exact P].
  - cbn. rewrite ?Pos.eqb_refl. reflexivity.
  - unfold idle. cbn. rewrite ?Pos.eqb_refl. cbn. auto.
Qed.

Lemma released_press_taps_once_witness :
  LongPress.fired
    (rendered_run 500 ((0%Z, LongPress.PointerDown 5 5)
                       :: jitter 5 5 [(50%Z, (8, 3)%Q)]
                       ++ (120%Z, LongPress.PointerUp)
                       :: [(500%Z, LongPress.TimerFires 1%positive)])
                  LongPress.initial) = [LongPress.OnTap].
Proof.
  apply (released_press_taps_once 500 0 120 5 5 [(50%Z, (8, 3)%Q)]
           [(500%Z, LongPress.TimerFires 1%positive)] LongPress.initial).
  - repeat split.
  - constructor; [|constructor]. split; discriminate.
  - reflexivity.
Defined.

(** ** The dashboard's stack of cards *)

Lemma top_card_in_range (today : string) (ws : list Workout) (top : Z) :
  Dashboard.top_card today ws top <> None
  <-> (0 <= top < Z.of_nat (List.length (Dashboard.todaysActiveWorkouts today ws)))%Z.
Proof.
  unfold Dashboard.top_card. destruct (top <? 0)%Z eqn:E.
  - apply Z.ltb_lt in E. split; [congruence|lia].
  - apply Z.ltb_ge in E. rewrite nth_error_Some. lia.
Qed.

Lemma swipe_in_range (n : Z) (d : Swipe.Direction) (top : Z) :
  (0 <= top < n)%Z -> (0 <= Dashboard.swipe n d top < n)%Z.
Proof.
  intro H. destruct d; cbn [Dashboard.swipe]; try exact H.
  - unfold Dashboard.onSwipeUp. destruct (n >? 1)%Z; [|exact H].
    apply Z.rem_bound_pos; lia.
  - unfold Dashboard.onSwipeDown. destruct (n >? 1)%Z; [|exact H].
    apply Z.rem_bound_pos; lia.
Qed.

Lemma stack_pointer_up_in_range (today : string) (ws : list Workout)
      (h : Swipe.Hook) (top : Z) :
  (0 <= top < Z.of_nat (List.length (Dashboard.todaysActiveWorkouts today ws)))%Z ->
  (0 <= Dashboard.stack_pointer_up today ws h top
   < Z.of_nat (List.length (Dashboard.todaysActiveWorkouts today ws)))%Z.
Proof.
  unfold Dashboard.stack_pointer_up. cbn zeta.
  generalize (Swipe.onPointerUp Dashboard.stack_callbacks h). intro ds.
  revert top. induction ds as [|d ds IH]; intros top H; [exact H|].
  cbn [fold_left]. apply IH. apply swipe_in_range. exact H.
Qed.

(** X19. While the list of today's plans stays the same, no sequence of gestures
    on the stack moves [topCardIndex] off the list: some card is always the
    one rendered on top. *)
Theorem stack_always_shows_a_card (today : string) (ws : list Workout)
      (gestures : list Swipe.Hook) (top : Z) :
  Dashboard.top_card today ws top <> None ->
  Dashboard.top_card today ws
    (fold_left (fun i h => Dashboard.stack_pointer_up today ws h i) gestures top)
  <> None.
Proof.
  rewrite !top_card_in_range. revert top.
  induction gestures as [|h hs IH]; intros top H; [exact H|].
  cbn [fold_left]. apply IH. apply stack_pointer_up_in_range. exact H.
Qed.

Lemma js_lt_50_false (d : Q) : (50 <= d \/ d <= -50)%Q -> Js.lt (Qabs d) 50 = false.
Proof.
  intro H. apply js_lt_false_iff. destruct H as [H|H].
  - eapply Qle_trans; [exact H|]. apply Qle_Qabs.
  - rewrite <- Qabs_opp. eapply Qle_trans; [|apply Qle_Qabs]. lra.
Qed.

(** X20. What one gesture does to the stack: a sideways drag or a short one
    leaves the top card alone, a drag of 50 px or more upwards shows the next
    card and one downwards the previous card, wrapping around. *)
Theorem stack_gesture_outcome (today : string) (ws : list Workout)
      (sx sy ex ey : Q) (top : Z) :
  let n := Z.of_nat (List.length (Dashboard.todaysActiveWorkouts today ws)) in
  let top' := Dashboard.stack_pointer_up today ws
                (Swipe.mkHook (Some (sx, sy)) (Some (ex, ey))) top in
  (0 <= top < n)%Z ->
  ((Qabs (sy - ey) < Qabs (sx - ex))%Q -> top' = top)
  /\ ((Qabs (sx - ex) <= Qabs (sy - ey))%Q -> (Qabs (sy - ey) < 50)%Q -> top' = top)
  /\ ((Qabs (sx - ex) <= Qabs (sy - ey))%Q -> (50 <= sy - ey)%Q ->
      top' = ((top + 1) mod n)%Z)
  /\ ((Qabs (sx - ex) <= Qabs (sy - ey))%Q -> (sy - ey <= -50)%Q ->
      top' = ((top - 1) mod n)%Z).
Proof.
  intros n top' R. subst top'. unfold Dashboard.stack_pointer_up. cbn zeta. fold n.
  split; [|split; [|split]].
  - intro H. rewrite (swipe_horizontal _ _ _ _ _ H). cbn [Dashboard.stack_callbacks
      Swipe.onSwipeLeft Swipe.onSwipeRight]. rewrite !andb_false_r.
    destruct (Js.lt _ _); reflexivity.
  - intros H S. rewrite (swipe_vertical _ _ _ _ _ H).
    rewrite (proj2 (js_lt_iff _ _) S). reflexivity.
  - intros H U. rewrite (swipe_vertical _ _ _ _ _ H).
    rewrite (js_lt_50_false _ (or_introl U)).
    assert (G : Js.gt (sy - ey) 0 = true) by (apply js_gt_iff; lra).
    assert (L : Js.lt (sy - ey) 0 = false) by (apply js_lt_false_iff; lra).
    rewrite G, L. cbn. unfold Dashboard.onSwipeUp.
    destruct (Z.gtb_spec n 1) as [E|E].
    + apply Z.rem_mod_nonneg; lia.
    + assert (n = 1%Z) by lia. assert (top = 0%Z) by lia. subst top.
      replace n with 1%Z. reflexivity.
  - intros H D. rewrite (swipe_vertical _ _ _ _ _ H).
    rewrite (js_lt_50_false _ (or_intror D)).
    assert (G : Js.gt (sy - ey) 0 = false) by (apply js_gt_false_iff; lra).
    assert (L : Js.lt (sy - ey) 0 = true) by (apply js_lt_iff; lra).
    rewrite G, L. cbn. unfold Dashboard.onSwipeDown.
    destruct (Z.gtb_spec n 1) as [E|E].
    + rewrite Z.rem_mod_nonneg by lia.
      replace (top - 1 + n)%Z with (top - 1 + 1 * n)%Z by lia.
      apply Z.mod_add. lia.
    + assert (n = 1%Z) by lia. assert (top = 0%Z) by lia. subst top.
      replace n with 1%Z. reflexivity.
Qed.

Lemma stack_always_shows_a_card_witness :
  Dashboard.top_card "2024-01-02" sample_plans
    (fold_left (fun i h => Dashboard.stack_pointer_up "2024-01-02" sample_plans h i)
               [Swipe.mkHook (Some (10, 200)) (Some (12, 80));
                Swipe.mkHook (Some (10, 200)) (Some (12, 80));
                Swipe.mkHook (Some (10, 80)) (Some (200, 90))]%Q 0%Z)
  <> None.
Proof.
  apply (stack_always_shows_a_card "2024-01-02" sample_plans
           [Swipe.mkHook (Some (10, 200)) (Some (12, 80));
            Swipe.mkHook (Some (10, 200)) (Some (12, 80));
            Swipe.mkHook (Some (10, 80)) (Some (200, 90))]%Q 0%Z).
  discriminate.
Defined.

Lemma stack_gesture_outcome_witness :
  Dashboard.stack_pointer_up "2024-01-02" sample_plans
    (Swipe.mkHook (Some (10, 200)) (Some (12, 80))%Q) 1%Z = 0%Z.
Proof.
  refine (proj1 (proj2 (proj2
            (stack_gesture_outcome "2024-01-02" sample_plans 10 200 12 80 1%Z _))) _ _).
  - cbn. lia.
  - discriminate.
  - discriminate.
Defined.

Lemma iter_onSwipeUp (n : Z) (k : nat) (top : Z) :
  (1 < n)%Z -> (0 <= top < n)%Z ->
  Nat.iter k (Dashboard.onSwipeUp n) top = ((top + Z.of_nat k) mod n)%Z.
Proof.
  intros N R. induction k as [|k IH].
  - cbn. rewrite Z.add_0_r. symmetry. apply Z.mod_small. exact R.
  - rewrite Nat.iter_succ, IH. unfold Dashboard.onSwipeUp.
    rewrite (proj2 (Z.gtb_lt n 1) N).
    assert (B : (0 <= (top + Z.of_nat k) mod n < n)%Z) by (apply Z.mod_pos_bound; lia).
    rewrite Z.rem_mod_nonneg by lia.
    rewrite Zplus_mod_idemp_l. f_equal. lia.
Qed.

(** X21. Swiping the stack up and then down, or down and then up, comes back to
    the same card, and as many swipes up as there are cards go once round. *)
Theorem stack_swipes_cycle (n top : Z) :
  (0 <= top < n)%Z ->
  Dashboard.onSwipeDown n (Dashboard.onSwipeUp n top) = top
  /\ Dashboard.onSwipeUp n (Dashboard.onSwipeDown n top) = top
  /\ Nat.iter (Z.to_nat n) (Dashboard.onSwipeUp n) top = top.
Proof.
  intro R. destruct (Z.gtb_spec n 1) as [N|N].
  - assert (G : (n >? 1)%Z = true) by (apply Z.gtb_lt; exact N).
    split; [|split].
    + unfold Dashboard.onSwipeDown, Dashboard.onSwipeUp. rewrite G.
      rewrite (Z.rem_mod_nonneg (top + 1) n) by lia.
      assert (B : (0 <= (top + 1) mod n < n)%Z) by (apply Z.mod_pos_bound; lia).
      rewrite Z.rem_mod_nonneg by lia.
      replace ((top + 1) mod n - 1 + n)%Z with ((top + 1) mod n + (n - 1))%Z by lia.
      rewrite Zplus_mod_idemp_l.
      replace (top + 1 + (n - 1))%Z with (top + 1 * n)%Z by lia.
      rewrite Z.mod_add by lia. apply Z.mod_small. exact R.
    + unfold Dashboard.onSwipeDown, Dashboard.onSwipeUp. rewrite G.
      rewrite (Z.rem_mod_nonneg (top - 1 + n) n) by lia.
      assert (B : (0 <= (top - 1 + n) mod n < n)%Z) by (apply Z.mod_pos_bound; lia).
      rewrite Z.rem_mod_nonneg by lia.
      rewrite Zplus_mod_idemp_l.
      replace (top - 1 + n + 1)%Z with (top + 1 * n)%Z by lia.
      rewrite Z.mod_add by lia. apply Z.mod_small. exact R.
    + rewrite iter_onSwipeUp by lia. rewrite Z2Nat.id by lia.
      replace (top + n)%Z with (top + 1 * n)%Z by lia.
      rewrite Z.mod_add by lia. apply Z.mod_small. exact R.
  - assert (n = 1%Z) by lia. subst n. assert (top = 0%Z) by lia. subst top.
    repeat split.
Qed.

Lemma stack_swipes_cycle_witness :
  Dashboard.onSwipeDown 3 (Dashboard.onSwipeUp 3 2) = 2%Z.
Proof.
  apply (stack_swipes_cycle 3 2). lia.
Defined.

(** X22. Copying a workout onto today's date, whether the original is completed
    or not, appends an open copy to today's plans, and the card that was on
    top of the stack stays on top. *)
Theorem copy_onto_today_joins_the_stack (newId id today : string) (p : Provider)
      (source : Workout) (top : Z) :
  id <> "" ->
  find (has_id id) (workouts p) = Some source ->
  let p' := Dashboard.confirmCopy newId (Some id) today p in
  Dashboard.todaysActiveWorkouts today (workouts p')
  = Dashboard.todaysActiveWorkouts today (workouts p) ++ [copy_of newId today source]
  /\ (Dashboard.top_card today (workouts p) top <> None ->
      Dashboard.top_card today (workouts p') top
      = Dashboard.top_card today (workouts p) top).
Proof.
  intros N F p'.
  assert (E : Dashboard.todaysActiveWorkouts today (workouts p')
              = Dashboard.todaysActiveWorkouts today (workouts p)
                ++ [copy_of newId today source]).
  { subst p'. unfold Dashboard.confirmCopy.
    rewrite (proj2 (String.eqb_neq id "") N).
    unfold copyWorkout. rewrite F. cbn [addWorkout workouts].
    unfold Dashboard.todaysActiveWorkouts. rewrite filter_app. f_equal.
    cbn. rewrite String.eqb_refl. reflexivity. }
  split; [exact E|].
  intro T. pose proof (proj1 (top_card_in_range _ _ _) T) as R.
  unfold Dashboard.top_card in *. rewrite E.
  destruct (top <? 0)%Z; [reflexivity|].
  apply nth_error_app1. lia.
Qed.

Lemma copy_onto_today_joins_the_stack_witness :
  Dashboard.todaysActiveWorkouts "2024-01-02"
    (workouts (Dashboard.confirmCopy "c1" (Some "w1") "2024-01-02"
                 (mkProvider true sample_plans [] [])))
  = Dashboard.todaysActiveWorkouts "2024-01-02" sample_plans
    ++ [copy_of "c1" "2024-01-02" sample_workout].
Proof.
  apply (copy_onto_today_joins_the_stack "c1" "w1" "2024-01-02"
           (mkProvider true sample_plans [] []) sample_workout 0%Z).
  - discriminate.
  - reflexivity.
Defined.

(** ** The figures of the session report *)

Lemma fold_sets_shift (f : ExerciseInstance -> Z) (exs : list ExerciseInstance) (a : Z) :
  fold_left (fun acc ex => (acc + f ex)%Z) exs a
  = (a + fold_left (fun acc ex => (acc + f ex)%Z) exs 0)%Z.
Proof.
  revert a. induction exs as [|ex exs IH]; intro a; cbn [fold_left]; [lia|].
  rewrite (IH (a + f ex)%Z), (IH (0 + f ex)%Z). lia.
Qed.

Lemma completed_at_most_total (w : Workout) :
  (0 <= completedSets w <= totalSets w)%Z.
Proof.
  unfold completedSets, totalSets.
  induction (w_exercises w) as [|ex exs IH]; cbn [fold_left]; [lia|].
  rewrite (fold_sets_shift (fun ex => Z.of_nat (List.length (filter s_completed (ex_sets ex))))),
          (fold_sets_shift (fun ex => Z.of_nat (List.length (ex_sets ex)))).
  pose proof (filter_length_le s_completed (ex_sets ex)). lia.
Qed.

Lemma all_completed_total (w : Workout) :
  (forall ex s, In ex (w_exercises w) -> In s (ex_sets ex) -> s_completed s = true) ->
  completedSets w = totalSets w.
Proof.
  unfold completedSets, totalSets.
  induction (w_exercises w) as [|ex exs IH]; intro H; [reflexivity|].
  cbn [fold_left].
  rewrite (fold_sets_shift (fun ex => Z.of_nat (List.length (filter s_completed (ex_sets ex))))),
          (fold_sets_shift (fun ex => Z.of_nat (List.length (ex_sets ex)))).
  rewrite IH by (intros e s He Hs; apply (H e s); [right; exact He|exact Hs]).
  replace (filter s_completed (ex_sets ex)) with (ex_sets ex); [reflexivity|].
  symmetry. apply forallb_filter_id. apply forallb_forall.
  intros s Hs. apply (H ex s); [left; reflexivity|exact Hs].
Qed.

(** *** Doubles: the conversion of a positive integer is positive *)

Lemma shr_1_m (r : shr_record) :
  (0 <= shr_m r)%Z -> shr_m (shr_1 r) = Z.div2 (shr_m r).
Proof.
  destruct r as [m rr ss]. cbn. destruct m as [|[p|p|]|p]; cbn; try reflexivity; lia.
Qed.

Lemma iter_shr_m (n : positive) (r : shr_record) :
  (0 <= shr_m r)%Z -> shr_m (iter_pos shr_1 n r) = Z.shiftr (shr_m r) (Z.pos n).
Proof.
  revert r. induction n as [n IH|n IH|]; intros r H; cbn [iter_pos].
  - assert (H1 : (0 <= shr_m (shr_1 r))%Z).
    { rewrite shr_1_m by exact H. apply Z.div2_nonneg. exact H. }
    assert (H2 : (0 <= shr_m (iter_pos shr_1 n (shr_1 r)))%Z).
    { rewrite IH by exact H1. apply Z.shiftr_nonneg. exact H1. }
    rewrite IH by exact H2. rewrite IH by exact H1. rewrite shr_1_m by exact H.
    rewrite Z.div2_spec. rewrite !Z.shiftr_shiftr by lia. f_equal. lia.
  - assert (H2 : (0 <= shr_m (iter_pos shr_1 n r))%Z).
    { rewrite IH by exact H. apply Z.shiftr_nonneg. exact H. }
    rewrite IH by exact H2. rewrite IH by exact H.
    rewrite Z.shiftr_shiftr by lia. f_equal. lia.
  - rewrite shr_1_m by exact H. apply Z.div2_spec.
Qed.

Lemma digits2_lower (q : positive) : (2 ^ (Z.pos (digits2_pos q) - 1) <= Z.pos q)%Z.
Proof.
  induction q as [q IH|q IH|]; cbn [digits2_pos].
  - rewrite Pos2Z.inj_succ. replace (Z.succ (Z.pos (digits2_pos q)) - 1)%Z
      with (Z.succ (Z.pos (digits2_pos q) - 1))%Z by lia.
    rewrite Z.pow_succ_r by lia. lia.
  - rewrite Pos2Z.inj_succ. replace (Z.succ (Z.pos (digits2_pos q)) - 1)%Z
      with (Z.succ (Z.pos (digits2_pos q) - 1))%Z by lia.
    rewrite Z.pow_succ_r by lia. lia.
  - cbn. lia.
Qed.

Lemma shiftr_pos (q n : positive) :
  (Z.pos n < Z.pos (digits2_pos q))%Z ->
  exists q', Z.shiftr (Z.pos q) (Z.pos n) = Z.pos q'.
Proof.
  intro H. rewrite Z.shiftr_div_pow2 by lia.
  assert (L : (2 ^ Z.pos n <= Z.pos q)%Z).
  { eapply Z.le_trans; [|apply digits2_lower]. apply Z.pow_le_mono_r; lia. }
  assert (P : (0 < Z.pos q / 2 ^ Z.pos n)%Z).
  { apply Z.div_str_pos. split; [apply Z.pow_pos_nonneg; lia|exact L]. }
  destruct (Z.pos q / 2 ^ Z.pos n)%Z as [|q'|q']; try lia. now exists q'.
Qed.

Lemma shr_fexp_pos (q : positive) (e : Z) (l : location) :
  (emin Double.prec Double.emax <= e)%Z ->
  exists q' e',
    shr_m (fst (shr_fexp Double.prec Double.emax (Z.pos q) e l)) = Z.pos q'
    /\ snd (shr_fexp Double.prec Double.emax (Z.pos q) e l) = e'
    /\ (emin Double.prec Double.emax <= e')%Z.
Proof.
  intro He. unfold shr_fexp, shr. cbn [Zdigits2].
  assert (M : shr_m (shr_record_of_loc (Z.pos q) l) = Z.pos q).
  { destruct l as [|[| |]]; reflexivity. }
  destruct (fexp Double.prec Double.emax (Z.pos (digits2_pos q) + e) - e)%Z as [|n|n] eqn:N;
    cbn [fst snd].
  - exists q, e. rewrite M. auto.
  - assert (Hn : (Z.pos n < Z.pos (digits2_pos q))%Z).
    { unfold fexp, emin, Double.prec, Double.emax in *. lia. }
    rewrite iter_shr_m by (rewrite M; lia). rewrite M.
    destruct (shiftr_pos q n Hn) as [q' Hq]. exists q', (e + Z.pos n)%Z.
    rewrite Hq. repeat split; lia.
  - exists q, e. rewrite M. auto.
Qed.

Lemma round_nearest_even_pos (q : positive) (l : location) :
  exists q', round_nearest_even (Z.pos q) l = Z.pos q'.
Proof.
  destruct l as [|[| |]]; cbn [round_nearest_even].
  - now exists q.
  - destruct (Z.even (Z.pos q)); [now exists q|now exists (q + 1)%positive].
  - now exists q.
  - now exists (q + 1)%positive.
Qed.

Lemma binary_round_aux_pos (s : bool) (q : positive) (e : Z) (l : location) :
  (emin Double.prec Double.emax <= e)%Z ->
  (exists m e', binary_round_aux Double.prec Double.emax s (Z.pos q) e l
                = S754_finite s m e')
  \/ binary_round_aux Double.prec Double.emax s (Z.pos q) e l = S754_infinity s.
Proof.
  intro He. unfold binary_round_aux.
  destruct (shr_fexp_pos q e l He) as (q1 & e1 & M1 & E1 & B1).
  destruct (shr_fexp Double.prec Double.emax (Z.pos q) e l) as [r1 e1'].
  cbn [fst snd] in M1, E1. subst e1'. rewrite M1.
  destruct (round_nearest_even_pos q1 (loc_of_shr_record r1)) as [q2 R2]. rewrite R2.
  destruct (shr_fexp_pos q2 e1 loc_Exact B1) as (q3 & e3 & M3 & E3 & B3).
  destruct (shr_fexp Double.prec Double.emax (Z.pos q2) e1 loc_Exact) as [r3 e3'].
  cbn [fst snd] in M3, E3. subst e3'. rewrite M3.
  destruct (e3 <=? Double.emax - Double.prec)%Z; [left; now exists q3, e3|now right].
Qed.

Lemma of_Z_pos (p : positive) :
  (exists m e, Double.of_Z (Z.pos p) = S754_finite false m e)
  \/ Double.of_Z (Z.pos p) = S754_infinity false.
Proof.
  unfold Double.of_Z, binary_normalize, binary_round.
  destruct (shl_align p 0 (fexp Double.prec Double.emax (Z.pos (digits2_pos p) + 0)))
    as [mz ez] eqn:S.
  apply binary_round_aux_pos.
  unfold shl_align in S.
  destruct (fexp Double.prec Double.emax (Z.pos (digits2_pos p) + 0) - 0)%Z eqn:D;
    inversion S; subst; unfold fexp, emin, Double.prec, Double.emax in *; lia.
Qed.

(** Nothing out of a positive number of sets is 0 percent. *)
Lemma zero_percent (t : Z) :
  (0 < t)%Z ->
  Math_round (Double.mul (Double.div (Double.of_Z 0) (Double.of_Z t)) (Double.of_Z 100))
  = Double.of_Z 0.
Proof.
  intro H. destruct t as [|p|p]; try lia.
  destruct (of_Z_pos p) as [(m & e & E)|E]; rewrite E; reflexivity.
Qed.

Lemma double_eqb_eq (x y : spec_float) : Double.eqb x y = true -> x = y.
Proof.
  destruct x as [a|a| |a m e], y as [b|b| |b n f]; cbn; try discriminate.
  - intro H. apply eqb_prop in H. now subst.
  - intro H. apply eqb_prop in H. now subst.
  - reflexivity.
  - intro H. apply andb_true_iff in H. destruct H as [H E].
    apply andb_true_iff in H. destruct H as [S M].
    apply eqb_prop in S. apply Pos.eqb_eq in M. apply Z.eqb_eq in E. now subst.
Qed.

Lemma percentage_table : table_ok 100 = true.
Proof. vm_compute. reflexivity. Qed.

Lemma table_cell (n : nat) (c t : Z) :
  table_ok n = true -> (0 <= c <= t)%Z -> (1 <= t <= Z.of_nat n)%Z ->
  cell_ok (percentage_of c t) c t = true.
Proof.
  intros T Hc Ht. unfold table_ok in T.
  pose proof (proj1 (forallb_forall _ _) T (Z.to_nat t)) as T1.
  assert (It : In (Z.to_nat t) (seq 1 n)) by (apply in_seq; lia).
  specialize (T1 It). cbv beta in T1.
  pose proof (proj1 (forallb_forall _ _) T1 (Z.to_nat c)) as T2.
  assert (Ic : In (Z.to_nat c) (seq 0 (S (Z.to_nat t)))) by (apply in_seq; lia).
  specialize (T2 Ic). cbv beta in T2.
  rewrite !Z2Nat.id in T2 by lia. exact T2.
Qed.

Lemma percentage_cell (c t : Z) :
  (0 <= c <= t)%Z -> (1 <= t <= 100)%Z -> cell_ok (percentage_of c t) c t = true.
Proof.
  intros Hc Ht. apply (table_cell 100 c t percentage_table Hc). exact Ht.
Qed.

(** X23. For a workout of at most 100 sets the completion percentage of the
    report, computed in doubles as the code computes it, is a whole number
    between 0 and 100; it is 100 when every set is ticked and 0 when none
    is. *)
Theorem percentage_bounds (w : Workout) :
  (totalSets w <= 100)%Z ->
  exists p : Z,
    percentage w = Double.of_Z p /\ (0 <= p <= 100)%Z
    /\ ((forall ex s, In ex (w_exercises w) -> In s (ex_sets ex) -> s_completed s = true) ->
        (0 < totalSets w)%Z -> p = 100%Z)
    /\ (completedSets w = 0%Z -> p = 0%Z).
Proof.
  intro B. pose proof (completed_at_most_total w) as C.
  change (percentage w) with (percentage_of (completedSets w) (totalSets w)).
  destruct (Z.eq_dec (totalSets w) 0) as [Z0|NZ].
  - exists 0%Z. rewrite Z0. split; [reflexivity|]. split; [lia|]. split; [lia|reflexivity].
  - assert (Ht : (1 <= totalSets w <= 100)%Z) by lia.
    pose proof (percentage_cell _ _ C Ht) as K. unfold cell_ok in K.
    destruct (Double.to_int (percentage_of (completedSets w) (totalSets w))) as [p|];
      [|discriminate].
    apply andb_true_iff in K. destruct K as [K K0].
    apply andb_true_iff in K. destruct K as [K K100].
    apply andb_true_iff in K. destruct K as [K Khi].
    apply andb_true_iff in K. destruct K as [Keq Klo].
    exists p. split; [now apply double_eqb_eq|].
    apply Z.leb_le in Klo, Khi. split; [lia|]. split.
    + intros A _. rewrite (all_completed_total w A), Z.eqb_refl in K100.
      now apply Z.eqb_eq in K100.
    + intro E. rewrite E in K0. cbn in K0. now apply Z.eqb_eq in K0.
Qed.

Lemma percentage_bounds_witness :
  exists p : Z, percentage sample_long_workout = Double.of_Z p /\ (0 <= p <= 100)%Z.
Proof.
  destruct (percentage_bounds sample_long_workout) as (p & E & B & _).
  - vm_compute. discriminate.
  - exists p. split; [exact E|exact B].
Defined.

(** The double of 23 / 40 * 100 lies below 57.5: the percentage is 57. *)
Lemma percentage_rounds_the_double :
  percentage sample_long_workout = Double.of_Z 57.
Proof. vm_compute. reflexivity. Qed.

Lemma volume_of_unticked_sets (ss : list WSet) (a : Q) :
  fold_left (fun sAcc s => sAcc + s_weight s * s_reps s)%Q (map set_uncompleted ss) a
  = fold_left (fun sAcc s => sAcc + s_weight s * s_reps s)%Q ss a.
Proof.
  revert a. induction ss as [|s ss IH]; intro a; [reflexivity|].
  cbn [map fold_left]. rewrite IH. reflexivity.
Qed.

Lemma no_ticked_set_in_copy (ss : list WSet) :
  filter s_completed (map set_uncompleted ss) = [].
Proof.
  induction ss as [|s ss IH]; [reflexivity|]. cbn. exact IH.
Qed.

(** X24. A copy reports the same volume and the same number of sets as its
    source, with no set ticked and 0 percent done. *)
Theorem copy_keeps_volume_resets_progress (newId targetDate : string) (source : Workout) :
  totalVolume (copy_of newId targetDate source) = totalVolume source
  /\ totalSets (copy_of newId targetDate source) = totalSets source
  /\ completedSets (copy_of newId targetDate source) = 0%Z
  /\ percentage (copy_of newId targetDate source) = Double.of_Z 0.
Proof.
  assert (V : totalVolume (copy_of newId targetDate source) = totalVolume source).
  { unfold totalVolume, copy_of. cbn [w_exercises].
    generalize 0%Q at 2 4.
    induction (w_exercises source) as [|ex exs IH]; intro a; [reflexivity|].
    cbn [map fold_left with_sets ex_sets]. rewrite volume_of_unticked_sets. apply IH. }
  assert (T : totalSets (copy_of newId targetDate source) = totalSets source).
  { unfold totalSets, copy_of. cbn [w_exercises]. generalize 0%Z.
    induction (w_exercises source) as [|ex exs IH]; intro a; [reflexivity|].
    cbn [map fold_left with_sets ex_sets]. rewrite length_map. apply IH. }
  assert (C : completedSets (copy_of newId targetDate source) = 0%Z).
  { unfold completedSets, copy_of. cbn [w_exercises].
    induction (w_exercises source) as [|ex exs IH]; [reflexivity|].
    cbn [map fold_left with_sets ex_sets]. rewrite no_ticked_set_in_copy. exact IH. }
  split; [exact V|]. split; [exact T|]. split; [exact C|].
  unfold percentage. rewrite C.
  destruct (Z.gtb_spec (totalSets (copy_of newId targetDate source)) 0) as [G|G];
    [|reflexivity].
  apply zero_percent. exact G.
Qed.

(** ** What is written to the remote tables and read back *)

(** X26. The rows upserted for a list of workouts parse back to exactly those
    workouts: no field of a workout is lost on the way to the remote table
    and back. *)
Theorem stored_workouts_read_back (user_id : string) (ws current : list Workout) :
  fetch_workouts (Some (map (workout_row user_id) ws)) current = ws.
Proof.
  unfold fetch_workouts. rewrite map_map.
  induction ws as [|w ws IH]; [reflexivity|].
  cbn [map]. rewrite IH. destruct w; reflexivity.
Qed.

(** X27. An exercise definition parsed from the row that [addExerciseDef] wrote
    keeps its id, name, description, media URL and media type, and never has
    a [mediaId]: it equals the saved definition exactly when that one had
    none. *)
Theorem exercise_def_read_back (user_id : string) (def : ExerciseDef) :
  let back := parse_def (def_row user_id def) in
  d_id back = d_id def /\ d_name back = d_name def
  /\ d_description back = d_description def
  /\ d_mediaUrl back = d_mediaUrl def /\ d_mediaType back = d_mediaType def
  /\ d_mediaId back = None
  /\ (back = def <-> d_mediaId def = None).
Proof.
  destruct def as [i n d u m t]. cbn. repeat split; try reflexivity.
  - intro H. injection H as H. symmetry. exact H.
  - intros ->. reflexivity.
Qed.

(** ** Deleting an exercise definition from the picker *)

Lemma find_filter_same {A : Type} (f g : A -> bool) (l : list A) :
  (forall x, f x = true -> g x = true) -> find f (filter g l) = find f l.
Proof.
  intro H. induction l as [|a l IH]; [reflexivity|]. cbn.
  destruct (g a) eqn:G; cbn.
  - destruct (f a); [reflexivity|exact IH].
  - destruct (f a) eqn:F; [|exact IH]. rewrite (H a F) in G. discriminate.
Qed.

(** X28. The delete button of the picker never takes away a definition that an
    exercise of a stored workout refers to: every such exercise that was
    rendered before the click is rendered after it. *)
Theorem delete_button_keeps_exercises_rendered (ws : list Workout) (def : ExerciseDef)
      (confirmed : bool) (st : DefStore) (w : Workout) (ex : ExerciseInstance) :
  In w ws -> In ex (w_exercises w) ->
  rendered_exercise (exerciseDefs st) ex = true ->
  rendered_exercise (exerciseDefs (delete_button ws def confirmed st)) ex = true.
Proof.
  intros Hw Hex R. unfold delete_button.
  destruct (isUsed ws def) eqn:U; [exact R|].
  destruct confirmed; [|exact R].
  unfold rendered_exercise in *. cbn [deleteExerciseDef exerciseDefs].
  rewrite find_filter_same; [exact R|].
  intros d D. apply String.eqb_eq in D. rewrite D.
  unfold isUsed in U.
  destruct (String.eqb (ex_defId ex) (d_id def)) eqn:E; [|reflexivity].
  exfalso.
  assert (X : existsb (fun w0 => existsb (fun e => String.eqb (ex_defId e) (d_id def))
                                         (w_exercises w0)) ws = true).
  { apply existsb_exists. exists w. split; [exact Hw|].
    apply existsb_exists. exists ex. split; [exact Hex|exact E]. }
  congruence.
Qed.

Lemma delete_button_keeps_exercises_rendered_witness :
  rendered_exercise
    (exerciseDefs (delete_button [sample_workout] (mkDef "1" "Bench Press"
                     "Barbell bench press" None None (Some image)) true sample_def_store))
    sample_exercise = true.
Proof.
  apply (delete_button_keeps_exercises_rendered [sample_workout]
           (mkDef "1" "Bench Press" "Barbell bench press" None None (Some image))
           true sample_def_store sample_workout sample_exercise).
  - left. reflexivity.
  - left. reflexivity.
  - reflexivity.
Defined.

(** ** The unit preference *)

Lemma unitKey_eqb (a b : string) :
  String.eqb (Account.unitKey a) (Account.unitKey b) = String.eqb a b.
Proof. reflexivity. Qed.

Lemma getItem_setItem_same (k v : string) (ls : Account.Storage) :
  Account.getItem k (Account.setItem k v ls) = Some v.
Proof.
  unfold Account.getItem, Account.setItem. cbn. rewrite String.eqb_refl. reflexivity.
Qed.

Lemma getItem_setItem_other (k k' v : string) (ls : Account.Storage) :
  String.eqb k k' = false ->
  Account.getItem k' (Account.setItem k v ls) = Account.getItem k' ls.
Proof.
  intro N. unfold Account.getItem, Account.setItem. cbn [find fst]. rewrite N.
  rewrite find_filter_same; [reflexivity|].
  intros [k0 v0] H. cbn [fst] in *. apply String.eqb_eq in H. subst k0.
  rewrite String.eqb_sym, N. reflexivity.
Qed.

(** X29. The unit a profile toggles to is the unit that profile gets at its next
    sign-in on the same device, and the toggle leaves the profile of every
    other account as it was. *)
Theorem unit_preference_survives_sign_in (u : Account.UserProfile)
      (ls : Account.Storage) (authUser : Account.AuthUser) :
  let toggled := Account.toggleUnit (Some u) ls in
  (Account.a_id authUser = Account.u_id u ->
   Some (Account.u_defaultUnit (Account.mapUser authUser (snd toggled)))
   = option_map Account.u_defaultUnit (fst toggled))
  /\ (Account.a_id authUser <> Account.u_id u ->
      Account.mapUser authUser (snd toggled) = Account.mapUser authUser ls).
Proof.
  cbn [Account.toggleUnit fst snd option_map Account.u_defaultUnit]. split.
  - intro E. unfold Account.mapUser. cbn [Account.u_defaultUnit]. rewrite E.
    rewrite getItem_setItem_same. destruct (Account.u_defaultUnit u); reflexivity.
  - intro N. unfold Account.mapUser.
    rewrite getItem_setItem_other; [reflexivity|].
    rewrite unitKey_eqb. apply String.eqb_neq. congruence.
Qed.

Lemma unit_preference_survives_sign_in_witness :
  Account.u_defaultUnit
    (Account.mapUser sample_auth
       (snd (Account.toggleUnit (Some (Account.mapUser sample_auth [])) [])))
  = Account.kg.
Proof.
  assert (H := proj1 (unit_preference_survives_sign_in
                        (Account.mapUser sample_auth []) [] sample_auth) eq_refl).
  exact (f_equal (fun o => match o with Some x => x | None => Account.lbs end) H).
Defined.

Lemma str_or_nonempty (a : option string) (d : string) :
  d <> "" -> exists s, Account.str_or a (Some d) = Some s /\ s <> "".
Proof.
  intro D. unfold Account.str_or. destruct a as [s|].
  - destruct (String.eqb s "") eqn:E.
    + exists d. split; [reflexivity|exact D].
    + exists s. split; [reflexivity|]. apply String.eqb_neq. exact E.
  - exists d. split; [reflexivity|exact D].
Qed.

(** X30. A profile never has an empty name or an empty photo URL, whatever the
    account lacks, and its unit is pounds unless ["kg"] was saved for it. *)
Theorem mapUser_defaults (authUser : Account.AuthUser) (ls : Account.Storage) :
  Account.u_name (Account.mapUser authUser ls) <> ""
  /\ Account.u_photoUrl (Account.mapUser authUser ls) <> ""
  /\ (Account.getItem (Account.unitKey (Account.a_id authUser)) ls <> Some "kg" ->
      Account.u_defaultUnit (Account.mapUser authUser ls) = Account.lbs).
Proof.
  unfold Account.mapUser. cbn [Account.u_name Account.u_photoUrl Account.u_defaultUnit].
  split; [|split].
  - destruct (str_or_nonempty
                (Account.str_or (Account.a_full_name authUser)
                   (option_map Account.before_at (Account.a_email authUser)))
                "User") as (s & -> & N); [discriminate|exact N].
  - destruct (str_or_nonempty (Account.a_avatar_url authUser)
                (String.append "https://ui-avatars.com/api/?name="
                   (String.append (Account.interpolate (Account.a_email authUser))
                                  "&background=0D8ABC&color=fff")))
      as (s & -> & N); [discriminate|exact N].
  - intro K. destruct (Account.getItem _ ls) as [s|]; [|reflexivity].
    destruct (String.eqb s "kg") eqn:E.
    + apply String.eqb_eq in E. subst s. contradiction.
    + destruct (_ || _); reflexivity.
Qed.

Lemma mapUser_defaults_witness :
  Account.u_defaultUnit (Account.mapUser sample_other_auth [("ironlog_unit_u2", "stone")])
  = Account.lbs.
Proof.
  apply (mapUser_defaults sample_other_auth [("ironlog_unit_u2", "stone")]).
  discriminate.
Defined.
